(** * PowerBot: outage-schedule watcher (powerbot.go)

    A shallow embedding of the schedule extractor, the change detector, the
    retention policy, the message formatter and the state store of
    [powerbot.go] (the JSON-API variant of the program), followed by the
    properties of these functions.

    Go strings are byte sequences; they are modelled as [list ascii], one
    [ascii] per byte, so that a literal written here in UTF-8 denotes the same
    bytes as the Go literal.  Go's [int] is modelled as [Z]: every integer the
    program computes is bounded far below the machine range. *)

From Stdlib Require Import ZArith Ascii String List Lia.
From stdpp Require Import gmap strings list fin_maps.

Local Open Scope Z_scope.

(** Bytes of a literal. *)
Definition lit (s : string) : list ascii := list_ascii_of_string s.

Definition byte (n : nat) : ascii := ascii_of_nat n.

(** ** Package [strings] *)

Module strings.

(** [strings.HasPrefix(s, prefix)] *)
Fixpoint HasPrefix (s prefix : list ascii) {struct prefix} : bool :=
  match prefix, s with
  | [], _ => true
  | _ :: _, [] => false
  | p :: prefix', c :: s' => bool_decide (c = p) && HasPrefix s' prefix'
  end.

(** [strings.HasSuffix(s, suffix)] *)
Definition HasSuffix (s suffix : list ascii) : bool :=
  HasPrefix (reverse s) (reverse suffix).

(** [strings.TrimPrefix(s, prefix)] *)
Definition TrimPrefix (s prefix : list ascii) : list ascii :=
  if HasPrefix s prefix then drop (length prefix) s else s.

(** [strings.TrimSuffix(s, suffix)] *)
Definition TrimSuffix (s suffix : list ascii) : list ascii :=
  if HasSuffix s suffix then take (length s - length suffix)%nat s else s.

(** [strings.Contains(s, substr)] *)
Fixpoint Contains (s substr : list ascii) : bool :=
  HasPrefix s substr ||
  match s with
  | [] => false
  | _ :: s' => Contains s' substr
  end.

(** [strings.ReplaceAll(s, old, new)] for a non-empty [old] (both call
    sites pass a literal): occurrences are replaced from left to right and
    do not overlap.  [skip] counts the bytes of an occurrence that was
    just replaced and are still to be dropped. *)
Fixpoint replaceFrom (skip : nat) (old new s : list ascii) : list ascii :=
  match s with
  | [] => []
  | c :: s' =>
      match skip with
      | S k => replaceFrom k old new s'
      | O =>
          if HasPrefix s old
          then new ++ replaceFrom (length old - 1) old new s'
          else c :: replaceFrom O old new s'
      end
  end.

Definition ReplaceAll (s old new : list ascii) : list ascii :=
  replaceFrom 0 old new s.

(** [strings.Join(elems, sep)] *)
Fixpoint Join (elems : list (list ascii)) (sep : list ascii) : list ascii :=
  match elems with
  | [] => []
  | [e] => e
  | e :: rest => e ++ sep ++ Join rest sep
  end.

(** The UTF-8 encodings of the runes for which [unicode.IsSpace] holds:
    the ASCII ones, U+0085, U+00A0, U+1680, U+2000..U+200A, U+2028,
    U+2029, U+202F, U+205F and U+3000. *)
Definition spaceRunes : list (list ascii) :=
  map (map byte)
    [ [9]; [10]; [11]; [12]; [13]; [32];
      [194; 133]; [194; 160]; [225; 154; 128];
      [226; 128; 128]; [226; 128; 129]; [226; 128; 130]; [226; 128; 131];
      [226; 128; 132]; [226; 128; 133]; [226; 128; 134]; [226; 128; 135];
      [226; 128; 136]; [226; 128; 137]; [226; 128; 138];
      [226; 128; 168]; [226; 128; 169]; [226; 128; 175];
      [226; 129; 159]; [227; 128; 128] ]%nat.

(** Width of the first encoding of [table] that [s] starts with. *)
Fixpoint leading (table : list (list ascii)) (s : list ascii) : option nat :=
  match table with
  | [] => None
  | w :: table' => if HasPrefix s w then Some (length w) else leading table' s
  end.

(** Drop leading runes of [table]; every round drops at least one byte, so
    [length s] rounds are enough. *)
Fixpoint trimLeftN (n : nat) (table : list (list ascii)) (s : list ascii)
  : list ascii :=
  match n with
  | O => s
  | S n' =>
      match leading table s with
      | Some w => trimLeftN n' table (drop w s)
      | None => s
      end
  end.

Definition trimLeft (table : list (list ascii)) (s : list ascii) : list ascii :=
  trimLeftN (length s) table s.

(** A valid encoding at the end of a string is what
    [utf8.DecodeLastRuneInString] decodes, so trimming on the right is
    trimming the reversed encodings off the reversed string. *)
Definition trimRight (table : list (list ascii)) (s : list ascii) : list ascii :=
  reverse (trimLeft (map reverse table) (reverse s)).

(** [strings.TrimSpace(s)] *)
Definition TrimSpace (s : list ascii) : list ascii :=
  trimRight spaceRunes (trimLeft spaceRunes s).

End strings.

(** ** Package [regexp]

    Go's [regexp] returns the leftmost match and, among the matches that
    start there, the one a backtracking search finds first.  The matcher
    below is that backtracking search, written in continuation-passing
    style.  The patterns of the program repeat character classes only, so
    repetition is over a class.  Matching is on bytes: every literal of the
    patterns is valid UTF-8 and every class is an ASCII set or the
    complement of one, so a match never begins or ends inside a rune. *)

Module regexp.

Inductive Regexp : Type :=
| Empty                                (* the empty pattern *)
| Class (p : ascii -> bool)            (* one character of a class *)
| Cat (r1 r2 : Regexp)                 (* r1 r2 *)
| Alt (r1 r2 : Regexp)                 (* r1|r2, r1 preferred *)
| Star (p : ascii -> bool)             (* c*, greedy *)
| LazyStar (p : ascii -> bool)         (* c*?, non-greedy *)
| Group (r : Regexp)                   (* ( r ), capturing *)
| EndText.                             (* $ without the m flag *)

(** Captured texts, in the order in which the groups close; the groups of
    every pattern here are consecutive and outside any repetition, so this
    is the order of their numbers. *)
Definition Caps := list (list ascii).

Fixpoint starGreedy (p : ascii -> bool) (k : list ascii -> option Caps)
    (s : list ascii) : option Caps :=
  match s with
  | c :: s' =>
      if p c
      then match starGreedy p k s' with
           | Some m => Some m
           | None => k s
           end
      else k s
  | [] => k s
  end.

Fixpoint starLazy (p : ascii -> bool) (k : list ascii -> option Caps)
    (s : list ascii) : option Caps :=
  match k s with
  | Some m => Some m
  | None =>
      match s with
      | c :: s' => if p c then starLazy p k s' else None
      | [] => None
      end
  end.

Fixpoint run (r : Regexp) (k : list ascii -> Caps -> option Caps)
    (s : list ascii) (caps : Caps) : option Caps :=
  match r with
  | Empty => k s caps
  | Class p =>
      match s with
      | c :: s' => if p c then k s' caps else None
      | [] => None
      end
  | Cat r1 r2 => run r1 (run r2 k) s caps
  | Alt r1 r2 =>
      match run r1 k s caps with
      | Some m => Some m
      | None => run r2 k s caps
      end
  | Star p => starGreedy p (fun s' => k s' caps) s
  | LazyStar p => starLazy p (fun s' => k s' caps) s
  | Group r' =>
      run r' (fun s' caps' =>
                k s' (caps' ++ [take (length s - length s')%nat s])) s caps
  | EndText =>
      match s with
      | [] => k s caps
      | _ :: _ => None
      end
  end.

(** A match that starts at the head of [s]. *)
Definition matchHere (r : Regexp) (s : list ascii) : option Caps :=
  run r (fun _ caps => Some caps) s [].

(** [re.FindStringSubmatch(s)]: the submatches [m[1:]] of the leftmost
    match, [None] for the nil slice. *)
Fixpoint FindStringSubmatch (r : Regexp) (s : list ascii) : option Caps :=
  match matchHere r s with
  | Some m => Some m
  | None =>
      match s with
      | [] => None
      | _ :: s' => FindStringSubmatch r s'
      end
  end.

(** Pattern syntax. *)
Definition Chr (c : ascii) : Regexp := Class (fun x => bool_decide (x = c)).

(** A literal, as produced by [regexp.QuoteMeta] or written in a pattern. *)
Fixpoint Lit (s : list ascii) : Regexp :=
  match s with
  | [] => Empty
  | c :: s' => Cat (Chr c) (Lit s')
  end.

Definition Plus (p : ascii -> bool) : Regexp := Cat (Class p) (Star p).
Definition Opt (r : Regexp) : Regexp := Alt r Empty.

(** [\s]: tab, newline, form feed, carriage return, space. *)
Definition space (c : ascii) : bool :=
  bool_decide (c ∈ map byte [9; 10; 12; 13; 32]%nat).

(** [\d] *)
Definition digit (c : ascii) : bool :=
  let n := nat_of_ascii c in (48 <=? n)%nat && (n <=? 57)%nat.

(** [[^\.]] *)
Definition notDot (c : ascii) : bool := negb (bool_decide (c = "."%char)).

(** [.] under the s flag, and without it. *)
Definition anyChar (c : ascii) : bool := true.
Definition notNewline (c : ascii) : bool := negb (bool_decide (c = byte 10)).

Fixpoint Seq (rs : list Regexp) : Regexp :=
  match rs with
  | [] => Empty
  | [r] => r
  | r :: rs' => Cat r (Seq rs')
  end.

End regexp.

(** ** Package [time]

    A [Time] is kept as its civil fields in its own location, down to the
    minute: the program formats dates, steps one day back, and subtracts
    clock times parsed in UTC with zero seconds.  Calendar arithmetic goes
    through the day number of the proleptic Gregorian calendar, as
    [time.Date] does. *)

Module time.

Record Time : Type := mkTime {
  Year : Z; Month : Z; Day : Z; Hour : Z; Minute : Z
}.

(** The zero [Time{}]: January 1, year 1, 00:00 UTC. *)
Definition zero : Time := mkTime 1 1 1 0 0.

Definition isLeap (y : Z) : bool :=
  (y mod 4 =? 0) && (negb (y mod 100 =? 0) || (y mod 400 =? 0)).

(** [daysIn(m, year)] *)
Definition daysIn (m y : Z) : Z :=
  if m =? 2 then (if isLeap y then 29 else 28)
  else if (m =? 4) || (m =? 6) || (m =? 9) || (m =? 11) then 30
  else 31.

(** Days from 1970-01-01 to the given civil date; [d] may lie outside the
    month. *)
Definition daysFromCivil (y m d : Z) : Z :=
  let y' := if m <=? 2 then y - 1 else y in
  let era := y' / 400 in
  let yoe := y' - era * 400 in
  let doy := (153 * (if 2 <? m then m - 3 else m + 9) + 2) / 5 + d - 1 in
  let doe := yoe * 365 + yoe / 4 - yoe / 100 + doy in
  era * 146097 + doe - 719468.

(** The civil date of a day number. *)
Definition civilFromDays (n : Z) : Z * Z * Z :=
  let z := n + 719468 in
  let era := z / 146097 in
  let doe := z - era * 146097 in
  let yoe := (doe - doe / 1460 + doe / 36524 - doe / 146096) / 365 in
  let doy := doe - (365 * yoe + yoe / 4 - yoe / 100) in
  let mp := (5 * doy + 2) / 153 in
  let d := doy - (153 * mp + 2) / 5 + 1 in
  let m := if mp <? 10 then mp + 3 else mp - 9 in
  (yoe + era * 400 + (if m <=? 2 then 1 else 0), m, d).

(** Minutes since 1970-01-01 00:00. *)
Definition absMinutes (t : Time) : Z :=
  daysFromCivil (Year t) (Month t) (Day t) * 1440 + Hour t * 60 + Minute t.

(** [time.Date(year, month, day, hour, min, 0, 0, loc)]: values outside
    their usual ranges are normalised. *)
Definition Date (year month day hour min : Z) : Time :=
  let y := year + (month - 1) / 12 in
  let m := (month - 1) mod 12 + 1 in
  let total := daysFromCivil y m day * 1440 + hour * 60 + min in
  let '(y', m', d') := civilFromDays (total / 1440) in
  mkTime y' m' d' (total mod 1440 / 60) (total mod 60).

(** [t.AddDate(years, months, days)] *)
Definition AddDate (t : Time) (years months days : Z) : Time :=
  Date (Year t + years) (Month t + months) (Day t + days) (Hour t) (Minute t).

(** Durations are nanoseconds in an [int64]. *)
Definition Minute_ns : Z := 60000000000.
Definition maxDuration : Z := 2 ^ 63 - 1.
Definition minDuration : Z := - 2 ^ 63.

(** [t.Sub(u)], saturating at the largest and smallest duration. *)
Definition Sub (t u : Time) : Z :=
  Z.max minDuration (Z.min maxDuration ((absMinutes t - absMinutes u) * Minute_ns)).

(** [int(d.Minutes())]: the conversion of the floating-point number of
    minutes to [int] discards the fraction. *)
Definition Minutes (d : Z) : Z := Z.quot d Minute_ns.

(** Decimal digits. *)
Definition isDigit (c : ascii) : bool :=
  let n := nat_of_ascii c in (48 <=? n)%nat && (n <=? 57)%nat.

Definition digitVal (c : ascii) : Z := Z.of_nat (nat_of_ascii c) - 48.

Definition digitChar (d : Z) : ascii := ascii_of_nat (Z.to_nat (d + 48)).

Fixpoint decimal (fuel : nat) (u : Z) (acc : list ascii) : list ascii :=
  match fuel with
  | O => acc
  | S fuel' =>
      let acc' := digitChar (u mod 10) :: acc in
      if u / 10 =? 0 then acc' else decimal fuel' (u / 10) acc'
  end.

(** [appendInt(b, x, width)]: sign, then the digits padded with zeros to
    [width]. *)
Definition appendInt (x : Z) (width : nat) : list ascii :=
  let ds := decimal (S (Z.to_nat (Z.log2 (Z.abs x)))) (Z.abs x) [] in
  (if x <? 0 then ["-"%char] else []) ++
  replicate (width - length ds) "0"%char ++ ds.

(** [t.Format("2006-01-02")] *)
Definition Format_2006_01_02 (t : Time) : list ascii :=
  appendInt (Year t) 4 ++ lit "-" ++ appendInt (Month t) 2 ++ lit "-"
    ++ appendInt (Day t) 2.

(** [t.Format("02.01.2006")] *)
Definition Format_02_01_2006 (t : Time) : list ascii :=
  appendInt (Day t) 2 ++ lit "." ++ appendInt (Month t) 2 ++ lit "."
    ++ appendInt (Year t) 4.

(** [t.Format("02.01")] *)
Definition Format_02_01 (t : Time) : list ascii :=
  appendInt (Day t) 2 ++ lit "." ++ appendInt (Month t) 2.

(** [getnum(s, fixed)]: one or two digits, exactly two when [fixed]. *)
Definition getnum (s : list ascii) (fixed : bool) : option (Z * list ascii) :=
  match s with
  | a :: rest =>
      if isDigit a then
        match rest with
        | b :: rest' =>
            if isDigit b then Some (digitVal a * 10 + digitVal b, rest')
            else if fixed then None else Some (digitVal a, rest)
        | [] => if fixed then None else Some (digitVal a, rest)
        end
      else None
  | [] => None
  end.

(** A literal piece of a layout. *)
Definition expect (p s : list ascii) : option (list ascii) :=
  if strings.HasPrefix s p then Some (drop (length p) s) else None.

(** [time.Parse("15:04", value)]; [None] stands for a parse error, in
    which case [Parse] returns the zero [Time].  A time without a date is
    on January 1 of year 0. *)
Definition Parse_15_04 (value : list ascii) : option Time :=
  '(hour, v1) ← getnum value false;
  v2 ← expect (lit ":") v1;
  '(min, v3) ← getnum v2 true;
  match v3 with
  | [] => if (hour <? 24) && (min <? 60)
          then Some (mkTime 0 1 1 hour min) else None
  | _ :: _ => None
  end.

(** The four digits of [stdLongYear]. *)
Definition getyear (s : list ascii) : option (Z * list ascii) :=
  match s with
  | a :: b :: c :: d :: rest =>
      if isDigit a && isDigit b && isDigit c && isDigit d
      then Some (((digitVal a * 10 + digitVal b) * 10 + digitVal c) * 10
                   + digitVal d, rest)
      else None
  | _ => None
  end.

(** [time.Parse("2006-01-02", value)] *)
Definition Parse_2006_01_02 (value : list ascii) : option Time :=
  '(year, v1) ← getyear value;
  v2 ← expect (lit "-") v1;
  '(month, v3) ← getnum v2 true;
  v4 ← expect (lit "-") v3;
  '(day, v5) ← getnum v4 true;
  match v5 with
  | [] => if (1 <=? month) && (month <=? 12) && (1 <=? day)
             && (day <=? daysIn month year)
          then Some (mkTime year month day 0 0) else None
  | _ :: _ => None
  end.

End time.

(** ** Package [encoding/json]

    A state file is modelled by the JSON document it holds, not by its text:
    the layout written by [MarshalIndent] and the lexical rules of the decoder
    belong to the library.  An object is a finite map from keys to values
    (documents that repeat a key, or that spell a field name in another
    case, are outside the model). *)

Module json.

#[warnings="-register-all"]
Inductive Value : Type :=
| Null
| Bool (b : bool)
| Int (n : Z)                          (* a number written as an integer *)
| Float                                (* any other number *)
| Str (s : list ascii)
| Array (elems : list Value)
| Object (fields : gmap (list ascii) Value).

(** Width of the valid UTF-8 encoding that [s] starts with, as
    [utf8.DecodeRuneInString] finds it; [None] for an invalid byte. *)
Definition runeWidth (s : list ascii) : option nat :=
  let within lo hi c := ((lo <=? nat_of_ascii c) && (nat_of_ascii c <=? hi))%nat in
  let cont := within 128%nat 191%nat in
  match s with
  | [] => None
  | a :: rest =>
      let n := nat_of_ascii a in
      if (n <? 128)%nat then Some 1%nat
      else if ((194 <=? n) && (n <=? 223))%nat then
        match rest with
        | b :: _ => if cont b then Some 2%nat else None
        | _ => None
        end
      else if ((224 <=? n) && (n <=? 239))%nat then
        match rest with
        | b :: c :: _ =>
            if (if (n =? 224)%nat then within 160%nat 191%nat b
                else if (n =? 237)%nat then within 128%nat 159%nat b
                else cont b) && cont c
            then Some 3%nat else None
        | _ => None
        end
      else if ((240 <=? n) && (n <=? 244))%nat then
        match rest with
        | b :: c :: d :: _ =>
            if (if (n =? 240)%nat then within 144%nat 191%nat b
                else if (n =? 244)%nat then within 128%nat 143%nat b
                else cont b) && cont c && cont d
            then Some 4%nat else None
        | _ => None
        end
      else None
  end.

(** The encoding of U+FFFD, the replacement rune. *)
Definition replacement : list ascii := map byte [239; 191; 189]%nat.

(** String values are coerced to valid UTF-8 when they are encoded: every
    invalid byte becomes the replacement rune.  [skip] counts the bytes of
    the current rune that are still to be copied. *)
Fixpoint coerceFrom (skip : nat) (s : list ascii) : list ascii :=
  match s with
  | [] => []
  | c :: s' =>
      match skip with
      | S k => c :: coerceFrom k s'
      | O =>
          match runeWidth s with
          | Some w => c :: coerceFrom (w - 1) s'
          | None => replacement ++ coerceFrom O s'
          end
      end
  end.

Definition toValidUTF8 (s : list ascii) : list ascii := coerceFrom 0 s.

(** [utf8.ValidString(s)] *)
Fixpoint validFrom (skip : nat) (s : list ascii) : bool :=
  match s with
  | [] => true
  | _ :: s' =>
      match skip with
      | S k => validFrom k s'
      | O =>
          match runeWidth s with
          | Some w => validFrom (w - 1) s'
          | None => false
          end
      end
  end.

Definition ValidString (s : list ascii) : bool := validFrom 0 s.

End json.

(** ** Package [os]: the files the state store touches

    A file holds a complete document or the torn beginning of one (what a
    write leaves behind when it stops half way).  Directories are not
    modelled: [MkdirAll] changes no file. *)

Module os.

Inductive Content : Type :=
| Doc (v : json.Value)
| Torn.

Abbreviation Files := (gmap (list ascii) Content).

Definition Error := string.

Inductive Call : Type :=
| MkdirAll (dir : list ascii)
| WriteFile (name : list ascii) (data : json.Value)
| Rename (oldpath newpath : list ascii).

(** A call that returns: either it succeeds with its effect, or it fails.
    A failed [WriteFile] may have created or truncated its file already. *)
Inductive returns : Call -> Files -> Files -> option Error -> Prop :=
| mkdir_ok dir fs : returns (MkdirAll dir) fs fs None
| mkdir_fail dir fs e : returns (MkdirAll dir) fs fs (Some e)
| write_ok name data fs :
    returns (WriteFile name data) fs (<[name := Doc data]> fs) None
| write_fail_open name data fs e :
    returns (WriteFile name data) fs fs (Some e)
| write_fail_torn name data fs e :
    returns (WriteFile name data) fs (<[name := Torn]> fs) (Some e)
| rename_ok oldpath newpath fs c :
    fs !! oldpath = Some c ->
    returns (Rename oldpath newpath) fs
      (<[newpath := c]> (delete oldpath fs)) None
| rename_fail oldpath newpath fs e :
    returns (Rename oldpath newpath) fs fs (Some e).

(** The files left behind when the process is stopped while a call is in
    progress.  [Rename] is atomic: it has happened or it has not. *)
Inductive interrupted : Call -> Files -> Files -> Prop :=
| mkdir_cut dir fs : interrupted (MkdirAll dir) fs fs
| write_cut_before name data fs : interrupted (WriteFile name data) fs fs
| write_cut_torn name data fs :
    interrupted (WriteFile name data) fs (<[name := Torn]> fs)
| write_cut_after name data fs :
    interrupted (WriteFile name data) fs (<[name := Doc data]> fs)
| rename_cut_before oldpath newpath fs :
    interrupted (Rename oldpath newpath) fs fs
| rename_cut_after oldpath newpath fs c :
    fs !! oldpath = Some c ->
    interrupted (Rename oldpath newpath) fs
      (<[newpath := c]> (delete oldpath fs)).

(** How a run of consecutive calls, each checked with
    [if err != nil { return err }], ends. *)
Inductive Outcome : Type :=
| Returned (err : option Error)
| Crashed.

Inductive runs : list Call -> Files -> Files -> Outcome -> Prop :=
| runs_done fs : runs [] fs fs (Returned None)
| runs_next c cs fs fs1 fs2 o :
    returns c fs fs1 None -> runs cs fs1 fs2 o -> runs (c :: cs) fs fs2 o
| runs_error c cs fs fs1 e :
    returns c fs fs1 (Some e) -> runs (c :: cs) fs fs1 (Returned (Some e))
| runs_crash c cs fs fs1 :
    interrupted c fs fs1 -> runs (c :: cs) fs fs1 Crashed.

(** [os.ReadFile(name)] *)
Definition ReadFile (fs : Files) (name : list ascii) : option Content :=
  fs !! name.

End os.

(** [filepath.Dir(path)] is [filepath.Clean] of the part of [path] up to its
    last separator; that part is what determines the directory. *)
Module filepath.

Fixpoint dirPart (path : list ascii) : list ascii :=
  match path with
  | [] => []
  | c :: rest =>
      if bool_decide ("/"%char ∈ path) then c :: dirPart rest else []
  end.

End filepath.

(** ** The program *)

Definition groupWater : list ascii := lit "Група 4.1".
Definition groupPower : list ascii := lit "Група 6.1".
Definition labelWater : list ascii := lit "*💧 води не буде*".
Definition labelPower : list ascii := lit "*💡 світла не буде*".

Record GroupInfo : Type := mkGroupInfo {
  Text : list ascii;
  Minutes : Z
}.

Record DayInfo : Type := mkDayInfo {
  Date : list ascii;                       (* yyyy-mm-dd *)
  Groups : gmap (list ascii) GroupInfo
}.

Record State : Type := mkState {
  Days : list DayInfo
}.

#[global] Instance GroupInfo_eq_dec : EqDecision GroupInfo.
Proof. solve_decision. Defined.

#[global] Instance DayInfo_eq_dec : EqDecision DayInfo.
Proof. solve_decision. Defined.

#[global] Instance State_eq_dec : EqDecision State.
Proof. solve_decision. Defined.

(** The tracked groups, in the order in which every loop visits them. *)
Definition trackedGroups : list (list ascii) := [groupPower; groupWater].

(** The header that opens the section of a date. *)
Definition header : list ascii := lit "Графік погодинних відключень на".

(** [\d{2}\.\d{2}\.\d{4}] *)
Definition anyDate : regexp.Regexp :=
  regexp.Seq
    [ regexp.Class regexp.digit; regexp.Class regexp.digit; regexp.Chr ".";
      regexp.Class regexp.digit; regexp.Class regexp.digit; regexp.Chr ".";
      regexp.Class regexp.digit; regexp.Class regexp.digit;
      regexp.Class regexp.digit; regexp.Class regexp.digit ].

(** The pattern of [extractSection], with the tags [open] and [close]
    around the header:
    [(?s)open header\s+date close(.*?)(?:open header\s+\d{2}\.\d{2}\.\d{4}close|$)];
    the first attempt has the tags of bold text, the second has none. *)
Definition sectionPattern (open close dateTitle : list ascii) : regexp.Regexp :=
  regexp.Seq
    [ regexp.Lit (open ++ header); regexp.Plus regexp.space;
      regexp.Lit dateTitle; regexp.Lit close;
      regexp.Group (regexp.LazyStar regexp.anyChar);
      regexp.Alt
        (regexp.Seq [ regexp.Lit (open ++ header); regexp.Plus regexp.space;
                      anyDate; regexp.Lit close ])
        regexp.EndText ].

(** The first submatch of a match, as [if len(m) >= 2 { return m[1] }]
    reads it. *)
Definition submatch1 (m : option regexp.Caps) : option (list ascii) :=
  match m with
  | Some (m1 :: _) => Some m1
  | _ => None
  end.

(** [extractSection] grabs the text between the date title and the next date
    title or the end. *)
Definition extractSection (body dateTitle : list ascii) : list ascii :=
  let pat := sectionPattern (lit "<b>") (lit "</b>") dateTitle in
  match submatch1 (regexp.FindStringSubmatch pat body) with
  | Some m1 => m1
  | None =>
      let pat2 := sectionPattern [] [] dateTitle in
      match submatch1 (regexp.FindStringSubmatch pat2 body) with
      | Some m1 => m1
      | None => []
      end
  end.

(** [group[^\.]*\.?\s*([^\.]*\.)] *)
Definition groupPattern (group : list ascii) : regexp.Regexp :=
  regexp.Seq
    [ regexp.Lit group; regexp.Star regexp.notDot;
      regexp.Opt (regexp.Chr "."); regexp.Star regexp.space;
      regexp.Group (regexp.Cat (regexp.Star regexp.notDot) (regexp.Chr ".")) ].

(** [group.*?\.\s*([^.]+\.)] *)
Definition groupPattern2 (group : list ascii) : regexp.Regexp :=
  regexp.Seq
    [ regexp.Lit group; regexp.LazyStar regexp.notNewline; regexp.Chr ".";
      regexp.Star regexp.space;
      regexp.Group (regexp.Cat (regexp.Plus regexp.notDot) (regexp.Chr ".")) ].

(** [extractGroup] finds the first text after the group label up to a
    period. *)
Definition extractGroup (section group : list ascii) : list ascii :=
  match submatch1 (regexp.FindStringSubmatch (groupPattern group) section) with
  | Some m1 => strings.TrimSpace m1
  | None =>
      match submatch1 (regexp.FindStringSubmatch (groupPattern2 group) section) with
      | Some m1 => strings.TrimSpace m1
      | None => []
      end
  end.

(** The marker of a group that keeps its supply, and the text that replaces
    it. *)
Definition powerIsPresent : list ascii := lit "Електроенергія є".
Definition noOutage : list ascii := lit "буде!!!!".

Definition normalizeText (s : list ascii) : list ascii :=
  let s := strings.TrimSpace s in
  let s := strings.TrimPrefix s (lit "—") in
  let s := strings.TrimSpace s in
  let s := strings.ReplaceAll s (map byte [194; 160]%nat) (lit " ") in
  let s := strings.ReplaceAll s (lit "  ") (lit " ") in
  if strings.Contains s powerIsPresent then noOutage
  else strings.TrimSuffix s (lit ".").

(** [(\d{2})] *)
Definition twoDigits : regexp.Regexp :=
  regexp.Group (regexp.Cat (regexp.Class regexp.digit) (regexp.Class regexp.digit)).

(** [з\s+(\d{2}):(\d{2})\s+до\s+(\d{2}):(\d{2})] *)
Definition outagePattern : regexp.Regexp :=
  regexp.Seq
    [ regexp.Lit (lit "з"); regexp.Plus regexp.space;
      twoDigits; regexp.Chr ":"; twoDigits; regexp.Plus regexp.space;
      regexp.Lit (lit "до"); regexp.Plus regexp.space;
      twoDigits; regexp.Chr ":"; twoDigits ].

(** The parse errors are dropped: a time that does not parse is the zero
    [Time]. *)
Definition outageMinutes (text : list ascii) : Z :=
  match regexp.FindStringSubmatch outagePattern text with
  | Some [m1; m2; m3; m4] =>
      let h1 := default time.zero (time.Parse_15_04 (m1 ++ lit ":" ++ m2)) in
      let h2 := default time.zero (time.Parse_15_04 (m3 ++ lit ":" ++ m4)) in
      time.Minutes (time.Sub h2 h1)
  | _ => 0
  end.

(** The groups of one section: the body of the inner loop of [parsePage]. *)
Definition parseGroup (section : list ascii)
    (groups : gmap (list ascii) GroupInfo) (g : list ascii)
  : gmap (list ascii) GroupInfo :=
  let txt := extractGroup section g in
  if bool_decide (txt = []) then groups
  else
    let norm := normalizeText txt in
    let mins := outageMinutes norm in
    <[g := mkGroupInfo norm mins]> groups.

Definition parseGroups (section : list ascii) : gmap (list ascii) GroupInfo :=
  foldl (parseGroup section) ∅ trackedGroups.

(** One round of the outer loop of [parsePage]. *)
Definition parseDate (body : list ascii) (out : list DayInfo) (d : time.Time)
  : list DayInfo :=
  let dateTitle := time.Format_02_01_2006 d in
  let section := extractSection body dateTitle in
  if bool_decide (section = []) then out
  else
    let groups := parseGroups section in
    if bool_decide (0 < size groups)%nat
    then out ++ [mkDayInfo (time.Format_2006_01_02 d) groups]
    else out.

(** [parsePage] uses regex-based extraction; the tracing under the debug
    switch has no effect on the result and is left out. *)
Definition parsePage (body : list ascii) (dates : list time.Time)
  : list DayInfo * option os.Error :=
  (foldl (parseDate body) [] dates, None).

(** *** The state file

    [json.MarshalIndent(st, "", "  ")] under the field tags of the three
    structs.  Strings, keys included, are coerced to valid UTF-8.  An empty
    [Days] is the nil slice that [keepLastTwo] leaves when it keeps nothing,
    written as [null]. *)

Definition marshalGroupInfo (g : GroupInfo) : json.Value :=
  json.Object
    (<[lit "text" := json.Str (json.toValidUTF8 (Text g))]>
       (<[lit "minutes" := json.Int (Minutes g)]> ∅)).

Definition marshalGroups (groups : gmap (list ascii) GroupInfo) : json.Value :=
  json.Object
    (list_to_map
       ((fun kv => (json.toValidUTF8 kv.1, marshalGroupInfo kv.2))
          <$> map_to_list groups)).

Definition marshalDayInfo (d : DayInfo) : json.Value :=
  json.Object
    (<[lit "date" := json.Str (json.toValidUTF8 (Date d))]>
       (<[lit "groups" := marshalGroups (Groups d)]> ∅)).

Definition marshalState (st : State) : json.Value :=
  json.Object
    (<[lit "days" := match Days st with
                     | [] => json.Null
                     | days => json.Array (marshalDayInfo <$> days)
                     end]> ∅).

(** [json.Unmarshal(b, &s)] into zero values.  A field that is missing or
    [null] keeps its zero value; a value of the wrong kind is skipped and the
    error is reported once decoding is over, here by the flag [true]. *)

Definition unmarshalString (v : option json.Value) : list ascii * bool :=
  match v with
  | None | Some json.Null => ([], false)
  | Some (json.Str s) => (s, false)
  | Some _ => ([], true)
  end.

Definition unmarshalInt (v : option json.Value) : Z * bool :=
  match v with
  | None | Some json.Null => (0, false)
  | Some (json.Int n) => (n, false)
  | Some _ => (0, true)
  end.

Definition unmarshalGroupInfo (v : json.Value) : GroupInfo * bool :=
  match v with
  | json.Null => (mkGroupInfo [] 0, false)
  | json.Object fields =>
      let '(text, e1) := unmarshalString (fields !! lit "text") in
      let '(minutes, e2) := unmarshalInt (fields !! lit "minutes") in
      (mkGroupInfo text minutes, e1 || e2)
  | _ => (mkGroupInfo [] 0, true)
  end.

Definition unmarshalGroups (v : option json.Value)
  : gmap (list ascii) GroupInfo * bool :=
  match v with
  | None | Some json.Null => (∅, false)
  | Some (json.Object fields) =>
      let decoded := unmarshalGroupInfo <$> fields in
      (fst <$> decoded,
       bool_decide (map_Exists (fun _ x => x.2 = true) decoded))
  | Some _ => (∅, true)
  end.

Definition unmarshalDayInfo (v : json.Value) : DayInfo * bool :=
  match v with
  | json.Null => (mkDayInfo [] ∅, false)
  | json.Object fields =>
      let '(date, e1) := unmarshalString (fields !! lit "date") in
      let '(groups, e2) := unmarshalGroups (fields !! lit "groups") in
      (mkDayInfo date groups, e1 || e2)
  | _ => (mkDayInfo [] ∅, true)
  end.

Definition unmarshalDays (v : option json.Value) : list DayInfo * bool :=
  match v with
  | None | Some json.Null => ([], false)
  | Some (json.Array elems) =>
      let decoded := unmarshalDayInfo <$> elems in
      (fst <$> decoded, existsb snd decoded)
  | Some _ => ([], true)
  end.

Definition unmarshalState (v : json.Value) : State * option os.Error :=
  match v with
  | json.Null => (mkState [], None)
  | json.Object fields =>
      let '(days, e) := unmarshalDays (fields !! lit "days") in
      (mkState days,
       if e then Some "json: cannot unmarshal value"%string else None)
  | _ => (mkState [], Some "json: cannot unmarshal value"%string)
  end.

(** [loadState]: a missing file is a read error, a torn one a syntax error;
    both leave the zero [State]. *)
Definition loadState (fs : os.Files) (path : list ascii)
  : State * option os.Error :=
  match os.ReadFile fs path with
  | None => (mkState [], Some "open: no such file or directory"%string)
  | Some os.Torn => (mkState [], Some "unexpected end of JSON input"%string)
  | Some (os.Doc v) => unmarshalState v
  end.

(** The calls of [saveState], in order; each error is returned at once. *)
Definition saveCalls (path : list ascii) (st : State) : list os.Call :=
  let tmp := path ++ lit ".tmp" in
  let b := marshalState st in
  [ os.MkdirAll (filepath.dirPart path);
    os.WriteFile tmp b;
    os.Rename tmp path ].

(** [saveState path st fs fs' o]: started on the files [fs], [saveState]
    ends as [o] and leaves the files [fs']. *)
Definition saveState (path : list ascii) (st : State)
    (fs fs' : os.Files) (o : os.Outcome) : Prop :=
  os.runs (saveCalls path st) fs fs' o.

(** *** Days of the state *)

(** [findDay] returns a pointer to the first day of that date; the pointer is
    read, never written through, so the model returns the day it points to. *)
Fixpoint findDayIn (days : list DayInfo) (date : list ascii) : option DayInfo :=
  match days with
  | [] => None
  | d :: rest => if decide (Date d = date) then Some d else findDayIn rest date
  end.

Definition findDay (st : State) (date : list ascii) : option DayInfo :=
  findDayIn (Days st) date.

(** The loop of [upsertDay]: [Some] of the updated days when a day of that
    date was found and overwritten, [None] when the loop ends with
    [found == false]. *)
Fixpoint overwriteDay (days : list DayInfo) (day : DayInfo)
  : option (list DayInfo) :=
  match days with
  | [] => None
  | d :: rest =>
      if decide (Date d = Date day) then Some (day :: rest)
      else cons d <$> overwriteDay rest day
  end.

Definition upsertDay (st : State) (day : DayInfo) : State :=
  match overwriteDay (Days st) day with
  | Some days => mkState days
  | None => mkState (Days st ++ [day])
  end.

(** The [cutoff] set of [keepLastTwo]. *)
Definition cutoffDates (refs : list time.Time) : gmap (list ascii) bool :=
  foldl (fun cutoff d =>
           <[time.Format_2006_01_02 (time.AddDate d 0 0 (-1)) := true]>
             (<[time.Format_2006_01_02 d := true]> cutoff))
        ∅ refs.

Definition keepLastTwo (st : State) (refs : list time.Time) : State :=
  let cutoff := cutoffDates refs in
  let kept :=
    foldl (fun kept d =>
             if default false (cutoff !! Date d) then kept ++ [d] else kept)
          [] (Days st) in
  mkState kept.

(** *** Change detection *)

(** A map read [o, ok := m[g]]: the zero value when the key is absent. *)
Definition groupOrZero (o : option GroupInfo) : GroupInfo :=
  default (mkGroupInfo [] 0) o.

(** One round of the loop of [compareDay] on the pair (changed, more). *)
Definition compareGroup (old cur : DayInfo) (acc : bool * bool)
    (g : list ascii) : bool * bool :=
  let o := groupOrZero (Groups old !! g) in
  let okO := bool_decide (is_Some (Groups old !! g)) in
  let n := groupOrZero (Groups cur !! g) in
  let okN := bool_decide (is_Some (Groups cur !! g)) in
  if negb okN && negb okO then acc
  else if negb okO || negb okN || negb (bool_decide (Text o = Text n))
  then (true, if Minutes o <? Minutes n then true else acc.2)
  else acc.

Definition compareDay (old cur : DayInfo) : bool * bool :=
  foldl (compareGroup old cur) (false, false) trackedGroups.

(** *** Messages *)

Definition toDM (date : list ascii) : list ascii :=
  time.Format_02_01 (default time.zero (time.Parse_2006_01_02 date)).

Definition formatLine (day : DayInfo) (group label : list ascii) : list ascii :=
  match Groups day !! group with
  | Some g => label ++ lit ": " ++ Text g
  | None => label ++ lit ": н/д"
  end.

(** [postSchedule] hands its message to [sendTelegram], the notifier, and
    returns what that returns. *)
Definition postSchedule {R : Type}
    (sendTelegram : list ascii -> list ascii -> list ascii -> R)
    (token chatID : list ascii) (day : DayInfo) (isUpdate more : bool) : R :=
  let title :=
    if isUpdate then
      if more then lit "upd. 😩 на " ++ toDM (Date day)
      else lit "upd. 🍾 на " ++ toDM (Date day)
    else lit "графік на " ++ toDM (Date day) in
  let lines := [] in
  let lines := lines ++ [lit "*" ++ title ++ lit "*"] in
  let lines := lines ++ [formatLine day groupPower labelPower] in
  let lines := lines ++ [formatLine day groupWater labelWater] in
  let msg := strings.Join lines (lit (String (ascii_of_nat 10) EmptyString)) in
  sendTelegram token chatID msg.

(** *** Vocabulary of the specification *)

(** A tracked group contributes to a change when it is present in exactly one
    of the two records, or in both with different texts. *)
Definition groupDiffers (old cur : DayInfo) (g : list ascii) : Prop :=
  match Groups old !! g, Groups cur !! g with
  | None, None => False
  | Some o, Some n => Text o ≠ Text n
  | _, _ => True
  end.

#[global] Instance groupDiffers_dec old cur g : Decision (groupDiffers old cur g).
Proof.
  unfold groupDiffers.
  destruct (Groups old !! g), (Groups cur !! g); apply _.
Defined.

(** A date is retained when it is the date of a reference day or of the day
    before one. *)
Definition inWindow (refs : list time.Time) (date : list ascii) : Prop :=
  Exists (fun r => date = time.Format_2006_01_02 r
                   ∨ date = time.Format_2006_01_02 (time.AddDate r 0 0 (-1)))
         refs.

#[global] Instance inWindow_dec refs date : Decision (inWindow refs date).
Proof. unfold inWindow. apply _. Defined.

(** *** Sample records *)

Definition sampleDate : list ascii := lit "2025-03-01".

Definition powerFor (text : string) (minutes : Z) : DayInfo :=
  mkDayInfo sampleDate {[ groupPower := mkGroupInfo (lit text) minutes ]}.

Definition hourOutage : DayInfo := powerFor "немає з 10:00 до 11:00" 60.
Definition longerOutage : DayInfo := powerFor "немає з 10:00 до 11:30" 90.

(** The title before the date: a first announcement, an update for the
    worse, an update that is not for the worse. *)
Definition titlePrefix (isUpdate more : bool) : list ascii :=
  if negb isUpdate then lit "графік на "
  else if more then lit "upd. 😩 на "
  else lit "upd. 🍾 на ".

(** What a line shows for a group: its text, or the no-data marker. *)
Definition groupText (g : option GroupInfo) : list ascii :=
  match g with
  | Some g => Text g
  | None => lit "н/д"
  end.

Definition newline : list ascii := [ascii_of_nat 10].

(** The two digits of a number below 100. *)
Definition twoDigitsOf (n : Z) : list ascii :=
  [time.digitChar (n / 10); time.digitChar (n mod 10)].

(** A calendar date of the years that print as four digits. *)
Definition validDate (t : time.Time) : Prop :=
  0 <= time.Year t <= 9999 ∧ 1 <= time.Month t <= 12
  ∧ 1 <= time.Day t <= time.daysIn (time.Month t) (time.Year t).

(** The four digits of a number below 10000. *)
Definition fourDigitsOf (y : Z) : list ascii :=
  [ time.digitChar (y / 1000); time.digitChar (y / 100 mod 10);
    time.digitChar (y / 10 mod 10); time.digitChar (y mod 10) ].

(** What extraction yields for one group of a section: nothing when neither
    pattern matches, else the normalized text with its minutes. *)
Definition extractedGroup (section g : list ascii) : option GroupInfo :=
  let txt := extractGroup section g in
  if decide (txt = []) then None
  else Some (mkGroupInfo (normalizeText txt) (outageMinutes (normalizeText txt))).

(** The record that a target date yields, if any. *)
Definition dayRecord (body : list ascii) (d : time.Time) : option DayInfo :=
  let section := extractSection body (time.Format_02_01_2006 d) in
  if decide (section = []) then None
  else
    let groups := parseGroups section in
    if decide (groups = ∅) then None
    else Some (mkDayInfo (time.Format_2006_01_02 d) groups).

(** A page with one section, for 12.12.2025. *)
Definition samplePage : list ascii :=
  lit "<b>Графік погодинних відключень на 12.12.2025</b><p>Група 4.1. Електроенергія є.</p><p>Група 6.1. Електроенергії немає з 08:00 до 11:30.</p>".

(** [m] occurs in [s]. *)
Definition Occurs (m s : list ascii) : Prop :=
  exists before after, s = before ++ m ++ after.

(** [s] and [p] differ at a position that both have. *)
Fixpoint mismatch (s p : list ascii) : bool :=
  match s, p with
  | c :: s', d :: p' => negb (bool_decide (c = d)) || mismatch s' p'
  | _, _ => false
  end.

(** No occurrence of [old] can begin inside [m], whatever follows [m]. *)
Fixpoint clearOf (old m : list ascii) : bool :=
  match m with
  | [] => true
  | _ :: m' => mismatch m old && clearOf old m'
  end.

(** *** The outage pattern, read deterministically

    After [\s+] the pattern goes on with a digit or with a letter, so the
    greedy repetition never has to give a space back, and a match at a given
    position is found by reading forward. *)

Fixpoint skipWhile (p : ascii -> bool) (s : list ascii) : list ascii :=
  match s with
  | c :: s' => if p c then skipWhile p s' else s
  | [] => []
  end.

(** [\s+] *)
Definition spaces1 (s : list ascii) : option (list ascii) :=
  match s with
  | c :: s' => if regexp.space c then Some (skipWhile regexp.space s') else None
  | [] => None
  end.

(** [(\d{2})] *)
Definition digits2 (s : list ascii) : option (list ascii * list ascii) :=
  match s with
  | a :: b :: s' =>
      if regexp.digit a && regexp.digit b then Some ([a; b], s') else None
  | _ => None
  end.

Definition rangeHere (s : list ascii) : option regexp.Caps :=
  s ← time.expect (lit "з") s;
  s ← spaces1 s;
  '(m1, s) ← digits2 s;
  s ← time.expect (lit ":") s;
  '(m2, s) ← digits2 s;
  s ← spaces1 s;
  s ← time.expect (lit "до") s;
  s ← spaces1 s;
  '(m3, s) ← digits2 s;
  s ← time.expect (lit ":") s;
  '(m4, _) ← digits2 s;
  Some [m1; m2; m3; m4].

(** A run of one or more [\s] characters. *)
Definition Spaces (w : list ascii) : Prop :=
  w ≠ [] ∧ Forall (fun c => regexp.space c = true) w.

(** Two decimal digits. *)
Definition TwoDigits (d : list ascii) : Prop :=
  exists a b, d = [a; b] ∧ regexp.digit a = true ∧ regexp.digit b = true.

(** The text [s] begins with a range "з HH:MM до HH:MM" whose four pairs of
    digits are [m1], [m2], [m3], [m4]. *)
Definition RangeAt (s m1 m2 m3 m4 : list ascii) : Prop :=
  exists w1 w2 w3 rest,
    Spaces w1 ∧ Spaces w2 ∧ Spaces w3
    ∧ TwoDigits m1 ∧ TwoDigits m2 ∧ TwoDigits m3 ∧ TwoDigits m4
    ∧ s = lit "з" ++ w1 ++ m1 ++ lit ":" ++ m2 ++ w2 ++ lit "до" ++ w3
            ++ m3 ++ lit ":" ++ m4 ++ rest.

(** No range begins anywhere in [text]. *)
Definition NoRange (text : list ascii) : Prop :=
  forall before s m1 m2 m3 m4,
    text = before ++ s -> ¬ RangeAt s m1 m2 m3 m4.

(** The leftmost range of [text] has the digits [m1], [m2], [m3], [m4]. *)
Definition FirstRange (text m1 m2 m3 m4 : list ascii) : Prop :=
  exists before s,
    text = before ++ s ∧ RangeAt s m1 m2 m3 m4
    ∧ forall b1 b2 n1 n2 n3 n4,
        before = b1 ++ b2 -> b2 ≠ [] -> ¬ RangeAt (b2 ++ s) n1 n2 n3 n4.

(** The number written by two digits, and the minutes of a clock time
    HH:MM since midnight. *)
Definition numberOf (d : list ascii) : Z :=
  match d with
  | [a; b] => time.digitVal a * 10 + time.digitVal b
  | _ => 0
  end.

Definition clockMinutes (hh mm : list ascii) : Z :=
  numberOf hh * 60 + numberOf mm.

(** A time of the 24-hour clock. *)
Definition ValidClock (hh mm : list ascii) : Prop :=
  numberOf hh < 24 ∧ numberOf mm < 60.

(** What does not begin with a character of the class. *)
Definition stopsAt (p : ascii -> bool) (s : list ascii) : Prop :=
  match s with
  | c :: _ => p c = false
  | [] => True
  end.

(** The time that [outageMinutes] takes for a pair of two-digit numbers:
    the clock time on January 1 of year 0, or the zero [Time] when the pair
    is not a time of day. *)
Definition clockTime (hh mm : list ascii) : time.Time :=
  if (numberOf hh <? 24) && (numberOf mm <? 60)
  then time.mkTime 0 1 1 (numberOf hh) (numberOf mm)
  else time.zero.

(** Every string of a state is valid UTF-8. *)
Definition ValidDay (d : DayInfo) : Prop :=
  json.ValidString (Date d) = true
  ∧ map_Forall (fun k g => json.ValidString k = true
                           ∧ json.ValidString (Text g) = true) (Groups d).

Definition ValidState (st : State) : Prop := Forall ValidDay (Days st).

(** The state file of the examples, and a page whose power group has a byte
    that is not UTF-8 in its text. *)
Definition samplePath : list ascii := lit "/var/lib/powerbot/state.json".

Definition brokenPage : list ascii :=
  lit "Графік погодинних відключень на 12.12.2025 Група 6.1. Немає "
    ++ [byte 255] ++ lit ".".

Definition brokenState : State :=
  mkState (parsePage brokenPage [time.mkTime 2025 12 12 0 0]).1.

(** The text of the power group of the first day. *)
Definition firstPowerText (st : State) : list ascii :=
  match Days st with
  | d :: _ => Text (groupOrZero (Groups d !! groupPower))
  | [] => []
  end.

(** The state file with an earlier state in it. *)
Definition sampleFiles : os.Files :=
  {[ samplePath := os.Doc (marshalState (mkState [hourOutage])) ]}.

(** A page whose power group is out over midnight. *)
Definition midnightPage : list ascii :=
  lit "Графік погодинних відключень на 12.12.2025 Група 6.1. Електроенергії немає з 22:00 до 02:00.".

(** A pattern without capturing groups. *)
Fixpoint groupFree (r : regexp.Regexp) : bool :=
  match r with
  | regexp.Cat r1 r2 | regexp.Alt r1 r2 => groupFree r1 && groupFree r2
  | regexp.Group _ => false
  | _ => true
  end.

(** ** The notifier and the run *)

(** The digits of [%02X]. *)
Definition hexDigit (n : nat) : ascii :=
  nth n (lit "0123456789ABCDEF") "0"%char.

(** The bytes that [urlEncode] writes as they are. *)
Definition unreserved (c : ascii) : bool :=
  let n := nat_of_ascii c in
  ((97 <=? n) && (n <=? 122))%nat || ((65 <=? n) && (n <=? 90))%nat
  || ((48 <=? n) && (n <=? 57))%nat
  || bool_decide (c ∈ lit "-_.~*()'").

(** One round of the loop of [urlEncode]: what is written for the byte
    [c]. *)
Definition urlEncodeByte (c : ascii) : list ascii :=
  if unreserved c then [c]
  else if bool_decide (c = " "%char) then ["+"%char]
  else [ "%"%char; hexDigit (nat_of_ascii c / 16);
         hexDigit (nat_of_ascii c mod 16) ].

Fixpoint urlEncode (s : list ascii) : list ascii :=
  match s with
  | [] => []
  | c :: s' => urlEncodeByte c ++ urlEncode s'
  end.

(** The request of [sendTelegram]: the address, the content type and the
    form that it hands to [http.Post]. *)
Record Request : Type := mkRequest {
  URL : list ascii;
  ContentType : list ascii;
  Form : list ascii
}.

#[global] Instance Request_eq_dec : EqDecision Request.
Proof. solve_decision. Defined.

Record Response : Type := mkResponse {
  StatusCode : Z;
  Body : list ascii
}.

Definition telegramRequest (token chatID text : list ascii) : Request :=
  mkRequest
    (lit "https://api.telegram.org/bot" ++ token ++ lit "/sendMessage")
    (lit "application/x-www-form-urlencoded")
    (lit "chat_id=" ++ chatID ++ lit "&text=" ++ urlEncode text
       ++ lit "&parse_mode=Markdown").

(** [sendTelegram] over [post], which stands for [http.Post]: a transport
    error with its message, or a response.  The result is the message of the
    error returned, [None] for nil; of the body of a refused request at most
    1024 bytes are quoted. *)
Definition sendTelegram (post : Request -> list ascii + Response)
    (token chatID text : list ascii) : option (list ascii) :=
  match post (telegramRequest token chatID text) with
  | inl err => Some err
  | inr resp =>
      if bool_decide (StatusCode resp = 200) then None
      else Some (lit "telegram status " ++ time.appendInt (StatusCode resp) 0
                   ++ lit ": " ++ take 1024 (Body resp))
  end.

(** The body of the loop of [main] for one parsed day.  [sent] collects the
    requests of the calls of [postSchedule]; what a call returns is only
    logged, and the lines of the log are not modelled. *)
Definition notify (token chatID : list ascii) (day : DayInfo)
    (isUpdate more : bool) : list Request :=
  if negb (bool_decide (token = [])) && negb (bool_decide (chatID = []))
  then [postSchedule telegramRequest token chatID day isUpdate more]
  else [].

Definition processDay (token chatID : list ascii)
    (acc : State * list Request) (day : DayInfo) : State * list Request :=
  let '(st, sent) := acc in
  match findDay st (Date day) with
  | None =>
      (upsertDay st day, sent ++ notify token chatID day false false)
  | Some prev =>
      let '(changed, more) := compareDay prev day in
      if changed
      then (upsertDay st day, sent ++ notify token chatID day true more)
      else (st, sent)
  end.

Definition processDays (token chatID : list ascii) (st : State)
    (parsed : list DayInfo) : State * list Request :=
  foldl (processDay token chatID) (st, []) parsed.

(** The environment of a run: the values of POWERBOT_STATE, POWERBOT_TOKEN
    and POWERBOT_CHAT_ID, empty when unset. *)
Record Env : Type := mkEnv {
  envState : list ascii;
  envToken : list ascii;
  envChatID : list ascii
}.

Definition defaultState : list ascii := lit "/var/lib/powerbot/state.json".

Definition statePathOf (env : Env) : list ascii :=
  if bool_decide (envState env = []) then defaultState else envState env.

Definition datesToCheck (today : time.Time) : list time.Time :=
  [today; time.AddDate today 0 0 1].

(** What a run computes between the fetch and the save: the state to save
    and the requests sent. *)
Definition runOnce (env : Env) (today : time.Time) (htmlBody : list ascii)
    (fs : os.Files) : State * list Request :=
  let parsed := (parsePage htmlBody (datesToCheck today)).1 in
  let st := (loadState fs (statePathOf env)).1 in
  let '(st, sent) := processDays (envToken env) (envChatID env) st parsed in
  (keepLastTwo st (datesToCheck today), sent).

(** [main], from the day [today] that it computes and from what
    [loadContent] returned: [main env today content fs fs' sent] when the run
    that starts on the files [fs] can end with the files [fs'], having sent
    the requests [sent].  A fetch error ends the run at once; an error of
    [saveState] is only logged. *)
Inductive main (env : Env) (today : time.Time) (fs : os.Files)
  : list ascii + list ascii -> os.Files -> list Request -> Prop :=
| main_fetch_error err : main env today fs (inl err) fs []
| main_saved htmlBody fs' e :
    saveState (statePathOf env) (runOnce env today htmlBody fs).1
      fs fs' (os.Returned e) ->
    main env today fs (inr htmlBody) fs' (runOnce env today htmlBody fs).2.

(** The decoding of a form value, as the receiver of a form does it: [+] is
    a space and [%XX] is the byte with the hexadecimal number XX. *)
Definition hexValue (c : ascii) : option nat :=
  let n := nat_of_ascii c in
  if ((48 <=? n) && (n <=? 57))%nat then Some (n - 48)%nat
  else if ((65 <=? n) && (n <=? 70))%nat then Some (n - 55)%nat
  else if ((97 <=? n) && (n <=? 102))%nat then Some (n - 87)%nat
  else None.

Fixpoint formDecode (s : list ascii) : option (list ascii) :=
  match s with
  | [] => Some []
  | c :: s' =>
      if bool_decide (c = "%"%char) then
        match s' with
        | a :: b :: rest =>
            match hexValue a, hexValue b with
            | Some h, Some l =>
                cons (ascii_of_nat (16 * h + l)) <$> formDecode rest
            | _, _ => None
            end
        | _ => None
        end
      else if bool_decide (c = "+"%char) then cons " "%char <$> formDecode s'
      else cons c <$> formDecode s'
  end.

(** The fields of a form: the pieces between the separators. *)
Fixpoint fieldsOf (sep : ascii) (s : list ascii) : list (list ascii) :=
  match s with
  | [] => [[]]
  | c :: s' =>
      if bool_decide (c = sep) then [] :: fieldsOf sep s'
      else match fieldsOf sep s' with
           | f :: fs => (c :: f) :: fs
           | [] => [[c]]
           end
  end.

(** A tracked group got worse: it contributes to a change and its minutes
    grew, an absent group counting as the zero value. *)
Definition groupWorsened (old cur : DayInfo) (g : list ascii) : Prop :=
  groupDiffers old cur g
  ∧ Minutes (groupOrZero (Groups old !! g))
    < Minutes (groupOrZero (Groups cur !! g)).

(** The state knows the day: it has a record of the day's date, and no
    tracked group of the day differs from that record. *)
Definition Settled (st : State) (day : DayInfo) : Prop :=
  exists prev, findDay st (Date day) = Some prev
    ∧ forall g, g ∈ trackedGroups -> ¬ groupDiffers prev day g.

(** A time as the clock gives it: a calendar date and a time of day. *)
Definition validTime (t : time.Time) : Prop :=
  validDate t ∧ 0 <= time.Hour t < 24 ∧ 0 <= time.Minute t < 60.

(** The number of the day of [t], counted from 1970-01-01. *)
Definition dayNumber (t : time.Time) : Z :=
  time.daysFromCivil (time.Year t) (time.Month t) (time.Day t).

(** What the loop of [main] posts for one day when the state is [st]. *)
Definition announcement (token chatID : list ascii) (st : State)
    (day : DayInfo) : list Request :=
  (processDay token chatID (st, []) day).2.

(** A run of the examples: no POWERBOT_STATE, credentials set, on
    2025-12-12; and the state file as that run on [samplePage] leaves it when
    it starts without one. *)
Definition sampleEnv : Env := mkEnv [] (lit "123:abc") (lit "-1001234567890").

Definition sampleToday : time.Time := time.mkTime 2025 12 12 0 0.

Definition savedFiles : os.Files :=
  {[ statePathOf sampleEnv :=
       os.Doc (marshalState (runOnce sampleEnv sampleToday samplePage ∅).1) ]}.

(** The minutes from the start of January 1 of year 0 to the time that
    [outageMinutes] takes for a pair of two-digit numbers: the minutes of
    the clock time, or, when the pair is not a time of day, the minutes to
    the zero [Time], which is one leap year later. *)
Definition minutesOf (hh mm : list ascii) : Z :=
  if (numberOf hh <? 24) && (numberOf mm <? 60)
  then clockMinutes hh mm else 527040.

(** A state as the state file holds it: every date and every text coerced
    to valid UTF-8. *)
Definition coerceGroupInfo (g : GroupInfo) : GroupInfo :=
  mkGroupInfo (json.toValidUTF8 (Text g)) (Minutes g).

Definition coerceDayInfo (d : DayInfo) : DayInfo :=
  mkDayInfo (json.toValidUTF8 (Date d)) (coerceGroupInfo <$> Groups d).

Definition coerceState (st : State) : State :=
  mkState (coerceDayInfo <$> Days st).

(** The group labels of a state are valid UTF-8. *)
Definition ValidLabels (st : State) : Prop :=
  Forall (fun d => map_Forall (fun k (_ : GroupInfo) =>
                                 json.ValidString k = true) (Groups d))
         (Days st).

(** A date title as [\d{2}\.\d{2}\.\d{4}] has it. *)
Definition DateTitle (t : list ascii) : Prop :=
  exists dd mm y1 y2,
    TwoDigits dd ∧ TwoDigits mm ∧ TwoDigits y1 ∧ TwoDigits y2
    ∧ t = dd ++ lit "." ++ mm ++ lit "." ++ y1 ++ y2.

(** [s] begins with the header of the date title [title], between the tags
    [open] and [close]. *)
Definition HeaderAt (open close title s : list ascii) : Prop :=
  exists w rest,
    Spaces w ∧ s = open ++ header ++ w ++ title ++ close ++ rest.

(** [s] begins with the header of some date. *)
Definition AnyHeaderAt (open close s : list ascii) : Prop :=
  exists title, DateTitle title ∧ HeaderAt open close title s.

(** [content] is the section of [title] in [body]: it follows the first
    header of that title and runs up to the next header of any date, or to
    the end of the page when there is none. *)
Definition SectionOf (open close title body content : list ascii) : Prop :=
  exists pre w tail,
    Spaces w
    ∧ body = pre ++ open ++ header ++ w ++ title ++ close ++ content ++ tail
    ∧ (forall p1 p2, pre = p1 ++ p2 -> p2 ≠ [] ->
         ¬ HeaderAt open close title
             (p2 ++ open ++ header ++ w ++ title ++ close ++ content ++ tail))
    ∧ (forall c1 c2, content = c1 ++ c2 -> c2 ≠ [] ->
         ¬ AnyHeaderAt open close (c2 ++ tail))
    ∧ (tail = [] ∨ AnyHeaderAt open close tail).

(** The header of any date, as the pattern of [extractSection] ends with
    it. *)
Definition nextHeader (open close : list ascii) : regexp.Regexp :=
  regexp.Seq [ regexp.Lit (open ++ header); regexp.Plus regexp.space;
               anyDate; regexp.Lit close ].

(** [sentence] is what follows the label of [group] in [section]: after the
    first occurrence of the label come a text without period, a period,
    white space, and the sentence, which has no period, does not begin with
    white space and is closed by a period. *)
Definition SentenceOf (group section sentence : list ascii) : Prop :=
  exists pre a ws rest,
    section = pre ++ group ++ a ++ lit "." ++ ws ++ sentence ++ lit "." ++ rest
    ∧ (forall p1 p2, pre = p1 ++ p2 -> p2 ≠ [] ->
         strings.HasPrefix
           (p2 ++ group ++ a ++ lit "." ++ ws ++ sentence ++ lit "." ++ rest)
           group = false)
    ∧ Forall (fun c => regexp.notDot c = true) a
    ∧ Forall (fun c => regexp.space c = true) ws
    ∧ Forall (fun c => regexp.notDot c = true) sentence
    ∧ stopsAt regexp.space sentence.

(** A text without period, or such a text closed by one period. *)
Definition ClosedSentence (s : list ascii) : Prop :=
  exists u, ("."%char ∉ u) ∧ (s = u ∨ s = u ++ lit ".").

(** What is recorded for a group whose sentence is [sentence]. *)
Definition recordOf (sentence : list ascii) : GroupInfo :=
  mkGroupInfo (normalizeText (sentence ++ lit "."))
    (outageMinutes (normalizeText (sentence ++ lit "."))).

(** The label [g] begins nowhere in [pre], read with [tail] after it. *)
Fixpoint labelFree (g pre tail : list ascii) : bool :=
  match pre with
  | [] => true
  | _ :: pre' =>
      negb (strings.HasPrefix (pre ++ tail) g) && labelFree g pre' tail
  end.

(** *** The day of a run

    An instant is a number of seconds since 1970-01-01 00:00:00 UTC; a
    location gives the offset from UTC, in seconds, that is in force at an
    instant.  [main] takes [time.Now()] in the location of Kyiv and truncates
    it to 24 hours. *)
Definition Location : Type := Z -> Z.

(** The zero time, January 1 of year 1, 00:00:00 UTC. *)
Definition zeroUnix : Z := -62135596800.

(** [t.In(loc)], as the fields that [Format] and [AddDate] read. *)
Definition In (loc : Location) (unix : Z) : time.Time :=
  let wall := unix + loc unix in
  let '(y, m, d) := time.civilFromDays (wall / 86400) in
  time.mkTime y m d (wall mod 86400 / 3600) (wall mod 3600 / 60).

(** [t.Truncate(d)] rounds the instant down to a multiple of [d] since the
    zero time; it does not look at the location. *)
Definition Truncate (unix d : Z) : Z := unix - (unix - zeroUnix) mod d.

(** [today] of [main], when the clock shows the instant [now]. *)
Definition todayOf (loc : Location) (now : Z) : time.Time :=
  In loc (Truncate now (24 * 3600)).

(** * Properties *)

(** ** Change detection *)

Lemma groupPower_ne_groupWater : groupPower ≠ groupWater.
Proof. discriminate. Qed.

Lemma tracked_cases (g : list ascii) :
  g ∈ trackedGroups -> g = groupPower ∨ g = groupWater.
Proof.
  unfold trackedGroups. intros H.
  apply elem_of_cons in H as [-> | H]; [by left |].
  apply elem_of_cons in H as [-> | H]; [by right |].
  by apply elem_of_nil in H.
Qed.

Lemma is_Some_Some_b {A} (x : A) : bool_decide (is_Some (Some x)) = true.
Proof. apply bool_decide_eq_true_2. eauto. Qed.

Lemma is_Some_None_b {A} : bool_decide (is_Some (@None A)) = false.
Proof. apply bool_decide_eq_false_2. intros [? ?]. discriminate. Qed.

(** One round of the loop: the changed flag is raised exactly when the group
    differs, and the worsened flag exactly when, in addition, the minutes
    grew (an absent group counting as the zero value). *)
Lemma compareGroup_spec old cur acc g :
  compareGroup old cur acc g =
    if decide (groupDiffers old cur g)
    then (true,
          if (Minutes (groupOrZero (Groups old !! g))
              <? Minutes (groupOrZero (Groups cur !! g)))
          then true else acc.2)
    else acc.
Proof.
  unfold compareGroup.
  destruct (decide (groupDiffers old cur g)) as [D|D]; unfold groupDiffers in D;
    destruct (Groups old !! g) as [o|], (Groups cur !! g) as [n|];
    rewrite ?is_Some_Some_b, ?is_Some_None_b; simpl in *;
    try done; try tauto.
  - by rewrite bool_decide_eq_false_2.
  - rewrite bool_decide_eq_true_2; [done |].
    destruct (decide (Text o = Text n)); [done | contradiction].
Qed.

Lemma compareDay_unfold old cur :
  compareDay old cur =
    compareGroup old cur (compareGroup old cur (false, false) groupPower)
      groupWater.
Proof. reflexivity. Qed.

(** C1: [compareDay] marks the day changed if and only if some tracked group
    is present in exactly one of the two records or is present in both with
    differing text.  For a group present in both with differing text, 60
    minutes before and 90 now, the result is (changed, worsened); with 30
    minutes now, and the other group contributing nothing, it is (changed,
    not worsened); with identical text, whatever the minutes, and the other
    group contributing nothing, it is (unchanged, not worsened). *)
Theorem compareDay_changed_iff_group_differs :
  (forall old cur,
      (compareDay old cur).1 = true
      <-> exists g, g ∈ trackedGroups ∧ groupDiffers old cur g)
  ∧ (forall old cur g o n,
        g ∈ trackedGroups ->
        Groups old !! g = Some o -> Groups cur !! g = Some n ->
        Text o ≠ Text n -> Minutes o = 60 -> Minutes n = 90 ->
        compareDay old cur = (true, true))
  ∧ (forall old cur g o n,
        g ∈ trackedGroups ->
        Groups old !! g = Some o -> Groups cur !! g = Some n ->
        Text o ≠ Text n -> Minutes o = 60 -> Minutes n = 30 ->
        (forall g', g' ∈ trackedGroups -> g' ≠ g -> ¬ groupDiffers old cur g') ->
        compareDay old cur = (true, false))
  ∧ (forall old cur g o n,
        g ∈ trackedGroups ->
        Groups old !! g = Some o -> Groups cur !! g = Some n ->
        Text o = Text n ->
        (forall g', g' ∈ trackedGroups -> g' ≠ g -> ¬ groupDiffers old cur g') ->
        compareDay old cur = (false, false)).
Proof.
  assert (Hp : groupPower ∈ trackedGroups) by repeat constructor.
  assert (Hw : groupWater ∈ trackedGroups) by repeat constructor.
  pose proof groupPower_ne_groupWater as Hne.
  split; [| split; [| split]].
  - intros old cur. rewrite compareDay_unfold, !compareGroup_spec. split.
    + destruct (decide (groupDiffers old cur groupWater));
        destruct (decide (groupDiffers old cur groupPower)); simpl; eauto.
      discriminate.
    + intros (g & Hg & Hd).
      destruct (tracked_cases g Hg) as [-> | ->].
      * destruct (decide (groupDiffers old cur groupPower)); [| contradiction].
        by destruct (decide (groupDiffers old cur groupWater)).
      * by destruct (decide (groupDiffers old cur groupWater)); [| contradiction].
  - intros old cur g o n Hg Ho Hn Ht Hmo Hmn.
    assert (Hd : groupDiffers old cur g) by (unfold groupDiffers; by rewrite Ho, Hn).
    assert (Hlt : (Minutes (groupOrZero (Groups old !! g))
                   <? Minutes (groupOrZero (Groups cur !! g))) = true).
    { rewrite Ho, Hn. simpl. apply Z.ltb_lt. lia. }
    rewrite compareDay_unfold, !compareGroup_spec.
    destruct (tracked_cases g Hg) as [-> | ->].
    + destruct (decide (groupDiffers old cur groupPower)); [| contradiction].
      rewrite Hlt. simpl.
      destruct (decide (groupDiffers old cur groupWater)); [| done].
      simpl. by case_match.
    + destruct (decide (groupDiffers old cur groupWater)); [| contradiction].
      by rewrite Hlt.
  - intros old cur g o n Hg Ho Hn Ht Hmo Hmn Hother.
    assert (Hd : groupDiffers old cur g) by (unfold groupDiffers; by rewrite Ho, Hn).
    assert (Hlt : (Minutes (groupOrZero (Groups old !! g))
                   <? Minutes (groupOrZero (Groups cur !! g))) = false).
    { rewrite Ho, Hn. simpl. apply Z.ltb_ge. lia. }
    rewrite compareDay_unfold, !compareGroup_spec.
    destruct (tracked_cases g Hg) as [-> | ->].
    + destruct (decide (groupDiffers old cur groupPower)); [| contradiction].
      rewrite Hlt. simpl.
      destruct (decide (groupDiffers old cur groupWater)) as [D|D]; [| done].
      exfalso. apply (Hother groupWater); auto.
    + destruct (decide (groupDiffers old cur groupWater)); [| contradiction].
      rewrite Hlt.
      destruct (decide (groupDiffers old cur groupPower)) as [D|D]; [| done].
      exfalso. apply (Hother groupPower); auto.
  - intros old cur g o n Hg Ho Hn Ht Hother.
    assert (Hd : ¬ groupDiffers old cur g).
    { unfold groupDiffers. rewrite Ho, Hn. auto. }
    rewrite compareDay_unfold, !compareGroup_spec.
    destruct (tracked_cases g Hg) as [-> | ->].
    + destruct (decide (groupDiffers old cur groupPower)); [contradiction |].
      destruct (decide (groupDiffers old cur groupWater)) as [D|D]; [| done].
      exfalso. apply (Hother groupWater); auto.
    + destruct (decide (groupDiffers old cur groupWater)); [contradiction |].
      destruct (decide (groupDiffers old cur groupPower)) as [D|D]; [| done].
      exfalso. apply (Hother groupPower); auto.
Qed.

Lemma compareDay_changed_witness :
  compareDay hourOutage longerOutage = (true, true).
Proof.
  apply (proj1 (proj2 compareDay_changed_iff_group_differs)
           hourOutage longerOutage groupPower
           (mkGroupInfo (lit "немає з 10:00 до 11:00") 60)
           (mkGroupInfo (lit "немає з 10:00 до 11:30") 90)).
  - repeat constructor.
  - vm_compute. reflexivity.
  - vm_compute. reflexivity.
  - discriminate.
  - reflexivity.
  - reflexivity.
Defined.

(** ** Days of the state *)

Lemma overwriteDay_None days day :
  overwriteDay days day = None <-> Forall (fun d => Date d ≠ Date day) days.
Proof.
  induction days as [|d rest IH]; simpl.
  - split; [constructor | done].
  - destruct (decide (Date d = Date day)) as [E|E].
    + split; [discriminate |]. intros H. by inversion H.
    + destruct (overwriteDay rest day) eqn:Hrest; simpl.
      * split; [discriminate |]. intros H. inversion H; subst.
        apply IH in H3. discriminate.
      * split; [| done]. intros _. constructor; [done | by apply IH].
Qed.

(** The loop overwrites the first day of that date, in place. *)
Lemma overwriteDay_Some days day days' :
  overwriteDay days day = Some days' ->
  exists before d after,
    days = before ++ d :: after ∧ days' = before ++ day :: after
    ∧ Date d = Date day ∧ Forall (fun x => Date x ≠ Date day) before.
Proof.
  revert days'. induction days as [|d rest IH]; simpl; intros days' H.
  - discriminate.
  - destruct (decide (Date d = Date day)) as [E|E].
    + inversion H; subst. exists [], d, rest. repeat split; auto.
    + destruct (overwriteDay rest day) as [r|] eqn:Hrest; simpl in H; [| discriminate].
      inversion H; subst.
      destruct (IH r eq_refl) as (before & x & after & -> & -> & Hx & Hb).
      exists (d :: before), x, after. repeat split; auto.
Qed.

Lemma findDayIn_app_skip before rest date :
  Forall (fun x => Date x ≠ date) before ->
  findDayIn (before ++ rest) date = findDayIn rest date.
Proof.
  induction 1 as [|x before Hx _ IH]; simpl; [done |].
  by destruct (decide (Date x = date)).
Qed.


(** C10: on a state whose days have pairwise-distinct dates, [upsertDay]
    keeps the dates pairwise distinct; it overwrites the day of the same date
    in place, or appends the day when there is none; every day of another
    date stays where it was; and [findDay] on the date of the inserted day
    then returns that day. *)
Theorem upsertDay_keeps_dates_unique (st : State) (day : DayInfo) :
  NoDup (Date <$> Days st) ->
  NoDup (Date <$> Days (upsertDay st day))
  ∧ ((exists before d after,
         Days st = before ++ d :: after ∧ Date d = Date day
         ∧ Days (upsertDay st day) = before ++ day :: after)
     ∨ (Forall (fun d => Date d ≠ Date day) (Days st)
        ∧ Days (upsertDay st day) = Days st ++ [day]))
  ∧ (forall (i : nat) d,
        Days st !! i = Some d -> Date d ≠ Date day ->
        Days (upsertDay st day) !! i = Some d)
  ∧ (forall d, d ∈ Days (upsertDay st day) -> d = day ∨ d ∈ Days st)
  ∧ findDay (upsertDay st day) (Date day) = Some day.
Proof.
  intros Hnd. unfold upsertDay, findDay.
  destruct (overwriteDay (Days st) day) as [days'|] eqn:Hov; simpl.
  - apply overwriteDay_Some in Hov
      as (before & d0 & after & Hst & -> & Hd0 & Hb).
    rewrite Hst in *. repeat split.
    + revert Hnd. rewrite !fmap_app, !fmap_cons. by rewrite Hd0.
    + left. by exists before, d0, after.
    + intros i d Hi Hne.
      destruct (decide (i < length before)%nat) as [Hlt|Hge].
      * rewrite lookup_app_l in Hi |- * by done. done.
      * rewrite lookup_app_r in Hi |- * by lia.
        destruct (i - length before)%nat eqn:Hk; simpl in *; [| done].
        inversion Hi; subst. contradiction.
    + intros d Hd. apply elem_of_app in Hd as [Hd | Hd].
      * right. apply elem_of_app. by left.
      * apply elem_of_cons in Hd as [-> | Hd]; [by left |].
        right. apply elem_of_app. right. by apply elem_of_cons; right.
    + rewrite findDayIn_app_skip by done. simpl.
      by destruct (decide (Date day = Date day)).
  - apply overwriteDay_None in Hov. repeat split.
    + rewrite fmap_app. simpl. apply NoDup_app. repeat split; [done | | ].
      * intros x Hx Hx'. apply list_elem_of_singleton in Hx' as ->.
        apply list_elem_of_fmap in Hx as (d & Hd & Hin).
        rewrite Forall_forall in Hov. by apply (Hov d).
      * apply NoDup_singleton.
    + right. done.
    + intros i d Hi _. by apply lookup_app_l_Some.
    + intros d Hd. apply elem_of_app in Hd as [Hd | Hd]; [by right |].
      apply list_elem_of_singleton in Hd. by left.
    + rewrite findDayIn_app_skip by done. simpl.
      by destruct (decide (Date day = Date day)).
Qed.

Lemma upsertDay_keeps_dates_unique_witness :
  NoDup (Date <$> Days (upsertDay (mkState [hourOutage]) longerOutage)).
Proof.
  apply (upsertDay_keeps_dates_unique (mkState [hourOutage]) longerOutage).
  simpl. apply NoDup_singleton.
Defined.

(** ** Retention *)

(** Marking two keys per element: a key is marked at the end exactly when it
    was marked before or is one of the keys of some element. *)
Lemma mark_fold_lookup {A} (f g : A -> list ascii) (l : list A)
    (m : gmap (list ascii) bool) (key : list ascii) :
  default false
    (foldl (fun (m : gmap (list ascii) bool) (x : A) =>
              <[g x := true]> (<[f x := true]> m)) m l !! key) = true
  <-> default false (m !! key) = true ∨ Exists (fun x => key = f x ∨ key = g x) l.
Proof.
  revert m. induction l as [|x l IH]; intros m; cbn [foldl].
  - rewrite Exists_nil. tauto.
  - rewrite IH, Exists_cons.
    destruct (decide (key = g x)) as [->|Hg].
    + rewrite lookup_insert_eq. simpl. tauto.
    + rewrite lookup_insert_ne by done.
      destruct (decide (key = f x)) as [->|Hf].
      * rewrite lookup_insert_eq. simpl. tauto.
      * rewrite lookup_insert_ne by done. tauto.
Qed.

Lemma cutoffDates_lookup (refs : list time.Time) (date : list ascii) :
  default false (cutoffDates refs !! date) = true <-> inWindow refs date.
Proof.
  unfold cutoffDates, inWindow.
  rewrite (mark_fold_lookup time.Format_2006_01_02
             (fun d => time.Format_2006_01_02 (time.AddDate d 0 0 (-1)))).
  rewrite lookup_empty. cbn [default].
  split; [intros [H|H]; [discriminate | done] | auto].
Qed.

Lemma keep_fold_filter (P : DayInfo -> Prop) `{!forall d, Decision (P d)}
    (keep : DayInfo -> bool) (days kept : list DayInfo) :
  (forall d, keep d = true <-> P d) ->
  foldl (fun kept d => if keep d then kept ++ [d] else kept) kept days
  = kept ++ filter P days.
Proof.
  intros Hkeep. revert kept.
  induction days as [|d days IH]; intros kept; simpl.
  - by rewrite filter_nil, app_nil_r.
  - rewrite IH, filter_cons.
    destruct (keep d) eqn:Hk.
    + rewrite decide_True by (by apply Hkeep). by rewrite <- app_assoc.
    + rewrite decide_False; [done |].
      intros HP. apply Hkeep in HP. congruence.
Qed.

Lemma keepLastTwo_filter st refs :
  Days (keepLastTwo st refs)
  = filter (fun d => inWindow refs (Date d)) (Days st).
Proof.
  unfold keepLastTwo. simpl.
  rewrite (keep_fold_filter (fun d => inWindow refs (Date d))).
  - done.
  - intros d. apply cutoffDates_lookup.
Qed.

Lemma State_eq (a b : State) : Days a = Days b -> a = b.
Proof. destruct a, b. simpl. by intros ->. Qed.

(** One day back, across the end of a month, of February in a leap year and
    of a year. *)
Example AddDate_day_before :
  time.AddDate (time.mkTime 2025 3 1 0 0) 0 0 (-1) = time.mkTime 2025 2 28 0 0
  ∧ time.AddDate (time.mkTime 2024 3 1 0 0) 0 0 (-1) = time.mkTime 2024 2 29 0 0
  ∧ time.AddDate (time.mkTime 2025 1 1 0 0) 0 0 (-1) = time.mkTime 2024 12 31 0 0
  ∧ time.AddDate (time.mkTime 2025 1 10 3 0) 0 0 (-1) = time.mkTime 2025 1 9 3 0.
Proof. repeat split; reflexivity. Qed.

(** The reference dates of the example: 2025-01-10 and 2025-01-11. *)
Lemma inWindow_example date :
  inWindow [time.mkTime 2025 1 10 0 0; time.mkTime 2025 1 11 0 0] date
  <-> date = lit "2025-01-09" ∨ date = lit "2025-01-10"
      ∨ date = lit "2025-01-11".
Proof.
  unfold inWindow. rewrite !Exists_cons, Exists_nil.
  change (time.Format_2006_01_02 (time.mkTime 2025 1 10 0 0))
    with (lit "2025-01-10").
  change (time.Format_2006_01_02 (time.mkTime 2025 1 11 0 0))
    with (lit "2025-01-11").
  replace (time.Format_2006_01_02 (time.AddDate (time.mkTime 2025 1 10 0 0) 0 0 (-1)))
    with (lit "2025-01-09") by (vm_compute; reflexivity).
  replace (time.Format_2006_01_02 (time.AddDate (time.mkTime 2025 1 11 0 0) 0 0 (-1)))
    with (lit "2025-01-10") by (vm_compute; reflexivity).
  tauto.
Qed.

(** C5: [keepLastTwo] keeps, in their order, exactly the days whose date is
    the date of a reference day or of the day before one, and removes all
    others.  With the reference dates 2025-01-10 and 2025-01-11, a day dated
    2025-01-08 is removed and the days dated 2025-01-09, 2025-01-10 and
    2025-01-11 are kept. *)
Theorem keepLastTwo_retains_window :
  (forall st refs,
      Days (keepLastTwo st refs)
      = filter (fun d => inWindow refs (Date d)) (Days st))
  ∧ (forall st refs d,
        d ∈ Days (keepLastTwo st refs)
        <-> d ∈ Days st ∧ inWindow refs (Date d))
  ∧ (forall g8 g9 g10 g11,
        keepLastTwo
          (mkState [ mkDayInfo (lit "2025-01-08") g8;
                     mkDayInfo (lit "2025-01-09") g9;
                     mkDayInfo (lit "2025-01-10") g10;
                     mkDayInfo (lit "2025-01-11") g11 ])
          [time.mkTime 2025 1 10 0 0; time.mkTime 2025 1 11 0 0]
        = mkState [ mkDayInfo (lit "2025-01-09") g9;
                    mkDayInfo (lit "2025-01-10") g10;
                    mkDayInfo (lit "2025-01-11") g11 ]).
Proof.
  split; [| split].
  - apply keepLastTwo_filter.
  - intros st refs d. rewrite keepLastTwo_filter, list_elem_of_filter. tauto.
  - intros g8 g9 g10 g11. apply State_eq.
    rewrite keepLastTwo_filter. cbn [Days].
    rewrite !filter_cons, filter_nil. cbn [Date].
    rewrite decide_False
      by (rewrite inWindow_example; intros [H|[H|H]]; discriminate H).
    rewrite !decide_True by (rewrite inWindow_example; auto).
    done.
Qed.

(** ** Messages *)

(** A check that holds on every number of a range, by running it. *)
Lemma range_check (f : Z -> bool) (lo n : Z) :
  forallb f (seqZ lo n) = true -> forall x, lo <= x < lo + n -> f x = true.
Proof.
  intros H x Hx. rewrite forallb_forall in H. apply H.
  apply list_elem_of_In, elem_of_seqZ. lia.
Qed.

Lemma digit_roundtrip (k : Z) :
  0 <= k <= 9 ->
  time.isDigit (time.digitChar k) = true ∧ time.digitVal (time.digitChar k) = k.
Proof.
  intros Hk.
  assert (k = 0 ∨ k = 1 ∨ k = 2 ∨ k = 3 ∨ k = 4 ∨ k = 5 ∨ k = 6 ∨ k = 7
          ∨ k = 8 ∨ k = 9) as Hcases by lia.
  repeat (destruct Hcases as [-> | Hcases]; [by vm_compute |]).
  subst. by vm_compute.
Qed.

Lemma appendInt_two (n : Z) :
  0 <= n <= 99 -> time.appendInt n 2 = twoDigitsOf n.
Proof.
  intros Hn.
  pose (f := fun n => bool_decide (time.appendInt n 2 = twoDigitsOf n)).
  assert (H : f n = true)
    by (apply (range_check f 0 100); [by vm_compute | lia]).
  unfold f in H. by apply bool_decide_eq_true_1 in H.
Qed.

Ltac divlia := Z.to_euclidean_division_equations; lia.

Lemma appendInt_four (y : Z) :
  0 <= y <= 9999 -> time.appendInt y 4 = fourDigitsOf y.
Proof.
  intros Hy. unfold time.appendInt, fourDigitsOf.
  rewrite Z.abs_eq by lia.
  replace (y <? 0) with false by (symmetry; apply Z.ltb_ge; lia).
  cbn [app].
  destruct (Z.to_nat (Z.log2 y)) as [|[|[|n]]] eqn:Hlog.
  - (* one round *)
    assert (y < 2) by (destruct (decide (y < 2)); [done | pose proof (Z.log2_le_mono 2 y); change (Z.log2 2) with 1 in *; lia]).
    assert (Hc : y = 0 ∨ y = 1) by lia.
    destruct Hc as [-> | ->]; reflexivity.
  - assert (y < 4) by (destruct (decide (y < 4)); [done | pose proof (Z.log2_le_mono 4 y); change (Z.log2 4) with 2 in *; lia]).
    assert (Hc : y = 0 ∨ y = 1 ∨ y = 2 ∨ y = 3) by lia.
    destruct Hc as [-> | [-> | [-> | ->]]]; reflexivity.
  - assert (y < 8) by (destruct (decide (y < 8)); [done | pose proof (Z.log2_le_mono 8 y); change (Z.log2 8) with 3 in *; lia]).
    assert (Hc : y = 0 ∨ y = 1 ∨ y = 2 ∨ y = 3 ∨ y = 4 ∨ y = 5 ∨ y = 6 ∨ y = 7) by lia.
    repeat (destruct Hc as [-> | Hc]; [reflexivity |]). subst; reflexivity.
  - (* at least four rounds of fuel *)
    cbn [time.decimal].
    destruct (y / 10 =? 0) eqn:E1; [apply Z.eqb_eq in E1 | apply Z.eqb_neq in E1].
    { cbn [length replicate Nat.sub app].
      replace (y / 1000) with 0 by divlia. replace (y / 100 mod 10) with 0 by divlia.
      replace (y / 10 mod 10) with 0 by divlia. reflexivity. }
    destruct (y / 10 / 10 =? 0) eqn:E2; [apply Z.eqb_eq in E2 | apply Z.eqb_neq in E2].
    { cbn [length replicate Nat.sub app].
      replace (y / 1000) with 0 by divlia. replace (y / 100 mod 10) with 0 by divlia.
      reflexivity. }
    destruct (y / 10 / 10 / 10 =? 0) eqn:E3; [apply Z.eqb_eq in E3 | apply Z.eqb_neq in E3].
    { cbn [length replicate Nat.sub app].
      replace (y / 1000) with 0 by divlia.
      replace (y / 10 / 10 mod 10) with (y / 100 mod 10) by divlia. reflexivity. }
    replace (y / 10 / 10 / 10 / 10 =? 0) with true by (symmetry; apply Z.eqb_eq; divlia).
    cbn [length replicate Nat.sub app].
    replace (y / 10 / 10 / 10 mod 10) with (y / 1000) by divlia.
    replace (y / 10 / 10 mod 10) with (y / 100 mod 10) by divlia. reflexivity.
Qed.

Lemma getyear_digits (y : Z) (rest : list ascii) :
  0 <= y <= 9999 -> time.getyear (fourDigitsOf y ++ rest) = Some (y, rest).
Proof.
  intros Hy. unfold fourDigitsOf, time.getyear. cbn [app].
  destruct (digit_roundtrip (y / 1000)) as [-> ->]; [divlia |].
  destruct (digit_roundtrip (y / 100 mod 10)) as [-> ->]; [divlia |].
  destruct (digit_roundtrip (y / 10 mod 10)) as [-> ->]; [divlia |].
  destruct (digit_roundtrip (y mod 10)) as [-> ->]; [divlia |].
  cbn [andb]. do 2 f_equal. divlia.
Qed.

Lemma getnum_digits (n : Z) (rest : list ascii) :
  0 <= n <= 99 -> time.getnum (twoDigitsOf n ++ rest) true = Some (n, rest).
Proof.
  intros Hn. unfold twoDigitsOf, time.getnum. cbn [app].
  destruct (digit_roundtrip (n / 10)) as [-> ->]; [divlia |].
  destruct (digit_roundtrip (n mod 10)) as [-> ->]; [divlia |].
  do 2 f_equal. divlia.
Qed.

Lemma HasPrefix_app (p rest : list ascii) : strings.HasPrefix (p ++ rest) p = true.
Proof.
  induction p as [|c p IH]; simpl; [done |].
  by rewrite bool_decide_eq_true_2, IH.
Qed.

Lemma expect_app (p rest : list ascii) : time.expect p (p ++ rest) = Some rest.
Proof.
  unfold time.expect. rewrite HasPrefix_app. by rewrite drop_app_length.
Qed.

Lemma daysIn_le_31 (m y : Z) : time.daysIn m y <= 31.
Proof. unfold time.daysIn. repeat case_match; lia. Qed.

(** Parsing a printed date gives the date back. *)
Lemma Parse_Format_date (t : time.Time) :
  validDate t ->
  time.Parse_2006_01_02 (time.Format_2006_01_02 t)
  = Some (time.mkTime (time.Year t) (time.Month t) (time.Day t) 0 0).
Proof.
  intros (Hy & Hm & Hd).
  pose proof (daysIn_le_31 (time.Month t) (time.Year t)) as H31.
  unfold time.Format_2006_01_02, time.Parse_2006_01_02.
  rewrite appendInt_four, !appendInt_two by lia.
  rewrite getyear_digits by lia. cbn [mbind option_bind].
  rewrite expect_app. cbn [mbind option_bind].
  rewrite getnum_digits by lia. cbn [mbind option_bind].
  rewrite expect_app. cbn [mbind option_bind].
  rewrite <- (app_nil_r (twoDigitsOf (time.Day t))).
  rewrite getnum_digits by lia. cbn [mbind option_bind].
  replace (1 <=? time.Month t) with true by (symmetry; apply Z.leb_le; lia).
  replace (time.Month t <=? 12) with true by (symmetry; apply Z.leb_le; lia).
  replace (1 <=? time.Day t) with true by (symmetry; apply Z.leb_le; lia).
  replace (time.Day t <=? time.daysIn (time.Month t) (time.Year t))
    with true by (symmetry; apply Z.leb_le; lia).
  done.
Qed.

Lemma toDM_Format (t : time.Time) :
  validDate t ->
  toDM (time.Format_2006_01_02 t)
  = twoDigitsOf (time.Day t) ++ lit "." ++ twoDigitsOf (time.Month t).
Proof.
  intros Hv. unfold toDM. rewrite Parse_Format_date by done.
  destruct Hv as (Hy & Hm & Hd).
  pose proof (daysIn_le_31 (time.Month t) (time.Year t)) as H31.
  unfold time.Format_02_01, default, id. cbn [from_option time.Day time.Month].
  by rewrite !appendInt_two by lia.
Qed.

(** C7: the message handed to the notifier is the title line, chosen by the
    classification and ending in the DD.MM of the date of the record, then
    one line for power and one line for water, in this order; a line is the
    label of the group, ": ", and the text of the group, or the no-data
    marker when the record has no such group.  For a date of the years 0 to
    9999, printed as [parsePage] prints it, the DD.MM is the day and the
    month of that date. *)
Theorem postSchedule_message_layout :
  (forall (R : Type) (sendTelegram : list ascii -> list ascii -> list ascii -> R)
          token chatID day isUpdate more,
      postSchedule sendTelegram token chatID day isUpdate more
      = sendTelegram token chatID
          (lit "*" ++ titlePrefix isUpdate more ++ toDM (Date day) ++ lit "*"
             ++ newline
             ++ labelPower ++ lit ": " ++ groupText (Groups day !! groupPower)
             ++ newline
             ++ labelWater ++ lit ": " ++ groupText (Groups day !! groupWater)))
  ∧ (forall t,
        validDate t ->
        toDM (time.Format_2006_01_02 t)
        = twoDigitsOf (time.Day t) ++ lit "." ++ twoDigitsOf (time.Month t)).
Proof.
  split; [| apply toDM_Format].
  intros R sendTelegram token chatID day isUpdate more.
  unfold postSchedule, formatLine, titlePrefix, groupText, newline.
  destruct isUpdate, more, (Groups day !! groupPower), (Groups day !! groupWater);
    cbn [negb app strings.Join]; f_equal;
    rewrite <- ?app_assoc; reflexivity.
Qed.

Lemma postSchedule_message_layout_witness :
  toDM (lit "2025-03-01") = lit "01.03".
Proof.
  apply (proj2 postSchedule_message_layout (time.mkTime 2025 3 1 0 0)).
  unfold validDate. vm_compute. intuition discriminate.
Defined.

(** ** Facts about package [strings] *)

Lemma HasPrefix_true (s p : list ascii) :
  strings.HasPrefix s p = true <-> exists rest, s = p ++ rest.
Proof.
  revert s. induction p as [|c p IH]; intros s; simpl.
  - split; [intros _; by exists s | done].
  - destruct s as [|d s].
    + split; [done | intros [rest H]; discriminate].
    + rewrite andb_true_iff, bool_decide_eq_true, IH. split.
      * intros [-> [rest ->]]. by exists rest.
      * intros [rest [= -> ->]]. eauto.
Qed.

Lemma HasPrefix_drop (s p : list ascii) :
  strings.HasPrefix s p = true -> s = p ++ drop (length p) s.
Proof.
  intros H. apply HasPrefix_true in H as [rest ->].
  by rewrite drop_app_length.
Qed.

Lemma Contains_Occurs (s m : list ascii) :
  strings.Contains s m = true <-> Occurs m s.
Proof.
  unfold Occurs. induction s as [|c s IH]; simpl.
  - rewrite orb_false_r, HasPrefix_true. split.
    + intros [rest H]. by exists [], rest.
    + intros (before & after & H).
      destruct before; [by exists after | discriminate].
  - rewrite orb_true_iff, HasPrefix_true, IH. split.
    + intros [[rest H] | (before & after & ->)].
      * by exists [], rest.
      * by exists (c :: before), after.
    + intros (before & after & H). destruct before as [|x before].
      * left. by exists after.
      * right. injection H as -> ->. by exists before, after.
Qed.

Lemma Occurs_app_l (m w s : list ascii) : Occurs m s -> Occurs m (w ++ s).
Proof.
  intros (before & after & ->). exists (w ++ before), after.
  by rewrite <- app_assoc.
Qed.

Lemma Occurs_cons (m : list ascii) c s : Occurs m s -> Occurs m (c :: s).
Proof. apply (Occurs_app_l m [c]). Qed.

(** Bytes dropped in front of [s], none of them the first byte of [m], leave
    the occurrences of [m] alone. *)
Lemma Occurs_drop_front (c : ascii) (m w s : list ascii) :
  c ∉ w -> Occurs (c :: m) (w ++ s) -> Occurs (c :: m) s.
Proof.
  induction w as [|x w IH]; intros Hc; [done |].
  intros (before & after & H).
  destruct before as [|y before]; simpl in H.
  - injection H as -> _. exfalso. apply Hc. by left.
  - injection H as -> H. apply IH.
    + intros Hin. apply Hc. by right.
    + by exists before, after.
Qed.

Lemma Occurs_reverse (m s : list ascii) :
  Occurs m s -> Occurs (reverse m) (reverse s).
Proof.
  intros (before & after & ->). exists (reverse after), (reverse before).
  by rewrite !reverse_app, <- app_assoc.
Qed.

Lemma leading_Some (table : list (list ascii)) (s : list ascii) (k : nat) :
  strings.leading table s = Some k ->
  exists w, w ∈ table ∧ k = length w ∧ s = w ++ drop k s.
Proof.
  induction table as [|w table IH]; simpl; [done |].
  destruct (strings.HasPrefix s w) eqn:Hp.
  - intros [= <-]. exists w. split; [by left |]. split; [done |].
    by apply HasPrefix_drop.
  - intros H. destruct (IH H) as (w' & Hin & Hk & Hs).
    exists w'. split; [by right | done].
Qed.

Lemma trimLeftN_Occurs (c : ascii) (m : list ascii)
    (table : list (list ascii)) (n : nat) (s : list ascii) :
  Forall (fun w => c ∉ w) table ->
  Occurs (c :: m) s -> Occurs (c :: m) (strings.trimLeftN n table s).
Proof.
  intros Htable. revert s. induction n as [|n IH]; intros s Hs; simpl; [done |].
  destruct (strings.leading table s) as [k|] eqn:Hlead; [| done].
  apply leading_Some in Hlead as (w & Hin & -> & Hw).
  apply IH. rewrite Hw in Hs. apply (Occurs_drop_front c m w); [| done].
  rewrite Forall_forall in Htable. by apply Htable.
Qed.

(** [TrimSpace] leaves alone the occurrences of a text that neither begins
    nor ends with a byte of a space rune. *)
Lemma TrimSpace_Occurs (m s : list ascii) (first last : ascii)
    (middle rmiddle : list ascii) :
  m = first :: middle -> reverse m = last :: rmiddle ->
  Forall (fun w => first ∉ w) strings.spaceRunes ->
  Forall (fun w => last ∉ w) (map reverse strings.spaceRunes) ->
  Occurs m s -> Occurs m (strings.TrimSpace s).
Proof.
  intros Hm Hrev Hfirst Hlast Hs.
  unfold strings.TrimSpace, strings.trimRight, strings.trimLeft.
  rewrite <- (reverse_involutive m). apply Occurs_reverse.
  rewrite Hrev. apply trimLeftN_Occurs; [done |].
  rewrite <- Hrev. apply Occurs_reverse.
  rewrite Hm. apply trimLeftN_Occurs; [done |]. by rewrite <- Hm.
Qed.

Lemma TrimPrefix_Occurs (c : ascii) (m p s : list ascii) :
  c ∉ p -> Occurs (c :: m) s -> Occurs (c :: m) (strings.TrimPrefix s p).
Proof.
  intros Hc Hs. unfold strings.TrimPrefix.
  destruct (strings.HasPrefix s p) eqn:Hp; [| done].
  apply HasPrefix_drop in Hp. rewrite Hp in Hs.
  by apply (Occurs_drop_front c m p).
Qed.

Lemma replaceFrom_skip (k : nat) (old new s : list ascii) :
  strings.replaceFrom k old new s = strings.replaceFrom 0 old new (drop k s).
Proof.
  revert k. induction s as [|c s IH]; intros k.
  - by destruct k.
  - destruct k as [|k]; [done |]. simpl. apply IH.
Qed.

Lemma mismatch_HasPrefix (s p rest : list ascii) :
  mismatch s p = true -> strings.HasPrefix (s ++ rest) p = false.
Proof.
  revert p. induction s as [|c s IH]; intros p; simpl; [done |].
  destruct p as [|d p]; [done |]. simpl.
  destruct (decide (c = d)) as [->|Hne].
  - rewrite !bool_decide_eq_true_2 by done. simpl. apply IH.
  - rewrite !bool_decide_eq_false_2 by done. done.
Qed.

(** Where no occurrence of [old] can begin, the text is copied. *)
Lemma replaceFrom_clear (old new m rest : list ascii) :
  clearOf old m = true ->
  strings.replaceFrom 0 old new (m ++ rest)
  = m ++ strings.replaceFrom 0 old new rest.
Proof.
  induction m as [|c m IH]; [done |].
  cbn [clearOf]. rewrite andb_true_iff. intros [Hmis Hclear].
  change ((c :: m) ++ rest) with (c :: (m ++ rest)).
  cbn [strings.replaceFrom].
  change (c :: (m ++ rest)) with ((c :: m) ++ rest).
  rewrite (mismatch_HasPrefix _ _ _ Hmis).
  by rewrite IH.
Qed.

(** An occurrence of [old] that begins in front of [m] ends in front of it,
    when the first byte of [m] is not in [old]. *)
Lemma prefix_fits (c : ascii) (old before rest : list ascii) :
  c ∉ old ->
  strings.HasPrefix (before ++ c :: rest) old = true ->
  (length old <= length before)%nat.
Proof.
  revert old. induction before as [|x before IH]; intros old Hc Hp.
  - destruct old as [|d old]; [simpl; lia |]. simpl in Hp.
    apply andb_true_iff in Hp as [Hd _]. apply bool_decide_eq_true in Hd.
    subst. exfalso. apply Hc. by left.
  - destruct old as [|d old]; [simpl; lia |]. simpl in Hp.
    apply andb_true_iff in Hp as [_ Hp]. simpl.
    apply IH in Hp; [lia |]. intros Hin. apply Hc. by right.
Qed.

Lemma replaceFrom_Occurs (c : ascii) (m old new : list ascii)
    (before after : list ascii) (k : nat) :
  c ∉ old -> clearOf old (c :: m) = true -> (k <= length before)%nat ->
  Occurs (c :: m) (strings.replaceFrom k old new (before ++ (c :: m) ++ after)).
Proof.
  intros Hc Hclear. revert k.
  induction before as [|x before IH]; intros k Hk.
  - assert (k = 0)%nat as -> by (simpl in Hk; lia).
    cbn [app]. change (c :: m ++ after) with ((c :: m) ++ after).
    rewrite replaceFrom_clear by done. by exists [], (strings.replaceFrom 0 old new after).
  - change ((x :: before) ++ (c :: m) ++ after)
      with (x :: (before ++ (c :: m) ++ after)).
    destruct k as [|k]; cbn [strings.replaceFrom].
    + destruct (strings.HasPrefix _ old) eqn:Hp.
      * apply Occurs_app_l, IH.
        change (x :: before ++ (c :: m) ++ after)
          with ((x :: before) ++ c :: (m ++ after)) in Hp.
        apply prefix_fits in Hp; [simpl in Hp; lia | done].
      * apply Occurs_cons, IH. lia.
    + apply IH. simpl in Hk. lia.
Qed.

Lemma ReplaceAll_Occurs (c : ascii) (m old new s : list ascii) :
  c ∉ old -> clearOf old (c :: m) = true ->
  Occurs (c :: m) s -> Occurs (c :: m) (strings.ReplaceAll s old new).
Proof.
  intros Hc Hclear (before & after & ->).
  apply replaceFrom_Occurs; [done | done | lia].
Qed.

(** ** Normalization of a group that keeps its supply *)

Ltac by_computation := apply (bool_decide_unpack _); vm_compute; exact I.

Lemma powerIsPresent_first :
  powerIsPresent = byte 208 :: tail powerIsPresent.
Proof. reflexivity. Qed.

Lemma normalizeText_marker (s : list ascii) :
  Occurs powerIsPresent s -> normalizeText s = noOutage.
Proof.
  intros Hs. unfold normalizeText.
  assert (Htrim : forall t, Occurs powerIsPresent t ->
                            Occurs powerIsPresent (strings.TrimSpace t)).
  { intros t. apply (TrimSpace_Occurs powerIsPresent t (byte 208) (byte 148)
                       (tail powerIsPresent) (tail (reverse powerIsPresent)));
      [reflexivity | reflexivity | by_computation | by_computation]. }
  apply Htrim in Hs.
  rewrite powerIsPresent_first in Hs.
  apply (TrimPrefix_Occurs _ _ (lit "—")) in Hs; [| by_computation].
  rewrite <- powerIsPresent_first in Hs. apply Htrim in Hs.
  rewrite powerIsPresent_first in Hs.
  apply (ReplaceAll_Occurs _ _ (map byte [194; 160]%nat) (lit " ")) in Hs;
    [| by_computation | reflexivity].
  apply (ReplaceAll_Occurs _ _ (lit "  ") (lit " ")) in Hs;
    [| by_computation | reflexivity].
  rewrite <- powerIsPresent_first in Hs.
  apply Contains_Occurs in Hs. by rewrite Hs.
Qed.

Lemma Occurs_nonempty (m s : list ascii) : m ≠ [] -> Occurs m s -> s ≠ [].
Proof.
  intros Hm (before & after & ->) H.
  apply app_eq_nil in H as [_ H]. apply app_eq_nil in H as [H _]. done.
Qed.

(** C4: a fragment that contains the marker of a group that keeps its supply
    is normalized to the no-outage text, whatever else it contains, and the
    minutes computed from that text are 0; the group is recorded with this
    text and 0 minutes. *)
Theorem normalizeText_power_present :
  (forall fragment : list ascii,
      Occurs powerIsPresent fragment ->
      normalizeText fragment = noOutage
      ∧ outageMinutes (normalizeText fragment) = 0)
  ∧ (forall section g : list ascii,
        Occurs powerIsPresent (extractGroup section g) ->
        extractedGroup section g = Some (mkGroupInfo noOutage 0)).
Proof.
  assert (H0 : outageMinutes noOutage = 0) by reflexivity.
  split.
  - intros fragment Hf. rewrite (normalizeText_marker _ Hf). by split.
  - intros section g Hf. unfold extractedGroup.
    rewrite decide_False by (by apply (Occurs_nonempty powerIsPresent)).
    by rewrite (normalizeText_marker _ Hf), H0.
Qed.

Lemma normalizeText_power_present_witness :
  normalizeText (lit "Електроенергія є.") = noOutage
  ∧ outageMinutes (normalizeText (lit "Електроенергія є.")) = 0.
Proof.
  apply (proj1 normalizeText_power_present).
  by exists [], (lit ".").
Defined.

(** ** Facts about package [regexp] *)

Lemma run_Cat r1 r2 k (s : list ascii) (caps : regexp.Caps) :
  regexp.run (regexp.Cat r1 r2) k s caps
  = regexp.run r1 (regexp.run r2 k) s caps.
Proof. reflexivity. Qed.

Lemma run_Chr (c : ascii) k (s : list ascii) (caps : regexp.Caps) :
  regexp.run (regexp.Chr c) k s caps
  = match time.expect [c] s with
    | Some s' => k s' caps
    | None => None
    end.
Proof.
  unfold time.expect. destruct s as [|x s]; simpl; [done |].
  rewrite andb_true_r. destruct (bool_decide (x = c)); [| done].
  by rewrite drop_0.
Qed.

Lemma run_Lit (p : list ascii) k (s : list ascii) (caps : regexp.Caps) :
  regexp.run (regexp.Lit p) k s caps
  = match time.expect p s with
    | Some s' => k s' caps
    | None => None
    end.
Proof.
  unfold time.expect. revert s. induction p as [|c p IH]; intros s.
  - simpl. by rewrite drop_0.
  - cbn [regexp.Lit]. rewrite run_Cat, run_Chr. unfold time.expect.
    destruct s as [|x s]; [done |]. simpl. rewrite andb_true_r.
    destruct (bool_decide (x = c)); simpl; [| done].
    rewrite drop_0. apply IH.
Qed.

(** When what follows a greedy repetition cannot begin with a character of
    the class, the repetition takes the longest run and nothing else is
    tried. *)
Lemma starGreedy_det (p : ascii -> bool) k (s : list ascii) :
  (forall c s', p c = true -> k (c :: s') = None) ->
  regexp.starGreedy p k s = k (skipWhile p s).
Proof.
  intros Hk. induction s as [|c s IH]; simpl; [done |].
  destruct (p c) eqn:Hp; [| done].
  rewrite IH. destruct (k (skipWhile p s)) eqn:E; [done |].
  by apply Hk.
Qed.

Lemma run_Plus_space k (s : list ascii) (caps : regexp.Caps) :
  (forall c s', regexp.space c = true -> k (c :: s') caps = None) ->
  regexp.run (regexp.Plus regexp.space) k s caps
  = match spaces1 s with
    | Some s' => k s' caps
    | None => None
    end.
Proof.
  intros Hk. unfold regexp.Plus, spaces1. rewrite run_Cat.
  destruct s as [|c s]; [done |]. cbn [regexp.run].
  destruct (regexp.space c); [| done].
  by rewrite (starGreedy_det _ (fun s' => k s' caps)).
Qed.

Lemma run_twoDigits k (s : list ascii) (caps : regexp.Caps) :
  regexp.run twoDigits k s caps
  = match digits2 s with
    | Some (d, s') => k s' (caps ++ [d])
    | None => None
    end.
Proof.
  unfold twoDigits, digits2. cbn [regexp.run].
  destruct s as [|a [|b s]]; [done | by destruct (regexp.digit a) |].
  destruct (regexp.digit a); [| done]. destruct (regexp.digit b); [| done].
  cbn [andb length].
  replace (S (S (length s)) - length s)%nat with 2%nat by lia. done.
Qed.

Lemma space_cases (c : ascii) :
  regexp.space c = true ->
  c = byte 9 ∨ c = byte 10 ∨ c = byte 12 ∨ c = byte 13 ∨ c = byte 32.
Proof.
  unfold regexp.space. intros H. apply bool_decide_eq_true in H.
  cbn [map] in H. rewrite !elem_of_cons in H.
  rewrite elem_of_nil in H. tauto.
Qed.

Lemma space_not_digit (c : ascii) :
  regexp.space c = true -> regexp.digit c = false.
Proof.
  intros H. apply space_cases in H as [-> | [-> | [-> | [-> | ->]]]]; reflexivity.
Qed.

Lemma twoDigits_after_space k (c : ascii) (s : list ascii) (caps : regexp.Caps) :
  regexp.space c = true -> regexp.run twoDigits k (c :: s) caps = None.
Proof.
  intros H. rewrite run_twoDigits. unfold digits2.
  rewrite (space_not_digit c H). by destruct s.
Qed.

Lemma Lit_after_space (x : ascii) (p : list ascii) k (c : ascii)
    (s : list ascii) (caps : regexp.Caps) :
  regexp.space x = false -> regexp.space c = true ->
  regexp.run (regexp.Lit (x :: p)) k (c :: s) caps = None.
Proof.
  intros Hx Hc. rewrite run_Lit. unfold time.expect. simpl.
  rewrite bool_decide_eq_false_2; [done |]. intros ->. congruence.
Qed.

(** The search finds the first position at which the pattern matches. *)
Lemma FindStringSubmatch_Some r (s : list ascii) (m : regexp.Caps) :
  regexp.FindStringSubmatch r s = Some m
  <-> exists before t,
        s = before ++ t ∧ regexp.matchHere r t = Some m
        ∧ forall b1 b2, before = b1 ++ b2 -> b2 ≠ [] ->
                        regexp.matchHere r (b2 ++ t) = None.
Proof.
  induction s as [|c s IH]; cbn [regexp.FindStringSubmatch].
  - destruct (regexp.matchHere r []) eqn:E.
    + split.
      * intros [= <-]. exists [], []. split; [done |]. split; [done |].
        intros b1 b2 Hb Hne. symmetry in Hb. apply app_eq_nil in Hb as [_ ->]. done.
      * intros (before & t & Hs & Ht & _). symmetry in Hs.
        apply app_eq_nil in Hs as [-> ->]. congruence.
    + split; [done |]. intros (before & t & Hs & Ht & _). symmetry in Hs.
      apply app_eq_nil in Hs as [-> ->]. congruence.
  - destruct (regexp.matchHere r (c :: s)) eqn:E.
    + split.
      * intros [= <-]. exists [], (c :: s). split; [done |]. split; [done |].
        intros b1 b2 Hb Hne. symmetry in Hb. apply app_eq_nil in Hb as [_ ->]. done.
      * intros (before & t & Hs & Ht & Hfirst).
        destruct before as [|x before].
        -- simpl in Hs. subst t. congruence.
        -- specialize (Hfirst [] (x :: before) eq_refl).
           rewrite <- Hs in Hfirst. rewrite Hfirst in E; [discriminate | done].
    + rewrite IH. split.
      * intros (before & t & -> & Ht & Hfirst). exists (c :: before), t.
        split; [done |]. split; [done |].
        intros b1 b2 Hb Hne. destruct b1 as [|y b1].
        -- simpl in Hb. subst b2. exact E.
        -- injection Hb as -> ->. by apply (Hfirst b1 b2).
      * intros (before & t & Hs & Ht & Hfirst).
        destruct before as [|x before].
        -- simpl in Hs. subst t. congruence.
        -- injection Hs as -> ->. exists before, t.
           split; [done |]. split; [done |].
           intros b1 b2 -> Hne. by apply (Hfirst (x :: b1) b2).
Qed.

Lemma FindStringSubmatch_None r (s : list ascii) :
  regexp.FindStringSubmatch r s = None
  <-> forall before t, s = before ++ t -> regexp.matchHere r t = None.
Proof.
  induction s as [|c s IH]; cbn [regexp.FindStringSubmatch].
  - destruct (regexp.matchHere r []) eqn:E.
    + split; [done |]. intros H. specialize (H [] [] eq_refl). congruence.
    + split; [| done]. intros _ before t Hs. symmetry in Hs.
      apply app_eq_nil in Hs as [-> ->]. done.
  - destruct (regexp.matchHere r (c :: s)) eqn:E.
    + split; [done |]. intros H. specialize (H [] (c :: s) eq_refl). congruence.
    + rewrite IH. split.
      * intros H before t Hs. destruct before as [|x before].
        -- simpl in Hs. by subst t.
        -- injection Hs as -> ->. by apply (H before).
      * intros H before t ->. by apply (H (c :: before)).
Qed.

(** ** The outage pattern *)

Lemma matchHere_outagePattern (s : list ascii) :
  regexp.matchHere outagePattern s = rangeHere s.
Proof.
  unfold regexp.matchHere, outagePattern, rangeHere. cbn [regexp.Seq].
  rewrite run_Cat, run_Lit.
  destruct (time.expect (lit "з") s) as [s1|]; [| done]. cbn [mbind option_bind].
  rewrite run_Cat, run_Plus_space
    by (intros; rewrite run_Cat; by apply twoDigits_after_space).
  destruct (spaces1 s1) as [s2|]; [| done]. cbn [mbind option_bind].
  rewrite run_Cat, run_twoDigits.
  destruct (digits2 s2) as [[m1 s3]|]; [| done]. cbn [mbind option_bind].
  rewrite run_Cat, run_Chr.
  change [":"%char] with (lit ":").
  destruct (time.expect (lit ":") s3) as [s4|]; [| done]. cbn [mbind option_bind].
  rewrite run_Cat, run_twoDigits.
  destruct (digits2 s4) as [[m2 s5]|]; [| done]. cbn [mbind option_bind].
  rewrite run_Cat, run_Plus_space
    by (intros; rewrite run_Cat; by apply Lit_after_space).
  destruct (spaces1 s5) as [s6|]; [| done]. cbn [mbind option_bind].
  rewrite run_Cat, run_Lit.
  destruct (time.expect (lit "до") s6) as [s7|]; [| done]. cbn [mbind option_bind].
  rewrite run_Cat, run_Plus_space
    by (intros; rewrite run_Cat; by apply twoDigits_after_space).
  destruct (spaces1 s7) as [s8|]; [| done]. cbn [mbind option_bind].
  rewrite run_Cat, run_twoDigits.
  destruct (digits2 s8) as [[m3 s9]|]; [| done]. cbn [mbind option_bind].
  rewrite run_Cat, run_Chr.
  change [":"%char] with (lit ":").
  destruct (time.expect (lit ":") s9) as [s10|]; [| done]. cbn [mbind option_bind].
  rewrite run_twoDigits.
  destruct (digits2 s10) as [[m4 s11]|]; done.
Qed.

Lemma expect_Some (p s s' : list ascii) :
  time.expect p s = Some s' <-> s = p ++ s'.
Proof.
  split.
  - unfold time.expect. destruct (strings.HasPrefix s p) eqn:Hp; [| done].
    intros [= <-]. by apply HasPrefix_drop.
  - intros ->. apply expect_app.
Qed.

Lemma skipWhile_split (p : ascii -> bool) (s : list ascii) :
  exists w, Forall (fun c => p c = true) w ∧ s = w ++ skipWhile p s.
Proof.
  induction s as [|c s (w & Hw & Hs)]; simpl.
  - by exists [].
  - destruct (p c) eqn:Hp.
    + exists (c :: w). split; [by constructor |]. simpl. by f_equal.
    + by exists [].
Qed.

Lemma skipWhile_app (p : ascii -> bool) (w rest : list ascii) :
  Forall (fun c => p c = true) w -> stopsAt p rest ->
  skipWhile p (w ++ rest) = rest.
Proof.
  intros Hw Hrest. induction Hw as [|c w Hc _ IH]; simpl.
  - destruct rest as [|c rest]; [done |]. simpl in *. by rewrite Hrest.
  - by rewrite Hc.
Qed.

Lemma spaces1_Some (s s' : list ascii) :
  spaces1 s = Some s' -> exists w, Spaces w ∧ s = w ++ s'.
Proof.
  unfold spaces1. destruct s as [|c s]; [done |].
  destruct (regexp.space c) eqn:Hc; [| done]. intros [= <-].
  destruct (skipWhile_split regexp.space s) as (w & Hw & Hs).
  exists (c :: w). split.
  - split; [done | by constructor].
  - simpl. by f_equal.
Qed.

Lemma spaces1_app (w rest : list ascii) :
  Spaces w -> stopsAt regexp.space rest -> spaces1 (w ++ rest) = Some rest.
Proof.
  intros [Hne Hw] Hrest. destruct w as [|c w]; [done |].
  inversion Hw as [|? ? Hc Hw']; subst. simpl. rewrite Hc.
  by rewrite skipWhile_app.
Qed.

Lemma digits2_Some (s d s' : list ascii) :
  digits2 s = Some (d, s') <-> TwoDigits d ∧ s = d ++ s'.
Proof.
  unfold digits2, TwoDigits. split.
  - destruct s as [|a [|b s]]; [done | done |].
    destruct (regexp.digit a) eqn:Ha; [| done].
    destruct (regexp.digit b) eqn:Hb; [| done].
    intros [= <- <-]. split; [| done]. by exists a, b.
  - intros [(a & b & -> & Ha & Hb) ->]. simpl. by rewrite Ha, Hb.
Qed.

Lemma digits2_app (d rest : list ascii) :
  TwoDigits d -> digits2 (d ++ rest) = Some (d, rest).
Proof. intros Hd. by apply digits2_Some. Qed.

Lemma digit_not_space (c : ascii) :
  regexp.digit c = true -> regexp.space c = false.
Proof.
  intros H. destruct (regexp.space c) eqn:E; [| done].
  apply space_not_digit in E. congruence.
Qed.

Lemma TwoDigits_stops (d rest : list ascii) :
  TwoDigits d -> stopsAt regexp.space (d ++ rest).
Proof. intros (a & b & -> & Ha & _). simpl. by apply digit_not_space. Qed.

(** Reading forward finds a range at the head of a text exactly when the
    text begins with one. *)
Lemma rangeHere_RangeAt (s m1 m2 m3 m4 : list ascii) :
  rangeHere s = Some [m1; m2; m3; m4] <-> RangeAt s m1 m2 m3 m4.
Proof.
  unfold rangeHere, RangeAt. split.
  - destruct (time.expect (lit "з") s) as [s1|] eqn:E1; [| done].
    cbn [mbind option_bind].
    destruct (spaces1 s1) as [s2|] eqn:E2; [| done]. cbn [mbind option_bind].
    destruct (digits2 s2) as [[d1 s3]|] eqn:E3; [| done]. cbn [mbind option_bind].
    destruct (time.expect (lit ":") s3) as [s4|] eqn:E4; [| done].
    cbn [mbind option_bind].
    destruct (digits2 s4) as [[d2 s5]|] eqn:E5; [| done]. cbn [mbind option_bind].
    destruct (spaces1 s5) as [s6|] eqn:E6; [| done]. cbn [mbind option_bind].
    destruct (time.expect (lit "до") s6) as [s7|] eqn:E7; [| done].
    cbn [mbind option_bind].
    destruct (spaces1 s7) as [s8|] eqn:E8; [| done]. cbn [mbind option_bind].
    destruct (digits2 s8) as [[d3 s9]|] eqn:E9; [| done]. cbn [mbind option_bind].
    destruct (time.expect (lit ":") s9) as [s10|] eqn:E10; [| done].
    cbn [mbind option_bind].
    destruct (digits2 s10) as [[d4 s11]|] eqn:E11; [| done].
    cbn [mbind option_bind].
    intros [= <- <- <- <-].
    apply expect_Some in E1, E4, E7, E10.
    apply spaces1_Some in E2 as (w1 & Hw1 & E2).
    apply spaces1_Some in E6 as (w2 & Hw2 & E6).
    apply spaces1_Some in E8 as (w3 & Hw3 & E8).
    apply digits2_Some in E3 as [Hd1 E3], E5 as [Hd2 E5],
        E9 as [Hd3 E9], E11 as [Hd4 E11].
    exists w1, w2, w3, s11. repeat (split; [done |]).
    subst. by rewrite <- ?app_assoc.
  - intros (w1 & w2 & w3 & rest & Hw1 & Hw2 & Hw3 & Hd1 & Hd2 & Hd3 & Hd4 & ->).
    rewrite expect_app. cbn [mbind option_bind].
    rewrite spaces1_app by (done || by apply TwoDigits_stops).
    cbn [mbind option_bind].
    rewrite digits2_app by done. cbn [mbind option_bind].
    rewrite expect_app. cbn [mbind option_bind].
    rewrite digits2_app by done. cbn [mbind option_bind].
    rewrite spaces1_app by (done || reflexivity). cbn [mbind option_bind].
    rewrite expect_app. cbn [mbind option_bind].
    rewrite spaces1_app by (done || by apply TwoDigits_stops).
    cbn [mbind option_bind].
    rewrite digits2_app by done. cbn [mbind option_bind].
    rewrite expect_app. cbn [mbind option_bind].
    by rewrite digits2_app.
Qed.

Lemma rangeHere_four (s : list ascii) (m : regexp.Caps) :
  rangeHere s = Some m -> exists m1 m2 m3 m4, m = [m1; m2; m3; m4].
Proof.
  unfold rangeHere. intros H.
  repeat (match type of H with
          | context [mbind _ ?x] =>
              destruct x as [[? ?]|] eqn:?; cbn [mbind option_bind] in H;
              [| discriminate]
          | context [mbind _ ?x] =>
              destruct x as [?|] eqn:?; cbn [mbind option_bind] in H;
              [| discriminate]
          end).
  injection H as <-. eauto.
Qed.

Lemma rangeHere_None (s : list ascii) :
  rangeHere s = None <-> forall m1 m2 m3 m4, ¬ RangeAt s m1 m2 m3 m4.
Proof.
  split.
  - intros H m1 m2 m3 m4 HR. apply rangeHere_RangeAt in HR. congruence.
  - intros H. destruct (rangeHere s) as [m|] eqn:E; [| done].
    destruct (rangeHere_four _ _ E) as (m1 & m2 & m3 & m4 & ->).
    apply rangeHere_RangeAt in E. by apply H in E.
Qed.

(** The search of [outageMinutes] finds the leftmost range. *)
Lemma find_FirstRange (text m1 m2 m3 m4 : list ascii) :
  regexp.FindStringSubmatch outagePattern text = Some [m1; m2; m3; m4]
  <-> FirstRange text m1 m2 m3 m4.
Proof.
  rewrite FindStringSubmatch_Some. unfold FirstRange. split.
  - intros (before & t & -> & Ht & Hfirst). exists before, t.
    rewrite matchHere_outagePattern, rangeHere_RangeAt in Ht.
    split; [done |]. split; [done |].
    intros b1 b2 n1 n2 n3 n4 Hb Hne HR.
    specialize (Hfirst b1 b2 Hb Hne).
    rewrite matchHere_outagePattern, rangeHere_None in Hfirst.
    by apply Hfirst in HR.
  - intros (before & t & -> & Ht & Hfirst). exists before, t.
    rewrite matchHere_outagePattern, rangeHere_RangeAt.
    split; [done |]. split; [done |].
    intros b1 b2 Hb Hne. rewrite matchHere_outagePattern, rangeHere_None.
    intros n1 n2 n3 n4. by apply (Hfirst b1 b2).
Qed.

Lemma find_NoRange (text : list ascii) :
  regexp.FindStringSubmatch outagePattern text = None <-> NoRange text.
Proof.
  rewrite FindStringSubmatch_None. unfold NoRange. split.
  - intros H before s m1 m2 m3 m4 Hs HR.
    specialize (H before s Hs).
    rewrite matchHere_outagePattern, rangeHere_None in H. by apply H in HR.
  - intros H before t Hs. rewrite matchHere_outagePattern, rangeHere_None.
    intros m1 m2 m3 m4. by apply (H before).
Qed.

(** A text has no range or a leftmost one. *)
Lemma range_cases (text : list ascii) :
  NoRange text ∨ exists m1 m2 m3 m4, FirstRange text m1 m2 m3 m4.
Proof.
  destruct (regexp.FindStringSubmatch outagePattern text) as [m|] eqn:E.
  - right. pose proof E as E'.
    apply FindStringSubmatch_Some in E' as (before & t & _ & Ht & _).
    rewrite matchHere_outagePattern in Ht.
    destruct (rangeHere_four _ _ Ht) as (m1 & m2 & m3 & m4 & ->).
    exists m1, m2, m3, m4. by apply find_FirstRange.
  - left. by apply find_NoRange.
Qed.

(** ** Minutes of an outage *)

Lemma digit_val_range (c : ascii) :
  regexp.digit c = true -> 0 <= time.digitVal c <= 9.
Proof.
  unfold regexp.digit, time.digitVal. intros H.
  apply andb_true_iff in H as [H1 H2].
  apply Nat.leb_le in H1, H2. lia.
Qed.

Lemma numberOf_range (d : list ascii) : TwoDigits d -> 0 <= numberOf d <= 99.
Proof.
  intros (a & b & -> & Ha & Hb). simpl.
  apply digit_val_range in Ha, Hb. lia.
Qed.

Lemma getnum_two (a b : ascii) (rest : list ascii) (fixed : bool) :
  regexp.digit a = true -> regexp.digit b = true ->
  time.getnum (a :: b :: rest) fixed
  = Some (time.digitVal a * 10 + time.digitVal b, rest).
Proof.
  intros Ha Hb. unfold time.getnum.
  change (time.isDigit a) with (regexp.digit a).
  change (time.isDigit b) with (regexp.digit b).
  by rewrite Ha, Hb.
Qed.

Lemma Parse_15_04_digits (hh mm : list ascii) :
  TwoDigits hh -> TwoDigits mm ->
  default time.zero (time.Parse_15_04 (hh ++ lit ":" ++ mm)) = clockTime hh mm.
Proof.
  intros (a & b & -> & Ha & Hb) (c & d & -> & Hc & Hd).
  unfold time.Parse_15_04, clockTime.
  change ([a; b] ++ lit ":" ++ [c; d]) with (a :: b :: lit ":" ++ [c; d]).
  rewrite getnum_two by done. cbn [mbind option_bind].
  rewrite expect_app. cbn [mbind option_bind].
  rewrite getnum_two by done. cbn [mbind option_bind numberOf].
  by destruct (_ && _).
Qed.

(** [outageMinutes] in terms of the leftmost range. *)
Lemma outageMinutes_FirstRange (text m1 m2 m3 m4 : list ascii) :
  FirstRange text m1 m2 m3 m4 ->
  outageMinutes text
  = time.Minutes (time.Sub (clockTime m3 m4) (clockTime m1 m2)).
Proof.
  intros HF. pose proof HF as (before & s & _ & HR & _).
  destruct HR as (w1 & w2 & w3 & rest & _ & _ & _ & H1 & H2 & H3 & H4 & _).
  apply find_FirstRange in HF. unfold outageMinutes. rewrite HF.
  by rewrite !Parse_15_04_digits.
Qed.

Lemma outageMinutes_NoRange (text : list ascii) :
  NoRange text -> outageMinutes text = 0.
Proof.
  intros H. apply find_NoRange in H. unfold outageMinutes. by rewrite H.
Qed.

(** Two times of the same day differ by less than a day, which a duration
    holds exactly. *)
Lemma Minutes_Sub_same_day (h1 n1 h2 n2 : Z) :
  0 <= h1 < 24 -> 0 <= n1 < 60 -> 0 <= h2 < 24 -> 0 <= n2 < 60 ->
  time.Minutes (time.Sub (time.mkTime 0 1 1 h2 n2) (time.mkTime 0 1 1 h1 n1))
  = (h2 * 60 + n2) - (h1 * 60 + n1).
Proof.
  intros Hh1 Hn1 Hh2 Hn2.
  unfold time.Minutes, time.Sub, time.absMinutes. cbn [time.Year time.Month
    time.Day time.Hour time.Minute].
  set (day := time.daysFromCivil 0 1 1 * 1440).
  replace (day + h2 * 60 + n2 - (day + h1 * 60 + n1))
    with ((h2 * 60 + n2) - (h1 * 60 + n1)) by lia.
  unfold time.minDuration, time.maxDuration, time.Minute_ns.
  change (2 ^ 63) with 9223372036854775808.
  rewrite Z.min_r by lia. rewrite Z.max_r by lia.
  by rewrite Z.quot_mul.
Qed.

Lemma ValidClock_clockTime (hh mm : list ascii) :
  ValidClock hh mm ->
  clockTime hh mm = time.mkTime 0 1 1 (numberOf hh) (numberOf mm).
Proof.
  intros [Hh Hm]. unfold clockTime.
  replace (numberOf hh <? 24) with true by (symmetry; by apply Z.ltb_lt).
  by replace (numberOf mm <? 60) with true by (symmetry; by apply Z.ltb_lt).
Qed.

Lemma outageMinutes_valid (text m1 m2 m3 m4 : list ascii) :
  FirstRange text m1 m2 m3 m4 -> ValidClock m1 m2 -> ValidClock m3 m4 ->
  outageMinutes text = clockMinutes m3 m4 - clockMinutes m1 m2.
Proof.
  intros HF Hstart Hend. rewrite (outageMinutes_FirstRange _ _ _ _ _ HF).
  destruct HF as (before & s & _ & HR & _).
  destruct HR as (w1 & w2 & w3 & rest & _ & _ & _ & H1 & H2 & H3 & H4 & _).
  apply numberOf_range in H1, H2, H3, H4.
  rewrite !ValidClock_clockTime by done.
  destruct Hstart, Hend. unfold clockMinutes.
  apply Minutes_Sub_same_day; lia.
Qed.

(** C2, as the code has it: [outageMinutes] is 0 when no range
    "з HH:MM до HH:MM" occurs in the text, and is the end minus the start of
    the leftmost range, in whole minutes, when both are times of the 24-hour
    clock; a text whose leftmost range is 14:00 to 16:30 yields 150. *)
Theorem outageMinutes_leftmost_range :
  (forall text : list ascii, NoRange text -> outageMinutes text = 0)
  ∧ (forall text m1 m2 m3 m4 : list ascii,
        FirstRange text m1 m2 m3 m4 ->
        ValidClock m1 m2 -> ValidClock m3 m4 ->
        outageMinutes text = clockMinutes m3 m4 - clockMinutes m1 m2)
  ∧ (forall text : list ascii,
        FirstRange text (lit "14") (lit "00") (lit "16") (lit "30") ->
        outageMinutes text = 150).
Proof.
  split; [apply outageMinutes_NoRange |]. split; [apply outageMinutes_valid |].
  intros text HF.
  rewrite (outageMinutes_valid _ _ _ _ _ HF); [reflexivity | | ];
    split; reflexivity.
Qed.

Lemma outageMinutes_leftmost_range_witness :
  outageMinutes (lit "Електроенергії немає з 14:00 до 16:30") = 150.
Proof.
  apply (proj2 (proj2 outageMinutes_leftmost_range)).
  apply find_FirstRange. vm_compute. reflexivity.
Defined.

(** C2, as it is stated, fails: of two ranges in a text only the leftmost
    counts, so a text that contains the range 14:00 to 16:30 after another
    range does not yield 150. *)
Lemma outageMinutes_later_range_ignored :
  ¬ (forall text : list ascii,
        Occurs (lit "з 14:00 до 16:30") text -> outageMinutes text = 150).
Proof.
  intros H.
  specialize (H (lit "немає з 08:00 до 11:30, з 14:00 до 16:30")).
  assert (outageMinutes (lit "немає з 08:00 до 11:30, з 14:00 до 16:30") = 210)
    as E by (vm_compute; reflexivity).
  rewrite E in H. discriminate H.
  by exists (lit "немає з 08:00 до 11:30, "), [].
Qed.

(** C3, as the code has it: the minutes are 0 when the text has no range,
    and are not negative when the leftmost range has a start and an end of
    the 24-hour clock and does not end before it starts; when it ends before
    it starts, the minutes are negative. *)
Theorem outageMinutes_sign :
  (forall text : list ascii, NoRange text -> outageMinutes text = 0)
  ∧ (forall text m1 m2 m3 m4 : list ascii,
        FirstRange text m1 m2 m3 m4 ->
        ValidClock m1 m2 -> ValidClock m3 m4 ->
        clockMinutes m1 m2 <= clockMinutes m3 m4 ->
        0 <= outageMinutes text)
  ∧ (forall text m1 m2 m3 m4 : list ascii,
        FirstRange text m1 m2 m3 m4 ->
        ValidClock m1 m2 -> ValidClock m3 m4 ->
        clockMinutes m3 m4 < clockMinutes m1 m2 ->
        outageMinutes text < 0).
Proof.
  split; [apply outageMinutes_NoRange |]. split.
  - intros text m1 m2 m3 m4 HF H1 H2 Hle.
    rewrite (outageMinutes_valid _ _ _ _ _ HF H1 H2). lia.
  - intros text m1 m2 m3 m4 HF H1 H2 Hlt.
    rewrite (outageMinutes_valid _ _ _ _ _ HF H1 H2). lia.
Qed.

Lemma outageMinutes_sign_witness :
  0 <= outageMinutes (lit "Електроенергії немає з 14:00 до 16:30").
Proof.
  apply (proj1 (proj2 outageMinutes_sign) _
           (lit "14") (lit "00") (lit "16") (lit "30")).
  - apply find_FirstRange. vm_compute. reflexivity.
  - split; reflexivity.
  - split; reflexivity.
  - vm_compute. discriminate.
Defined.

(** C3, as it is stated, fails: a range that ends before it starts, as one
    that runs over midnight does, is recorded with negative minutes. *)
Lemma outageMinutes_negative_over_midnight :
  (exists rec x,
      rec ∈ (parsePage midnightPage [time.mkTime 2025 12 12 0 0]).1
      ∧ Groups rec !! groupPower = Some x
      ∧ Text x = lit "Електроенергії немає з 22:00 до 02:00"
      ∧ Minutes x = -1200)
  ∧ ¬ (forall fragment : list ascii,
          0 <= outageMinutes (normalizeText fragment)).
Proof.
  split.
  - eexists _, _. split; [| split; [| split]].
    + vm_compute. apply list_elem_of_here.
    + vm_compute. reflexivity.
    + reflexivity.
    + reflexivity.
  - intros H.
    specialize (H (lit "Електроенергії немає з 22:00 до 02:00.")).
    assert (E : outageMinutes
                  (normalizeText (lit "Електроенергії немає з 22:00 до 02:00."))
                = -1200) by (vm_compute; reflexivity).
    rewrite E in H. lia.
Qed.

(** ** A matched group is never empty *)

Lemma starGreedy_consumes (p : ascii -> bool) k (s : list ascii)
    (m : regexp.Caps) :
  regexp.starGreedy p k s = Some m ->
  exists w s', s = w ++ s' ∧ k s' = Some m.
Proof.
  revert m. induction s as [|c s IH]; intros m; simpl.
  - intros H. by exists [], [].
  - destruct (p c); [| intros H; by exists [], (c :: s)].
    destruct (regexp.starGreedy p k s) as [m'|] eqn:E.
    + intros [= <-]. destruct (IH m' eq_refl) as (w & s' & -> & Hk).
      by exists (c :: w), s'.
    + intros H. by exists [], (c :: s).
Qed.

Lemma starLazy_consumes (p : ascii -> bool) k (s : list ascii)
    (m : regexp.Caps) :
  regexp.starLazy p k s = Some m ->
  exists w s', s = w ++ s' ∧ k s' = Some m.
Proof.
  revert m. induction s as [|c s IH]; intros m; simpl.
  - destruct (k []) eqn:E; [| done]. intros [= <-]. by exists [], [].
  - destruct (k (c :: s)) eqn:E.
    + intros [= <-]. by exists [], (c :: s).
    + destruct (p c); [| done]. intros H.
      destruct (IH m H) as (w & s' & -> & Hk). by exists (c :: w), s'.
Qed.

(** A pattern without groups consumes a prefix of the text and goes on with
    the same captures. *)
Lemma run_consumes r :
  groupFree r = true ->
  forall k (s : list ascii) (caps m : regexp.Caps),
    regexp.run r k s caps = Some m ->
    exists w s', s = w ++ s' ∧ k s' caps = Some m.
Proof.
  induction r as [|p|r1 IH1 r2 IH2|r1 IH1 r2 IH2|p|p|r IH|];
    intros Hfree k s caps m; cbn [regexp.run].
  - intros H. by exists [], s.
  - destruct s as [|c s]; [done |]. destruct (p c); [| done].
    intros H. by exists [c], s.
  - cbn [groupFree] in Hfree. apply andb_true_iff in Hfree as [H1 H2].
    intros H. destruct (IH1 H1 _ _ _ _ H) as (w1 & s1 & -> & Hk1).
    destruct (IH2 H2 _ _ _ _ Hk1) as (w2 & s2 & -> & Hk2).
    exists (w1 ++ w2), s2. by rewrite <- app_assoc.
  - cbn [groupFree] in Hfree. apply andb_true_iff in Hfree as [H1 H2].
    destruct (regexp.run r1 k s caps) as [m'|] eqn:E.
    + intros [= <-]. by apply (IH1 H1 _ _ _ _ E).
    + intros H. by apply (IH2 H2 _ _ _ _ H).
  - intros H. by apply starGreedy_consumes in H.
  - intros H. by apply starLazy_consumes in H.
  - done.
  - destruct s; [| done]. intros H. by exists [], [].
Qed.

Lemma groupFree_Lit (p : list ascii) : groupFree (regexp.Lit p) = true.
Proof. by induction p. Qed.

(** A group that ends with a literal period captures a text that ends with a
    period. *)
Lemma capture_ends_with_dot r (s : list ascii) (caps m : regexp.Caps) :
  groupFree r = true ->
  regexp.run (regexp.Group (regexp.Cat r (regexp.Chr ".")))
    (fun _ caps => Some caps) s caps = Some m ->
  exists w, m = caps ++ [w ++ lit "."].
Proof.
  intros Hfree. cbn [regexp.run]. intros H.
  apply (run_consumes r Hfree) in H as (w & s1 & -> & H).
  destruct s1 as [|c s1]; [done |]. cbn [regexp.run regexp.Chr] in H.
  destruct (bool_decide (c = "."%char)) eqn:Hc; [| done].
  apply bool_decide_eq_true in Hc as ->. injection H as <-.
  exists w. do 2 f_equal.
  replace (length (w ++ "."%char :: s1) - length s1)%nat
    with (length (w ++ lit "."))%nat
    by (rewrite !length_app; simpl; lia).
  change (w ++ "."%char :: s1) with (w ++ lit "." ++ s1).
  rewrite app_assoc. by rewrite take_app_length.
Qed.

Lemma TrimSpace_dot_nonempty (w : list ascii) :
  strings.TrimSpace (w ++ lit ".") ≠ [].
Proof.
  apply (Occurs_nonempty (lit ".")); [done |].
  apply (TrimSpace_Occurs (lit ".") _ "."%char "."%char [] []);
    [reflexivity | reflexivity | by_computation | by_computation |].
  by exists w, [].
Qed.

Lemma groupPattern_capture (g s : list ascii) (m : regexp.Caps) :
  regexp.matchHere (groupPattern g) s = Some m -> exists w, m = [w ++ lit "."].
Proof.
  unfold regexp.matchHere, groupPattern. cbn [regexp.Seq].
  rewrite run_Cat. intros H.
  apply run_consumes in H as (w1 & s1 & _ & H); [| apply groupFree_Lit].
  rewrite run_Cat in H.
  apply run_consumes in H as (w2 & s2 & _ & H); [| done].
  rewrite run_Cat in H.
  apply run_consumes in H as (w3 & s3 & _ & H); [| done].
  rewrite run_Cat in H.
  apply run_consumes in H as (w4 & s4 & _ & H); [| done].
  by apply capture_ends_with_dot in H.
Qed.

Lemma groupPattern2_capture (g s : list ascii) (m : regexp.Caps) :
  regexp.matchHere (groupPattern2 g) s = Some m -> exists w, m = [w ++ lit "."].
Proof.
  unfold regexp.matchHere, groupPattern2. cbn [regexp.Seq].
  rewrite run_Cat. intros H.
  apply run_consumes in H as (w1 & s1 & _ & H); [| apply groupFree_Lit].
  rewrite run_Cat in H.
  apply run_consumes in H as (w2 & s2 & _ & H); [| done].
  rewrite run_Cat in H.
  apply run_consumes in H as (w3 & s3 & _ & H); [| done].
  rewrite run_Cat in H.
  apply run_consumes in H as (w4 & s4 & _ & H); [| done].
  by apply capture_ends_with_dot in H.
Qed.

Lemma find_matchHere r (s : list ascii) (m : regexp.Caps) :
  regexp.FindStringSubmatch r s = Some m ->
  exists t, regexp.matchHere r t = Some m.
Proof.
  intros H. apply FindStringSubmatch_Some in H as (_ & t & _ & H & _). eauto.
Qed.

(** A group is extracted as the empty text exactly when neither of its
    patterns matches. *)
Lemma extractGroup_nil_iff (section g : list ascii) :
  extractGroup section g = []
  <-> regexp.FindStringSubmatch (groupPattern g) section = None
      ∧ regexp.FindStringSubmatch (groupPattern2 g) section = None.
Proof.
  unfold extractGroup. split.
  - destruct (regexp.FindStringSubmatch (groupPattern g) section)
      as [m|] eqn:E1.
    { destruct (find_matchHere _ _ _ E1) as (t & Ht).
      apply groupPattern_capture in Ht as (w & ->). cbn [submatch1].
      intros H. by apply TrimSpace_dot_nonempty in H. }
    destruct (regexp.FindStringSubmatch (groupPattern2 g) section)
      as [m|] eqn:E2; [| done].
    destruct (find_matchHere _ _ _ E2) as (t & Ht).
    apply groupPattern2_capture in Ht as (w & ->). cbn [submatch1].
    intros H. by apply TrimSpace_dot_nonempty in H.
  - by intros [-> ->].
Qed.

(** ** Extraction: the loops of [parsePage] *)

Lemma parseGroup_lookup (section : list ascii) (groups : gmap (list ascii) GroupInfo)
    (g g' : list ascii) :
  parseGroup section groups g !! g'
  = if decide (g = g')
    then match extractedGroup section g with
         | Some x => Some x
         | None => groups !! g'
         end
    else groups !! g'.
Proof.
  unfold parseGroup, extractedGroup.
  destruct (decide (extractGroup section g = [])) as [E|E].
  - rewrite bool_decide_eq_true_2 by done. by destruct (decide (g = g')).
  - rewrite bool_decide_eq_false_2 by done.
    destruct (decide (g = g')) as [->|Hne].
    + by rewrite lookup_insert_eq.
    + by rewrite lookup_insert_ne.
Qed.

(** The group map of a section holds exactly the tracked groups that were
    extracted. *)
Lemma parseGroups_lookup (section g : list ascii) :
  parseGroups section !! g
  = if decide (g ∈ trackedGroups) then extractedGroup section g else None.
Proof.
  unfold parseGroups. unfold trackedGroups at 1. cbn [foldl].
  rewrite !parseGroup_lookup, lookup_empty.
  pose proof groupPower_ne_groupWater as Hne.
  destruct (decide (g ∈ trackedGroups)) as [Ht|Ht].
  - apply tracked_cases in Ht as [-> | ->].
    + destruct (decide (groupWater = groupPower)) as [E|_]; [by symmetry in E |].
      destruct (decide (groupPower = groupPower)); [| done].
      by destruct (extractedGroup section groupPower).
    + destruct (decide (groupWater = groupWater)); [| done].
      destruct (decide (groupPower = groupWater)); [done |].
      by destruct (extractedGroup section groupWater).
  - destruct (decide (groupWater = g)) as [<-|_];
      [exfalso; apply Ht; repeat constructor |].
    destruct (decide (groupPower = g)) as [<-|_];
      [exfalso; apply Ht; repeat constructor | done].
Qed.

Lemma parseGroups_nonempty (section : list ascii) :
  parseGroups section ≠ ∅
  <-> exists g, g ∈ trackedGroups ∧ extractGroup section g ≠ [].
Proof.
  split.
  - intros Hne. apply map_choose in Hne as (g & x & Hg).
    rewrite parseGroups_lookup in Hg.
    destruct (decide (g ∈ trackedGroups)) as [Ht|]; [| discriminate].
    exists g. split; [done |]. unfold extractedGroup in Hg.
    by destruct (decide (extractGroup section g = [])).
  - intros (g & Ht & Hg) Hempty.
    assert (parseGroups section !! g = None) as Hl by (by rewrite Hempty, lookup_empty).
    rewrite parseGroups_lookup, decide_True in Hl by done.
    unfold extractedGroup in Hl.
    by destruct (decide (extractGroup section g = [])).
Qed.

Lemma size_pos_nonempty (groups : gmap (list ascii) GroupInfo) :
  (0 < size groups)%nat <-> groups ≠ ∅.
Proof.
  rewrite <- map_size_non_empty_iff. lia.
Qed.

(** One round of the outer loop appends the record of the date, if any. *)
Lemma parseDate_dayRecord (body : list ascii) (out : list DayInfo)
    (d : time.Time) :
  parseDate body out d = out ++ option_list (dayRecord body d).
Proof.
  unfold parseDate, dayRecord.
  destruct (decide (extractSection body (time.Format_02_01_2006 d) = [])) as [E|E].
  - rewrite bool_decide_eq_true_2 by done. simpl. by rewrite app_nil_r.
  - rewrite bool_decide_eq_false_2 by done.
    destruct (decide (parseGroups (extractSection body (time.Format_02_01_2006 d)) = ∅))
      as [G|G].
    + rewrite bool_decide_eq_false_2 by (rewrite size_pos_nonempty; tauto).
      simpl. by rewrite app_nil_r.
    + by rewrite bool_decide_eq_true_2 by (by rewrite size_pos_nonempty).
Qed.

Lemma parseDates_fold (body : list ascii) (dates : list time.Time)
    (out : list DayInfo) :
  foldl (parseDate body) out dates = out ++ omap (dayRecord body) dates.
Proof.
  revert out. induction dates as [|d dates IH]; intros out; cbn [foldl omap].
  - by rewrite app_nil_r.
  - rewrite IH, parseDate_dayRecord, <- app_assoc. f_equal. unfold omap, list_omap.
    by destruct (dayRecord body d).
Qed.

Lemma extractGroup_nil (g : list ascii) : g ∈ trackedGroups -> extractGroup [] g = [].
Proof. intros H. apply tracked_cases in H as [-> | ->]; reflexivity. Qed.

(** The sample page has a section for 12.12.2025 only: water is present,
    power is out for three hours and a half. *)
Example parsePage_samplePage :
  parsePage samplePage [time.mkTime 2025 12 12 0 0; time.mkTime 2025 12 13 0 0]
  = ([ mkDayInfo (lit "2025-12-12")
         (<[groupWater := mkGroupInfo noOutage 0]>
            {[ groupPower :=
                 mkGroupInfo (lit "Електроенергії немає з 08:00 до 11:30") 210 ]}) ],
     None).
Proof. vm_compute. reflexivity. Qed.

(** C6: [parsePage] never returns an error.  Its result lists, in the order
    of the target dates, the record of every date that has one: a date whose
    section is absent (neither section pattern matches) has none; a group
    whose two patterns do not match is extracted as the empty text and is
    left out of the group map, which holds exactly the tracked groups that
    were extracted; and a date has a record if and only if at least one
    tracked group was extracted from its section. *)
Theorem parsePage_not_found_is_no_error :
  (forall (body : list ascii) (dates : list time.Time),
      (parsePage body dates).2 = None
      ∧ (parsePage body dates).1 = omap (dayRecord body) dates)
  ∧ (forall (body : list ascii) (d : time.Time),
        extractSection body (time.Format_02_01_2006 d) = [] ->
        dayRecord body d = None)
  ∧ (forall (body : list ascii) (d : time.Time) (rec : DayInfo) (g : list ascii),
        dayRecord body d = Some rec ->
        Date rec = time.Format_2006_01_02 d
        ∧ Groups rec !! g
          = if decide (g ∈ trackedGroups)
            then extractedGroup
                   (extractSection body (time.Format_02_01_2006 d)) g
            else None)
  ∧ (forall (body dateTitle : list ascii),
        regexp.FindStringSubmatch
          (sectionPattern (lit "<b>") (lit "</b>") dateTitle) body = None ->
        regexp.FindStringSubmatch (sectionPattern [] [] dateTitle) body = None ->
        extractSection body dateTitle = [])
  ∧ (forall (section g : list ascii),
        extractGroup section g = []
        <-> regexp.FindStringSubmatch (groupPattern g) section = None
            ∧ regexp.FindStringSubmatch (groupPattern2 g) section = None)
  ∧ (forall (section g : list ascii),
        extractGroup section g = [] ->
        extractedGroup section g = None ∧ parseGroups section !! g = None)
  ∧ (forall (body : list ascii) (d : time.Time),
        is_Some (dayRecord body d)
        <-> exists g, g ∈ trackedGroups
                      ∧ extractGroup
                          (extractSection body (time.Format_02_01_2006 d)) g ≠ []).
Proof.
  split; [| split; [| split; [| split; [| split; [| split]]]]].
  - intros body dates. split; [done |].
    unfold parsePage. cbn [fst]. by rewrite parseDates_fold.
  - intros body d E. unfold dayRecord. by rewrite decide_True.
  - intros body d rec g. unfold dayRecord.
    destruct (decide (extractSection body _ = [])); [discriminate |].
    destruct (decide (parseGroups _ = ∅)); [discriminate |].
    intros [= <-]. cbn [Date Groups]. split; [done |].
    apply parseGroups_lookup.
  - intros body dateTitle E1 E2. unfold extractSection. by rewrite E1, E2.
  - apply extractGroup_nil_iff.
  - intros section g E.
    assert (extractedGroup section g = None) as Hnone
      by (unfold extractedGroup; by rewrite decide_True).
    split; [done |]. rewrite parseGroups_lookup, Hnone. by case_decide.
  - intros body d. unfold dayRecord.
    destruct (decide (extractSection body (time.Format_02_01_2006 d) = [])) as [E|E].
    + split; [intros [? ?]; discriminate |].
      intros (g & Ht & Hg). rewrite E in Hg. by rewrite extractGroup_nil in Hg.
    + rewrite <- parseGroups_nonempty.
      destruct (decide (parseGroups _ = ∅)) as [G|G].
      * split; [intros [? ?]; discriminate | done].
      * split; [done | eauto].
Qed.

Lemma parsePage_not_found_witness :
  dayRecord samplePage (time.mkTime 2025 12 13 0 0) = None.
Proof.
  apply (proj1 (proj2 parsePage_not_found_is_no_error)).
  vm_compute. reflexivity.
Defined.

(** ** The state store *)

Lemma tmp_ne_path (path : list ascii) : path ++ lit ".tmp" ≠ path.
Proof.
  intros H. apply (f_equal length) in H. rewrite length_app in H.
  simpl in H. lia.
Qed.

Lemma slash_in_tmp (path : list ascii) :
  "/"%char ∈ path ++ lit ".tmp" <-> "/"%char ∈ path.
Proof.
  rewrite elem_of_app. split; [| by left].
  intros [H | H]; [done |]. exfalso.
  cbn in H. rewrite !elem_of_cons, elem_of_nil in H.
  destruct H as [H | [H | [H | [H | H]]]]; done.
Qed.

(** The temporary file is in the directory of the state file. *)
Lemma dirPart_tmp (path : list ascii) :
  filepath.dirPart (path ++ lit ".tmp") = filepath.dirPart path.
Proof.
  induction path as [|c path IH].
  - reflexivity.
  - change ((c :: path) ++ lit ".tmp") with (c :: (path ++ lit ".tmp")).
    cbn [filepath.dirPart].
    change (c :: (path ++ lit ".tmp")) with ((c :: path) ++ lit ".tmp").
    destruct (decide ("/"%char ∈ c :: path)) as [Hin | Hout].
    + rewrite !bool_decide_eq_true_2; [by rewrite IH | done | by apply slash_in_tmp].
    + rewrite !bool_decide_eq_false_2; [done | done | by rewrite slash_in_tmp].
Qed.

Lemma loadState_same (fs fs' : os.Files) (path : list ascii) :
  fs' !! path = fs !! path -> loadState fs' path = loadState fs path.
Proof. unfold loadState, os.ReadFile. by intros ->. Qed.

(** However [saveState] ends, the state file is the one that was there
    before or the complete new one. *)
Lemma saveState_outcomes (path : list ascii) (st : State)
    (fs fs' : os.Files) (o : os.Outcome) :
  saveState path st fs fs' o ->
  match o with
  | os.Returned None => fs' !! path = Some (os.Doc (marshalState st))
  | os.Returned (Some _) => fs' !! path = fs !! path
  | os.Crashed =>
      fs' !! path = fs !! path
      ∨ (fs' !! path = Some (os.Doc (marshalState st))
         ∧ fs' !! (path ++ lit ".tmp") = None)
  end.
Proof.
  pose proof (tmp_ne_path path) as Hne.
  unfold saveState, saveCalls. intros H.
  inversion H as [ | ? ? ? ? ? ? Hc1 H1 | ? ? ? ? ? Hc1 | ? ? ? ? Hc1 ];
    subst; clear H.
  2: { by inversion Hc1; subst. }
  2: { inversion Hc1; subst. by left. }
  inversion Hc1; subst; clear Hc1.
  inversion H1 as [ | ? ? ? ? ? ? Hc2 H2 | ? ? ? ? ? Hc2 | ? ? ? ? Hc2 ];
    subst; clear H1.
  2: { inversion Hc2; subst; [done | by rewrite lookup_insert_ne]. }
  2: { left. inversion Hc2; subst; [done | | ]; by rewrite lookup_insert_ne. }
  inversion Hc2; subst; clear Hc2.
  inversion H2 as [ | ? ? ? ? ? ? Hc3 H3 | ? ? ? ? ? Hc3 | ? ? ? ? Hc3 ];
    subst; clear H2.
  - inversion Hc3 as [ | | | | | ? ? ? c Hc | ]; subst; clear Hc3.
    rewrite lookup_insert_eq in Hc. injection Hc as <-.
    inversion H3; subst. by rewrite lookup_insert_eq.
  - inversion Hc3; subst. by rewrite lookup_insert_ne.
  - inversion Hc3 as [ | | | | ? ? ? | ? ? ? c Hc ]; subst; clear Hc3.
    + left. by rewrite lookup_insert_ne.
    + right. rewrite lookup_insert_eq in Hc. injection Hc as <-.
      rewrite lookup_insert_eq. split; [done |].
      rewrite lookup_insert_ne by done. by rewrite lookup_delete_eq.
Qed.

(** C9: [saveState] writes the new state to a temporary file in the
    directory of the state file and then renames it over the state file.
    When it returns without error the state file holds the new state.  When
    it returns an error, or is stopped at any point, the state file is either
    untouched, and then the next load reads what it would have read before,
    or it is the complete new state, the rename having happened; it is never
    a torn file. *)
Theorem saveState_atomic_replace (path : list ascii) (st : State)
    (fs fs' : os.Files) (o : os.Outcome) :
  saveState path st fs fs' o ->
  saveCalls path st
  = [ os.MkdirAll (filepath.dirPart path);
      os.WriteFile (path ++ lit ".tmp") (marshalState st);
      os.Rename (path ++ lit ".tmp") path ]
  ∧ filepath.dirPart (path ++ lit ".tmp") = filepath.dirPart path
  ∧ (o = os.Returned None ->
     fs' !! path = Some (os.Doc (marshalState st)))
  ∧ (o ≠ os.Returned None ->
     (fs' !! path = fs !! path ∧ loadState fs' path = loadState fs path)
     ∨ (o = os.Crashed ∧ fs' !! path = Some (os.Doc (marshalState st))
        ∧ fs' !! (path ++ lit ".tmp") = None))
  ∧ (fs' !! path ≠ Some os.Torn ∨ fs !! path = Some os.Torn).
Proof.
  intros H. apply saveState_outcomes in H.
  split; [done |]. split; [apply dirPart_tmp |].
  destruct o as [[e|]|].
  - split; [done |]. split.
    + intros _. left. split; [done | by apply loadState_same].
    + destruct (fs !! path) as [[v|]|] eqn:E; rewrite H; auto.
  - split; [done |]. split; [done |]. left. by rewrite H.
  - split; [done |]. split.
    + intros _. destruct H as [H | [H Htmp]].
      * left. split; [done | by apply loadState_same].
      * right. done.
    + destruct H as [H | [H _]]; rewrite H; [| by left].
      destruct (fs !! path) as [[v|]|]; auto.
Qed.

Lemma saveState_atomic_replace_witness :
  filepath.dirPart (samplePath ++ lit ".tmp") = filepath.dirPart samplePath.
Proof.
  apply (saveState_atomic_replace samplePath (mkState [longerOutage])
           sampleFiles (<[samplePath ++ lit ".tmp" := os.Torn]> sampleFiles)
           os.Crashed).
  unfold saveState, saveCalls.
  eapply os.runs_next; [apply os.mkdir_ok |].
  apply os.runs_crash. apply os.write_cut_torn.
Defined.

(** ** The round trip through the state file *)

Lemma coerceFrom_valid (k : nat) (s : list ascii) :
  json.validFrom k s = true -> json.coerceFrom k s = s.
Proof.
  revert k. induction s as [|c s IH]; intros k; [done |].
  cbn [json.validFrom json.coerceFrom].
  destruct k as [|k].
  - destruct (json.runeWidth (c :: s)) as [w|]; [| done].
    intros H. by rewrite IH.
  - intros H. by rewrite IH.
Qed.

Lemma toValidUTF8_valid (s : list ascii) :
  json.ValidString s = true -> json.toValidUTF8 s = s.
Proof. apply coerceFrom_valid. Qed.

Lemma unmarshal_marshal_GroupInfo (g : GroupInfo) :
  json.ValidString (Text g) = true ->
  unmarshalGroupInfo (marshalGroupInfo g) = (g, false).
Proof.
  intros Hv. unfold unmarshalGroupInfo, marshalGroupInfo.
  rewrite toValidUTF8_valid by done.
  rewrite lookup_insert_eq. cbn [unmarshalString].
  rewrite lookup_insert_ne by discriminate.
  rewrite lookup_insert_eq. cbn [unmarshalInt orb]. by destruct g.
Qed.

Lemma marshalGroups_valid (groups : gmap (list ascii) GroupInfo) :
  map_Forall (fun k g => json.ValidString k = true
                         ∧ json.ValidString (Text g) = true) groups ->
  marshalGroups groups = json.Object (marshalGroupInfo <$> groups).
Proof.
  intros Hv. unfold marshalGroups. f_equal.
  rewrite <- (list_to_map_to_list (marshalGroupInfo <$> groups)).
  rewrite map_to_list_fmap. f_equal.
  apply list_fmap_ext. intros i [k g] Hi.
  apply list_elem_of_lookup_2, elem_of_map_to_list in Hi.
  destruct (Hv k g Hi) as [Hk _]. simpl. by rewrite toValidUTF8_valid.
Qed.

Lemma unmarshal_marshal_Groups (groups : gmap (list ascii) GroupInfo) :
  map_Forall (fun k g => json.ValidString k = true
                         ∧ json.ValidString (Text g) = true) groups ->
  unmarshalGroups (Some (marshalGroups groups)) = (groups, false).
Proof.
  intros Hv. rewrite marshalGroups_valid by done. unfold unmarshalGroups.
  assert (Hdec : unmarshalGroupInfo <$> (marshalGroupInfo <$> groups)
                 = (fun g => (g, false)) <$> groups).
  { rewrite <- map_fmap_compose. apply map_fmap_ext. intros k g Hk.
    simpl. apply unmarshal_marshal_GroupInfo. by destruct (Hv k g Hk). }
  rewrite Hdec. f_equal.
  - rewrite <- map_fmap_compose. apply map_fmap_id.
  - apply bool_decide_eq_false_2. intros (k & [g b] & Hk & Hb).
    rewrite lookup_fmap in Hk. destruct (groups !! k); simpl in *; [| done].
    injection Hk as <- <-. done.
Qed.

Lemma unmarshal_marshal_DayInfo (d : DayInfo) :
  ValidDay d -> unmarshalDayInfo (marshalDayInfo d) = (d, false).
Proof.
  intros [Hdate Hgroups]. unfold unmarshalDayInfo, marshalDayInfo.
  rewrite toValidUTF8_valid by done.
  rewrite lookup_insert_eq. cbn [unmarshalString].
  rewrite lookup_insert_ne by discriminate.
  rewrite lookup_insert_eq, unmarshal_marshal_Groups by done.
  cbn [orb]. by destruct d.
Qed.

Lemma unmarshal_marshal_days (days : list DayInfo) :
  Forall ValidDay days ->
  unmarshalDayInfo <$> (marshalDayInfo <$> days)
  = (fun d => (d, false)) <$> days.
Proof.
  induction 1 as [|d days Hd _ IH]; [done |].
  rewrite !fmap_cons, IH. by rewrite unmarshal_marshal_DayInfo.
Qed.

Lemma unmarshal_marshal_State (st : State) :
  ValidState st -> unmarshalState (marshalState st) = (st, None).
Proof.
  intros Hv. unfold unmarshalState, marshalState.
  rewrite lookup_insert_eq. destruct st as [days]. cbn [Days] in *.
  destruct days as [|d days]; [done |].
  unfold unmarshalDays. rewrite unmarshal_marshal_days by done.
  rewrite <- list_fmap_compose.
  replace (existsb snd ((fun d0 : DayInfo => (d0, false)) <$> d :: days))
    with false.
  - f_equal. f_equal. apply list_fmap_id.
  - symmetry. generalize (d :: days). intros l. by induction l.
Qed.

(** C8, as the code has it: for a state whose dates, group labels and texts
    are valid UTF-8, a save that returns without error followed by a load
    gives the state back: the same days in the same order, each with the
    same groups, texts and minutes. *)
Theorem save_then_load_valid_utf8 (path : list ascii) (st : State)
    (fs fs' : os.Files) :
  ValidState st ->
  saveState path st fs fs' (os.Returned None) ->
  loadState fs' path = (st, None).
Proof.
  intros Hv Hsave. apply saveState_outcomes in Hsave.
  unfold loadState, os.ReadFile. rewrite Hsave.
  by apply unmarshal_marshal_State.
Qed.

(** A complete run of [saveState]. *)
Lemma saveState_completes (path : list ascii) (st : State) (fs : os.Files) :
  saveState path st fs
    (<[path := os.Doc (marshalState st)]>
       (delete (path ++ lit ".tmp")
          (<[path ++ lit ".tmp" := os.Doc (marshalState st)]> fs)))
    (os.Returned None).
Proof.
  unfold saveState, saveCalls.
  eapply os.runs_next; [apply os.mkdir_ok |].
  eapply os.runs_next; [apply os.write_ok |].
  eapply os.runs_next; [apply os.rename_ok; apply lookup_insert_eq |].
  apply os.runs_done.
Qed.

Lemma save_then_load_valid_utf8_witness :
  exists fs', loadState fs' samplePath = (mkState [hourOutage; longerOutage], None).
Proof.
  eexists.
  apply (save_then_load_valid_utf8 samplePath
           (mkState [hourOutage; longerOutage]) ∅).
  - unfold ValidState. cbn [Days].
    constructor; [| constructor; [| constructor]];
      (split; [reflexivity | apply map_Forall_singleton; split; reflexivity]).
  - apply saveState_completes.
Defined.

(** C8, as it is stated, fails: a text with a byte that is not UTF-8, which
    [parsePage] takes over from such a page, is written with the replacement
    rune in place of that byte, so the state that is loaded differs from the
    one that was saved. *)
Lemma save_then_load_invalid_utf8 :
  firstPowerText brokenState = lit "Немає " ++ [byte 255]
  ∧ ¬ (forall (path : list ascii) (st : State) (fs fs' : os.Files),
          saveState path st fs fs' (os.Returned None) ->
          loadState fs' path = (st, None)).
Proof.
  split; [vm_compute; reflexivity |].
  intros H.
  specialize (H samplePath brokenState ∅ _ (saveState_completes _ _ _)).
  unfold loadState, os.ReadFile in H. rewrite lookup_insert_eq in H.
  apply (f_equal (fun r => firstPowerText r.1)) in H.
  vm_compute in H. discriminate H.
Qed.

(** ** The notifier: [urlEncode] and [sendTelegram] *)

Lemma urlEncode_app (a b : list ascii) :
  urlEncode (a ++ b) = urlEncode a ++ urlEncode b.
Proof.
  induction a as [|c a IH]; [done |].
  cbn [app urlEncode]. by rewrite IH, app_assoc.
Qed.

(** The three cases of a byte. *)
Lemma urlEncodeByte_cases (c : ascii) :
  (unreserved c = true ∧ urlEncodeByte c = [c])
  ∨ (c = " "%char ∧ urlEncodeByte c = ["+"%char])
  ∨ (unreserved c = false ∧ c ≠ " "%char
     ∧ urlEncodeByte c = [ "%"%char; hexDigit (nat_of_ascii c / 16);
                           hexDigit (nat_of_ascii c mod 16) ]).
Proof.
  unfold urlEncodeByte. destruct (unreserved c) eqn:E; [by left |].
  destruct (decide (c = " "%char)) as [->|Hne].
  - right. left. done.
  - right. right. by rewrite bool_decide_eq_false_2.
Qed.

Lemma hexDigit_cases (h : nat) :
  (h < 16)%nat ->
  hexValue (hexDigit h) = Some h ∧ unreserved (hexDigit h) = true.
Proof.
  intros Hh.
  do 16 (destruct h as [|h]; [by vm_compute |]). lia.
Qed.

Lemma byte_halves (c : ascii) :
  (nat_of_ascii c / 16 < 16)%nat ∧ (nat_of_ascii c mod 16 < 16)%nat
  ∧ ascii_of_nat (16 * (nat_of_ascii c / 16) + nat_of_ascii c mod 16) = c.
Proof.
  pose proof (nat_ascii_bounded c) as Hb.
  split; [apply Nat.Div0.div_lt_upper_bound; lia |].
  split; [apply Nat.mod_upper_bound; lia |].
  rewrite <- Nat.div_mod_eq. apply ascii_nat_embedding.
Qed.

Lemma unreserved_not_special (c : ascii) :
  unreserved c = true -> c ≠ "%"%char ∧ c ≠ "+"%char ∧ c ≠ "&"%char
                         ∧ c ≠ "="%char ∧ c ≠ " "%char.
Proof.
  intros H. repeat split; intros ->; by vm_compute in H.
Qed.

Lemma decode_encoded_byte (c : ascii) (rest : list ascii) :
  formDecode (urlEncodeByte c ++ rest) = cons c <$> formDecode rest.
Proof.
  destruct (urlEncodeByte_cases c) as [[Hu ->] | [[-> ->] | (Hu & Hs & ->)]].
  - apply unreserved_not_special in Hu as (H1 & H2 & _).
    cbn [app formDecode]. by rewrite !bool_decide_eq_false_2.
  - reflexivity.
  - destruct (byte_halves c) as (Hh & Hl & Hc).
    destruct (hexDigit_cases _ Hh) as [Eh _].
    destruct (hexDigit_cases _ Hl) as [El _].
    cbn [app formDecode]. rewrite bool_decide_eq_true_2 by done.
    by rewrite Eh, El, Hc.
Qed.

(** X1: decoding the encoded text as the receiver of the form does gives the
    text back, whatever its bytes. *)
Theorem urlEncode_decodes (s : list ascii) :
  formDecode (urlEncode s) = Some s.
Proof.
  induction s as [|c s IH]; [done |].
  cbn [urlEncode]. by rewrite decode_encoded_byte, IH.
Qed.

Lemma encoded_byte_alphabet (c : ascii) :
  Forall (fun x => unreserved x = true ∨ x = "+"%char ∨ x = "%"%char)
         (urlEncodeByte c).
Proof.
  destruct (urlEncodeByte_cases c) as [[Hu ->] | [[-> ->] | (Hu & Hs & ->)]].
  - constructor; [by left | constructor].
  - constructor; [right; by left | constructor].
  - destruct (byte_halves c) as (Hh & Hl & _).
    destruct (hexDigit_cases _ Hh) as [_ Eh].
    destruct (hexDigit_cases _ Hl) as [_ El].
    constructor; [right; by right |].
    constructor; [by left |]. constructor; [by left | constructor].
Qed.

Lemma encoded_byte_length (c : ascii) :
  (1 <= length (urlEncodeByte c) <= 3)%nat.
Proof.
  destruct (urlEncodeByte_cases c) as [[_ ->] | [[_ ->] | (_ & _ & ->)]];
    simpl; lia.
Qed.

Lemma unreserved_ascii (c : ascii) :
  unreserved c = true -> (nat_of_ascii c < 128)%nat.
Proof.
  unfold unreserved. rewrite !orb_true_iff, !andb_true_iff, !Nat.leb_le.
  intros [[[H | H] | H] | H]; [lia | lia | lia |].
  apply bool_decide_eq_true in H. cbn in H.
  rewrite !elem_of_cons, elem_of_nil in H.
  repeat (destruct H as [-> | H]; [vm_compute; lia |]). done.
Qed.

Lemma urlEncode_length (s : list ascii) :
  (length s <= length (urlEncode s) <= 3 * length s)%nat.
Proof.
  induction s as [|c s IH]; [simpl; lia |].
  cbn [urlEncode]. rewrite length_app. cbn [length].
  pose proof (encoded_byte_length c). lia.
Qed.

(** X2: the encoded text is written in the unreserved characters, [+] and
    [%] only: it has no [&], no [=], no space and no byte outside ASCII; it
    is at least as long as the text and at most three times as long. *)
Theorem urlEncode_alphabet (s : list ascii) :
  Forall (fun x => (unreserved x = true ∨ x = "+"%char ∨ x = "%"%char)
                   ∧ x ≠ "&"%char ∧ x ≠ "="%char ∧ x ≠ " "%char
                   ∧ (nat_of_ascii x < 128)%nat)
         (urlEncode s)
  ∧ (length s <= length (urlEncode s) <= 3 * length s)%nat.
Proof.
  split; [| apply urlEncode_length].
  induction s as [|c s IH]; [constructor |].
  cbn [urlEncode]. apply Forall_app. split; [| done].
  eapply Forall_impl; [apply encoded_byte_alphabet |].
  intros x Hx. split; [done |].
  destruct Hx as [Hx | [-> | ->]].
  - pose proof (unreserved_not_special x Hx) as (_ & _ & H1 & H2 & H3).
    by pose proof (unreserved_ascii x Hx).
  - repeat split; try discriminate. vm_compute. lia.
  - repeat split; try discriminate. vm_compute. lia.
Qed.

(** X3: the texts that [urlEncode] leaves as they are are exactly the texts
    of unreserved characters; and encoding goes piece by piece. *)
Theorem urlEncode_identity_iff :
  (forall s : list ascii,
      urlEncode s = s <-> Forall (fun c => unreserved c = true) s)
  ∧ (forall a b : list ascii, urlEncode (a ++ b) = urlEncode a ++ urlEncode b).
Proof.
  split; [| apply urlEncode_app].
  induction s as [|c s IH]; [split; [constructor | done] |].
  cbn [urlEncode]. split.
  - intros H.
    destruct (urlEncodeByte_cases c) as [[Hu E] | [[-> E] | (Hu & Hs & E)]];
      rewrite E in H.
    + injection H as H. constructor; [done | by apply IH].
    + discriminate H.
    + injection H as _ H. apply (f_equal length) in H. cbn [length] in H.
      pose proof (urlEncode_length s). lia.
  - intros H. inversion H as [|? ? Hc Hs]; subst.
    unfold urlEncodeByte. rewrite Hc. cbn [app]. f_equal. by apply IH.
Qed.

Lemma fieldsOf_single (sep : ascii) (a : list ascii) :
  sep ∉ a -> fieldsOf sep a = [a].
Proof.
  induction a as [|c a IH]; [done |]. intros H.
  cbn [fieldsOf]. rewrite bool_decide_eq_false_2.
  - rewrite IH; [done |]. intros Hin. apply H. by right.
  - intros ->. apply H. by left.
Qed.

Lemma fieldsOf_app (sep : ascii) (a b : list ascii) :
  sep ∉ a -> fieldsOf sep (a ++ sep :: b) = a :: fieldsOf sep b.
Proof.
  induction a as [|c a IH]; intros H.
  - cbn [app fieldsOf]. by rewrite bool_decide_eq_true_2.
  - cbn [app fieldsOf]. rewrite bool_decide_eq_false_2.
    + rewrite IH; [done |]. intros Hin. apply H. by right.
    + intros ->. apply H. by left.
Qed.

Lemma urlEncode_no_amp (s : list ascii) : "&"%char ∉ urlEncode s.
Proof.
  induction s as [|c s IH]; [apply not_elem_of_nil |].
  cbn [urlEncode]. rewrite not_elem_of_app. split; [| done].
  intros H. pose proof (encoded_byte_alphabet c) as Hall.
  rewrite Forall_forall in Hall. destruct (Hall _ H) as [Hu | [E | E]].
  - by apply unreserved_not_special in Hu as (_ & _ & Hamp & _).
  - discriminate E.
  - discriminate E.
Qed.

(** X4: the form of a request has exactly the three fields chat_id, text and
    parse_mode, whatever the text is, when the chat identifier has no [&];
    the value of the text field decodes to the text. *)
Theorem telegramRequest_fields (token chatID text : list ascii) :
  "&"%char ∉ chatID ->
  exists value,
    fieldsOf "&" (Form (telegramRequest token chatID text))
    = [ lit "chat_id=" ++ chatID; lit "text=" ++ value;
        lit "parse_mode=Markdown" ]
    ∧ formDecode value = Some text.
Proof.
  intros Hchat. exists (urlEncode text). split.
  2:{ induction text as [|c text IH]; [done |].
      cbn [urlEncode]. by rewrite decode_encoded_byte, IH. }
  unfold telegramRequest. cbn [Form].
  change (lit "&text=" ++ urlEncode text ++ lit "&parse_mode=Markdown")
    with ("&"%char :: (lit "text=" ++ urlEncode text)
            ++ "&"%char :: lit "parse_mode=Markdown").
  rewrite app_assoc, fieldsOf_app.
  - rewrite fieldsOf_app.
    + by rewrite fieldsOf_single by (by_computation).
    + rewrite elem_of_app. intros [H | H].
      * revert H. by_computation.
      * by apply urlEncode_no_amp in H.
  - rewrite elem_of_app. intros [H | H]; [| done].
    revert H. by_computation.
Qed.

Lemma telegramRequest_fields_witness :
  exists value,
    fieldsOf "&" (Form (telegramRequest (lit "123:abc") (lit "-1001234567890")
                          (lit "a & b = c")))
    = [ lit "chat_id=-1001234567890"; lit "text=" ++ value;
        lit "parse_mode=Markdown" ]
    ∧ formDecode value = Some (lit "a & b = c").
Proof.
  apply (telegramRequest_fields (lit "123:abc") (lit "-1001234567890")
           (lit "a & b = c")).
  by_computation.
Defined.

(** ** The worsened flag of [compareDay] *)

Lemma compareDay_spec (old cur : DayInfo) :
  compareDay old cur
  = (bool_decide (groupDiffers old cur groupPower
                  ∨ groupDiffers old cur groupWater),
     bool_decide (groupWorsened old cur groupPower
                  ∨ groupWorsened old cur groupWater)).
Proof.
  rewrite compareDay_unfold, !compareGroup_spec. unfold groupWorsened.
  destruct (decide (groupDiffers old cur groupPower)) as [P|P],
           (decide (groupDiffers old cur groupWater)) as [W|W];
    cbn [snd];
    repeat match goal with
      | |- context [?a <? ?b] => destruct (Z.ltb_spec a b)
      end;
    f_equal; symmetry;
    first [ apply bool_decide_eq_true_2; tauto
          | apply bool_decide_eq_false_2; intros [[? ?] | [? ?]]; try done; lia
          | apply bool_decide_eq_false_2; tauto ].
Qed.

Lemma compareDay_unchanged_iff (old cur : DayInfo) :
  (compareDay old cur).1 = false
  <-> forall g, g ∈ trackedGroups -> ¬ groupDiffers old cur g.
Proof.
  rewrite compareDay_spec. cbn [fst]. rewrite bool_decide_eq_false. split.
  - intros H g Hg D. apply H. by destruct (tracked_cases g Hg) as [-> | ->]; [left | right].
  - intros H [D | D];
      [refine (H groupPower _ D) | refine (H groupWater _ D)];
      unfold trackedGroups; rewrite !elem_of_cons; tauto.
Qed.

Lemma groupDiffers_refl (day : DayInfo) (g : list ascii) :
  ¬ groupDiffers day day g.
Proof.
  unfold groupDiffers. intros H.
  destruct (Groups day !! g); [by apply H | done].
Qed.

(** X5: [compareDay] sets the worsened flag exactly when some tracked group
    contributes to the change and has more minutes than before, an absent
    group counting as zero minutes; the flag is never set without the
    changed flag; and a record compared with itself gives neither. *)
Theorem compareDay_more_iff (old cur : DayInfo) :
  ((compareDay old cur).2 = true
   <-> exists g, g ∈ trackedGroups ∧ groupWorsened old cur g)
  ∧ compareDay old cur ≠ (false, true)
  ∧ compareDay cur cur = (false, false).
Proof.
  split; [| split].
  - rewrite compareDay_spec. cbn [snd]. rewrite bool_decide_eq_true. split.
    + intros [H | H]; [exists groupPower | exists groupWater];
        (split; [| done]); unfold trackedGroups; rewrite !elem_of_cons; tauto.
    + intros (g & Hg & H).
      by destruct (tracked_cases g Hg) as [-> | ->]; [left | right].
  - rewrite compareDay_spec. intros H. injection H as H1 H2.
    apply bool_decide_eq_false in H1. apply bool_decide_eq_true in H2.
    unfold groupWorsened in H2. tauto.
  - rewrite compareDay_spec. pose proof (groupDiffers_refl cur) as R.
    f_equal; apply bool_decide_eq_false_2; unfold groupWorsened; intros H.
    + destruct H as [H | H]; exact (R _ H).
    + destruct H as [[H _] | [H _]]; exact (R _ H).
Qed.

(** ** The loop of [main] *)

Lemma findDayIn_overwrite (days days' : list DayInfo) (day : DayInfo)
    (date : list ascii) :
  overwriteDay days day = Some days' -> date ≠ Date day ->
  findDayIn days' date = findDayIn days date.
Proof.
  revert days'. induction days as [|d days IH]; intros days' H Hne; [done |].
  cbn [overwriteDay] in H. destruct (decide (Date d = Date day)) as [E|E].
  - injection H as <-. cbn [findDayIn].
    destruct (decide (Date day = date)) as [E1|E1]; [by subst |].
    destruct (decide (Date d = date)) as [E2|E2]; [congruence | done].
  - destruct (overwriteDay days day) as [r|] eqn:Er; [| done].
    injection H as <-. cbn [findDayIn].
    destruct (decide (Date d = date)); [done |]. by apply IH.
Qed.

Lemma findDay_upsert_other (st : State) (day : DayInfo) (date : list ascii) :
  date ≠ Date day -> findDay (upsertDay st day) date = findDay st date.
Proof.
  intros Hne. unfold findDay, upsertDay.
  destruct (overwriteDay (Days st) day) as [days|] eqn:E; cbn [Days].
  - by eapply findDayIn_overwrite.
  - induction (Days st) as [|d l IH]; cbn [app findDayIn].
    + destruct (decide (Date day = date)); [congruence | done].
    + destruct (decide (Date d = date)); [done |]. apply IH.
      cbn [overwriteDay] in E. destruct (decide (Date d = Date day)); [done |].
      by destruct (overwriteDay l day).
Qed.

Lemma findDay_upsert_same (st : State) (day : DayInfo) :
  findDay (upsertDay st day) (Date day) = Some day.
Proof.
  unfold findDay, upsertDay.
  destruct (overwriteDay (Days st) day) as [days|] eqn:E; cbn [Days].
  - apply overwriteDay_Some in E as (before & d & after & _ & -> & _ & Hb).
    rewrite findDayIn_app_skip by done. cbn [findDayIn].
    by destruct (decide (Date day = Date day)).
  - apply overwriteDay_None in E.
    rewrite findDayIn_app_skip by done. cbn [findDayIn].
    by destruct (decide (Date day = Date day)).
Qed.

Lemma processDay_settled (token chatID : list ascii) (st : State)
    (sent : list Request) (day : DayInfo) :
  Settled st day -> processDay token chatID (st, sent) day = (st, sent).
Proof.
  intros (prev & Hf & Hsame). unfold processDay. rewrite Hf.
  apply compareDay_unchanged_iff in Hsame.
  destruct (compareDay prev day) as [changed more]. cbn [fst] in Hsame.
  by subst.
Qed.

Lemma processDay_cases (token chatID : list ascii) (st : State)
    (sent : list Request) (day : DayInfo) :
  processDay token chatID (st, sent) day = (st, sent)
  ∨ exists isUpdate more,
      processDay token chatID (st, sent) day
      = (upsertDay st day, sent ++ notify token chatID day isUpdate more).
Proof.
  unfold processDay. destruct (findDay st (Date day)) as [prev|].
  - destruct (compareDay prev day) as [[] more]; [right | by left].
    by exists true, more.
  - right. by exists false, false.
Qed.

Lemma processDay_settles (token chatID : list ascii) (st : State)
    (sent : list Request) (day : DayInfo) :
  Settled (processDay token chatID (st, sent) day).1 day.
Proof.
  unfold processDay. destruct (findDay st (Date day)) as [prev|] eqn:Hf.
  - destruct (compareDay prev day) as [changed more] eqn:Hc.
    destruct changed; cbn [fst].
    + exists day. split; [apply findDay_upsert_same |].
      intros g _. apply groupDiffers_refl.
    + exists prev. split; [done |].
      apply compareDay_unchanged_iff. by rewrite Hc.
  - cbn [fst]. exists day. split; [apply findDay_upsert_same |].
    intros g _. apply groupDiffers_refl.
Qed.

Lemma processDay_frame (token chatID : list ascii) (st : State)
    (sent : list Request) (day d : DayInfo) :
  Date d ≠ Date day -> Settled st d ->
  Settled (processDay token chatID (st, sent) day).1 d.
Proof.
  intros Hne (prev & Hf & Hsame).
  destruct (processDay_cases token chatID st sent day)
    as [-> | (u & m & ->)]; cbn [fst].
  - by exists prev.
  - exists prev. split; [| done]. by rewrite findDay_upsert_other.
Qed.

Lemma processDays_settles (token chatID : list ascii) (parsed : list DayInfo) :
  forall (acc : State * list Request) (done : list DayInfo),
    NoDup (Date <$> parsed) ->
    Forall (fun d => Date d ∉ (Date <$> parsed)) done ->
    Forall (Settled acc.1) done ->
    Forall (Settled (foldl (processDay token chatID) acc parsed).1)
           (done ++ parsed).
Proof.
  induction parsed as [|day parsed IH]; intros [st sent] done Hnd Hdis Hset.
  - by rewrite app_nil_r.
  - cbn [foldl]. rewrite fmap_cons in Hnd. apply NoDup_cons in Hnd as [Hday Hnd].
    replace (done ++ day :: parsed) with ((done ++ [day]) ++ parsed)
      by (by rewrite <- app_assoc).
    destruct (processDay token chatID (st, sent) day) as [st' sent'] eqn:Hp.
    apply IH; [done | |].
    + apply Forall_app. split.
      * eapply Forall_impl; [exact Hdis |]. intros d Hd Hin. apply Hd.
        rewrite fmap_cons. by right.
      * by constructor.
    + apply Forall_app. split.
      * rewrite Forall_forall in Hdis, Hset. apply Forall_forall. intros d Hd.
        replace st' with (processDay token chatID (st, sent) day).1
          by (by rewrite Hp).
        apply processDay_frame; [| by apply Hset].
        intros E. apply (Hdis d Hd). rewrite fmap_cons, E. by left.
      * constructor; [| constructor].
        replace st' with (processDay token chatID (st, sent) day).1
          by (by rewrite Hp).
        apply processDay_settles.
Qed.

Lemma processDays_settled (token chatID : list ascii) (parsed : list DayInfo)
    (acc : State * list Request) :
  Forall (Settled acc.1) parsed ->
  foldl (processDay token chatID) acc parsed = acc.
Proof.
  induction parsed as [|day parsed IH]; intros H; [done |].
  inversion H as [|? ? Hd Hrest]; subst. cbn [foldl].
  destruct acc as [st sent]. rewrite processDay_settled by done. by apply IH.
Qed.

Lemma processDays_again (token chatID : list ascii)
    (st : State) (parsed : list DayInfo) :
  NoDup (Date <$> parsed) ->
  Forall (Settled (processDays token chatID st parsed).1) parsed.
Proof.
  intros Hnd. unfold processDays.
  apply (processDays_settles token chatID parsed (st, []) [] Hnd);
    constructor.
Qed.

Lemma processDay_sent (token chatID : list ascii) (st : State)
    (sent : list Request) (day : DayInfo) :
  processDay token chatID (st, sent) day
  = ((processDay token chatID (st, []) day).1,
     sent ++ announcement token chatID st day).
Proof.
  unfold announcement, processDay.
  destruct (findDay st (Date day)) as [prev|]; [| done].
  destruct (compareDay prev day) as [[] more]; [done |].
  by rewrite app_nil_r.
Qed.

Lemma announcement_frame (token chatID : list ascii) (st : State)
    (sent : list Request) (day d : DayInfo) :
  Date d ≠ Date day ->
  announcement token chatID (processDay token chatID (st, sent) day).1 d
  = announcement token chatID st d.
Proof.
  intros Hne.
  destruct (processDay_cases token chatID st sent day)
    as [-> | (u & m & ->)]; cbn [fst]; [done |].
  unfold announcement, processDay. rewrite findDay_upsert_other by done.
  destruct (findDay st (Date d)) as [prev|]; [| done].
  by destruct (compareDay prev d) as [[] more].
Qed.

Lemma announcement_length (token chatID : list ascii) (st : State)
    (day : DayInfo) :
  (length (announcement token chatID st day) <= 1)%nat.
Proof.
  unfold announcement, processDay, notify.
  destruct (findDay st (Date day)) as [prev|].
  - destruct (compareDay prev day) as [[] more]; cbn [snd app]; [| simpl; lia].
    destruct (_ && _); simpl; lia.
  - cbn [snd app]. destruct (_ && _); simpl; lia.
Qed.

Lemma processDays_sent (token chatID : list ascii) (parsed : list DayInfo) :
  forall (st : State) (sent : list Request),
    NoDup (Date <$> parsed) ->
    (foldl (processDay token chatID) (st, sent) parsed).2
    = sent ++ concat (announcement token chatID st <$> parsed).
Proof.
  induction parsed as [|day parsed IH]; intros st sent Hnd.
  - cbn. by rewrite app_nil_r.
  - rewrite fmap_cons in Hnd. apply NoDup_cons in Hnd as [Hday Hnd].
    cbn [foldl]. rewrite processDay_sent, IH by done.
    rewrite fmap_cons. cbn [concat]. rewrite <- app_assoc. do 3 f_equal.
    apply list_fmap_ext. intros i d Hd.
    change (processDay token chatID (st, []) day).1
      with (processDay token chatID (st, []) day).1.
    apply announcement_frame. intros E. apply Hday.
    apply list_elem_of_fmap. exists d. split; [done |].
    by eapply list_elem_of_lookup_2.
Qed.

(** ** The calendar: the days that a run checks *)

Lemma yoe_bounds (doe : Z) :
  0 <= doe < 146097 ->
  let yoe := (doe - doe / 1460 + doe / 36524 - doe / 146096) / 365 in
  let doy := doe - (365 * yoe + yoe / 4 - yoe / 100) in
  0 <= yoe <= 399 ∧ 0 <= doy <= 365
  ∧ (doy = 365 -> (yoe + 1) mod 4 = 0 ∧ ((yoe + 1) mod 100 ≠ 0 ∨ yoe = 399)).
Proof.
  intros H yoe doy. subst doy yoe.
  Z.to_euclidean_division_equations; lia.
Qed.

(** The civil date of a day number is a date of the calendar, and it has
    that day number. *)
Lemma civilFromDays_spec (n : Z) :
  let '(y, m, d) := time.civilFromDays n in
  time.daysFromCivil y m d = n ∧ 1 <= m <= 12 ∧ 1 <= d <= time.daysIn m y.
Proof.
  unfold time.civilFromDays.
  set (z := n + 719468). set (era := z / 146097).
  set (doe := z - era * 146097).
  assert (Hdoe : 0 <= doe < 146097)
    by (subst doe era; Z.to_euclidean_division_equations; lia).
  pose proof (yoe_bounds doe Hdoe) as Hy. cbn zeta in Hy.
  set (yoe := (doe - doe / 1460 + doe / 36524 - doe / 146096) / 365) in *.
  set (doy := doe - (365 * yoe + yoe / 4 - yoe / 100)) in *.
  destruct Hy as (Hyoe & Hdoy & Hleap).
  set (mp := (5 * doy + 2) / 153).
  assert (Hmp : 0 <= mp <= 11)
    by (subst mp; Z.to_euclidean_division_equations; lia).
  unfold time.daysFromCivil.
  destruct (Z.ltb_spec mp 10) as [Hlt|Hge].
  - replace (mp + 3 <=? 2) with false by (symmetry; apply Z.leb_gt; lia).
    replace (2 <? mp + 3) with true by (symmetry; apply Z.ltb_lt; lia).
    replace (mp + 3 - 3) with mp by lia.
    replace ((yoe + era * 400 + 0) / 400) with era
      by (Z.to_euclidean_division_equations; lia).
    replace (yoe + era * 400 + 0 - era * 400) with yoe by lia.
    split; [| split]; [ | lia | ].
    + subst doy doe z. clearbody yoe era mp. lia.
    + unfold time.daysIn.
      replace (mp + 3 =? 2) with false by (symmetry; apply Z.eqb_neq; lia).
      clearbody doy. clear Hleap.
      assert (Hc : mp = 0 ∨ mp = 1 ∨ mp = 2 ∨ mp = 3 ∨ mp = 4 ∨ mp = 5
                   ∨ mp = 6 ∨ mp = 7 ∨ mp = 8 ∨ mp = 9) by lia.
      destruct Hc as [E | [E | [E | [E | [E | [E | [E | [E | [E | E]]]]]]]]];
        rewrite E;
        repeat match goal with
          | |- context [?a =? ?b] => destruct (Z.eqb_spec a b); try lia
          end;
        cbn [orb]; subst mp; Z.to_euclidean_division_equations; lia.
  - replace (mp - 9 <=? 2) with true by (symmetry; apply Z.leb_le; lia).
    replace (2 <? mp - 9) with false by (symmetry; apply Z.ltb_ge; lia).
    replace (mp - 9 + 9) with mp by lia.
    replace ((yoe + era * 400 + 1 - 1) / 400) with era
      by (Z.to_euclidean_division_equations; lia).
    replace (yoe + era * 400 + 1 - 1 - era * 400) with yoe by lia.
    split; [| split]; [ | lia | ].
    + subst doy doe z. clearbody yoe era mp. lia.
    + unfold time.daysIn, time.isLeap.
      assert (H4 : (yoe + era * 400 + 1) mod 4 = (yoe + 1) mod 4)
        by (Z.to_euclidean_division_equations; lia).
      assert (H100 : (yoe + era * 400 + 1) mod 100 = (yoe + 1) mod 100)
        by (Z.to_euclidean_division_equations; lia).
      assert (H400 : (yoe + era * 400 + 1) mod 400 = (yoe + 1) mod 400)
        by (Z.to_euclidean_division_equations; lia).
      rewrite H4, H100, H400. clear H4 H100 H400.
      clearbody doy yoe.
      assert (Hc : mp = 10 ∨ mp = 11) by lia.
      destruct Hc as [E | E]; rewrite E;
        repeat match goal with
          | |- context [?a =? ?b] => destruct (Z.eqb_spec a b); try lia
          end;
        cbn [orb andb negb]; subst mp; Z.to_euclidean_division_equations; lia.
Qed.

(** A date of the calendar is the civil date of its day number. *)
Lemma civilFromDays_daysFromCivil (y m d : Z) :
  1 <= m <= 12 -> 1 <= d <= time.daysIn m y ->
  time.civilFromDays (time.daysFromCivil y m d) = (y, m, d).
Proof.
  intros Hm Hd.
  assert (Hcase : m = 1 ∨ m = 2 ∨ m = 3 ∨ m = 4 ∨ m = 5 ∨ m = 6 ∨ m = 7
                  ∨ m = 8 ∨ m = 9 ∨ m = 10 ∨ m = 11 ∨ m = 12) by lia.
  unfold time.daysIn, time.isLeap in Hd.
  unfold time.daysFromCivil.
  set (y' := if m <=? 2 then y - 1 else y).
  set (era := y' / 400). set (yoe := y' - era * 400).
  assert (Hyoe : 0 <= yoe <= 399)
    by (subst yoe era; Z.to_euclidean_division_equations; lia).
  set (mp := if 2 <? m then m - 3 else m + 9).
  set (doy := (153 * mp + 2) / 5 + d - 1).
  set (doe := yoe * 365 + yoe / 4 - yoe / 100 + doy).
  assert (Hleap : 0 <= doy <= 365 ∧
            (doy = 365 -> (yoe + 1) mod 4 = 0
                          ∧ ((yoe + 1) mod 100 ≠ 0 ∨ yoe = 399))
            ∧ mp = (5 * doy + 2) / 153 ∧ 0 <= mp <= 11
            ∧ d = doy - (153 * mp + 2) / 5 + 1).
  { assert (Hy4 : y mod 4 = (if m <=? 2 then (yoe + 1) mod 4 else yoe mod 4)).
    { subst yoe era y'. destruct (m <=? 2); Z.to_euclidean_division_equations; lia. }
    assert (Hy100 : y mod 100 = (if m <=? 2 then (yoe + 1) mod 100 else yoe mod 100)).
    { subst yoe era y'. destruct (m <=? 2); Z.to_euclidean_division_equations; lia. }
    assert (Hy400 : y mod 400 = (if m <=? 2 then (yoe + 1) mod 400 else yoe mod 400)).
    { subst yoe era y'. destruct (m <=? 2); Z.to_euclidean_division_equations; lia. }
    rewrite Hy4, Hy100, Hy400 in Hd. clearbody yoe. clear Hy4 Hy100 Hy400.
    subst doy mp.
    destruct Hcase as [-> | [-> | [-> | [-> | [-> | [-> | [-> | [-> | [-> | [-> | [-> | ->]]]]]]]]]]];
      cbn in Hd |- *;
      repeat match type of Hd with
        | context [?a =? ?b] => destruct (Z.eqb_spec a b); cbn in Hd
        end;
      Z.to_euclidean_division_equations; lia. }
  destruct Hleap as (Hdoy & Hl & Hmp & Hmpr & Hdd).
  unfold time.civilFromDays.
  replace (era * 146097 + doe - 719468 + 719468) with (era * 146097 + doe) by lia.
  assert (Hdoe : 0 <= doe < 146097).
  { subst doe. clearbody doy yoe. Z.to_euclidean_division_equations; lia. }
  replace ((era * 146097 + doe) / 146097) with era
    by (Z.to_euclidean_division_equations; lia).
  replace (era * 146097 + doe - era * 146097) with doe by lia.
  replace ((doe - doe / 1460 + doe / 36524 - doe / 146096) / 365) with yoe.
  2:{ subst doe. clearbody doy yoe. Z.to_euclidean_division_equations; lia. }
  replace (doe - (365 * yoe + yoe / 4 - yoe / 100)) with doy by (subst doe; lia).
  rewrite <- Hmp, <- Hdd.
  subst mp yoe era y'.
  destruct (Z.ltb_spec 2 m), (Z.leb_spec m 2); try lia.
  - replace (m - 3 <? 10) with true by (symmetry; apply Z.ltb_lt; lia).
    replace (m - 3 + 3 <=? 2) with false by (symmetry; apply Z.leb_gt; lia).
    apply pair_equal_spec; split; [apply pair_equal_spec; split |]; lia.
  - replace (m + 9 <? 10) with false by (symmetry; apply Z.ltb_ge; lia).
    replace (m + 9 - 9 <=? 2) with true by (symmetry; apply Z.leb_le; lia).
    apply pair_equal_spec; split; [apply pair_equal_spec; split |]; lia.
Qed.

Lemma year_close (y m d y1 m1 d1 : Z) :
  1 <= m <= 12 -> 1 <= d <= 31 -> 1 <= m1 <= 12 -> 1 <= d1 <= 31 ->
  -1 <= time.daysFromCivil y1 m1 d1 - time.daysFromCivil y m d <= 1 ->
  y - 1 <= y1 <= y + 1.
Proof.
  intros Hm Hd Hm1 Hd1. unfold time.daysFromCivil.
  destruct (Z.leb_spec m 2), (Z.ltb_spec 2 m); try lia;
  destruct (Z.leb_spec m1 2), (Z.ltb_spec 2 m1); try lia;
  intros Hclose; Z.to_euclidean_division_equations; lia.
Qed.

(** [AddDate] by days moves the day number and keeps the time of day. *)
Lemma AddDate_days (t : time.Time) (k : Z) :
  1 <= time.Month t <= 12 -> 0 <= time.Hour t < 24 ->
  0 <= time.Minute t < 60 ->
  time.AddDate t 0 0 k
  = (let '(y, m, d) := time.civilFromDays (dayNumber t + k) in
     time.mkTime y m d (time.Hour t) (time.Minute t)).
Proof.
  intros Hm Hh Hmin. unfold time.AddDate, time.Date, dayNumber.
  replace (time.Year t + 0 + (time.Month t + 0 - 1) / 12) with (time.Year t)
    by (Z.to_euclidean_division_equations; lia).
  replace ((time.Month t + 0 - 1) mod 12 + 1) with (time.Month t)
    by (Z.to_euclidean_division_equations; lia).
  replace (time.daysFromCivil (time.Year t) (time.Month t) (time.Day t + k))
    with (time.daysFromCivil (time.Year t) (time.Month t) (time.Day t) + k)
    by (unfold time.daysFromCivil; lia).
  set (n := time.daysFromCivil (time.Year t) (time.Month t) (time.Day t) + k).
  replace ((n * 1440 + time.Hour t * 60 + time.Minute t) / 1440) with n
    by (Z.to_euclidean_division_equations; lia).
  replace ((n * 1440 + time.Hour t * 60 + time.Minute t) mod 1440 / 60)
    with (time.Hour t) by (Z.to_euclidean_division_equations; lia).
  replace ((n * 1440 + time.Hour t * 60 + time.Minute t) mod 60)
    with (time.Minute t) by (Z.to_euclidean_division_equations; lia).
  done.
Qed.

Lemma AddDate_valid (t : time.Time) (k : Z) :
  validTime t -> 1 <= time.Year t <= 9998 -> -1 <= k <= 1 ->
  validTime (time.AddDate t 0 0 k)
  ∧ dayNumber (time.AddDate t 0 0 k) = dayNumber t + k.
Proof.
  intros ((Hy & Hm & Hd) & Hh & Hmin) Hyear Hk.
  rewrite AddDate_days by done.
  pose proof (civilFromDays_spec (dayNumber t + k)) as Hs.
  destruct (time.civilFromDays (dayNumber t + k)) as [[y m] d].
  destruct Hs as (Hn & Hm' & Hd').
  unfold validTime, validDate, dayNumber.
  cbn [time.Year time.Month time.Day time.Hour time.Minute].
  pose proof (daysIn_le_31 m y). pose proof (daysIn_le_31 (time.Month t) (time.Year t)).
  assert (time.Year t - 1 <= y <= time.Year t + 1).
  { apply (year_close (time.Year t) (time.Month t) (time.Day t) y m d);
      try lia. unfold dayNumber in Hn. lia. }
  repeat split; try lia. done.
Qed.

Lemma AddDate_back (t : time.Time) :
  validTime t -> time.AddDate (time.AddDate t 0 0 1) 0 0 (-1) = t.
Proof.
  intros ((Hy & Hm & Hd) & Hh & Hmin).
  rewrite (AddDate_days t 1) by done.
  pose proof (civilFromDays_spec (dayNumber t + 1)) as Hs.
  destruct (time.civilFromDays (dayNumber t + 1)) as [[y m] d].
  destruct Hs as (Hn & Hm' & Hd').
  rewrite AddDate_days by done. unfold dayNumber at 1.
  cbn [time.Year time.Month time.Day time.Hour time.Minute].
  rewrite Hn. replace (dayNumber t + 1 + -1) with (dayNumber t) by lia.
  unfold dayNumber. rewrite civilFromDays_daysFromCivil by done.
  by destruct t.
Qed.

Lemma Format_date_inj (a b : time.Time) :
  validDate a -> validDate b ->
  time.Format_2006_01_02 a = time.Format_2006_01_02 b ->
  dayNumber a = dayNumber b.
Proof.
  intros Ha Hb E. apply (f_equal time.Parse_2006_01_02) in E.
  rewrite !Parse_Format_date in E by done. injection E as E1 E2 E3.
  unfold dayNumber. by rewrite E1, E2, E3.
Qed.

(** ** A run of [main] *)

Lemma upsertDay_NoDup (st : State) (day : DayInfo) :
  NoDup (Date <$> Days st) -> NoDup (Date <$> Days (upsertDay st day)).
Proof.
  intros Hnd. unfold upsertDay.
  destruct (overwriteDay (Days st) day) as [days'|] eqn:Hov; cbn [Days].
  - apply overwriteDay_Some in Hov
      as (before & d0 & after & Hst & -> & Hd0 & Hb).
    rewrite Hst in Hnd. revert Hnd. rewrite !fmap_app, !fmap_cons.
    by rewrite Hd0.
  - apply overwriteDay_None in Hov.
    rewrite fmap_app. apply NoDup_app. repeat split; [done | | ].
    + intros x Hx Hx'. apply list_elem_of_singleton in Hx' as ->.
      apply list_elem_of_fmap in Hx as (d & Hd & Hin).
      rewrite Forall_forall in Hov. by apply (Hov d).
    + apply NoDup_singleton.
Qed.

Lemma processDays_NoDup (token chatID : list ascii) (parsed : list DayInfo) :
  forall acc : State * list Request,
    NoDup (Date <$> Days acc.1) ->
    NoDup (Date <$> Days (foldl (processDay token chatID) acc parsed).1).
Proof.
  induction parsed as [|day parsed IH]; intros [st sent] Hnd; [done |].
  cbn [foldl]. apply IH.
  destruct (processDay_cases token chatID st sent day)
    as [-> | (u & m & ->)]; cbn [fst]; [done |].
  by apply upsertDay_NoDup.
Qed.

Lemma dayRecord_Date (body : list ascii) (d : time.Time) (rec : DayInfo) :
  dayRecord body d = Some rec -> Date rec = time.Format_2006_01_02 d.
Proof.
  unfold dayRecord.
  destruct (decide (extractSection body _ = [])); [discriminate |].
  destruct (decide (parseGroups _ = ∅)); [discriminate |].
  by intros [= <-].
Qed.

Lemma parsePage_dates (body : list ascii) (dates : list time.Time) :
  (Date <$> (parsePage body dates).1)
    `sublist_of` (time.Format_2006_01_02 <$> dates).
Proof.
  unfold parsePage. cbn [fst]. rewrite parseDates_fold. cbn [app].
  induction dates as [|d dates IH]; [constructor |].
  cbn [omap list_omap]. destruct (dayRecord body d) as [rec|] eqn:E.
  - rewrite !fmap_cons, (dayRecord_Date _ _ _ E). by constructor.
  - rewrite fmap_cons. by constructor.
Qed.

Lemma today_tomorrow (today : time.Time) :
  validTime today -> 1 <= time.Year today <= 9998 ->
  NoDup [ time.Format_2006_01_02 (time.AddDate today 0 0 (-1));
          time.Format_2006_01_02 today;
          time.Format_2006_01_02 (time.AddDate today 0 0 1) ].
Proof.
  intros Hv Hy.
  destruct (AddDate_valid today (-1) Hv Hy ltac:(lia)) as [[Hv1 _] Hn1].
  destruct (AddDate_valid today 1 Hv Hy ltac:(lia)) as [[Hv2 _] Hn2].
  pose proof (proj1 Hv) as Hv0.
  apply NoDup_cons. split; [| apply NoDup_cons; split;
                                 [| apply NoDup_singleton]].
  - rewrite !elem_of_cons, elem_of_nil. intros [E | [E | []]].
    + apply (Format_date_inj _ _ Hv1 Hv0) in E. lia.
    + apply (Format_date_inj _ _ Hv1 Hv2) in E. lia.
  - rewrite elem_of_cons, elem_of_nil. intros [E | []].
    apply (Format_date_inj _ _ Hv0 Hv2) in E. lia.
Qed.

Lemma inWindow_datesToCheck (today : time.Time) (date : list ascii) :
  validTime today ->
  inWindow (datesToCheck today) date
  <-> date ∈ [ time.Format_2006_01_02 (time.AddDate today 0 0 (-1));
               time.Format_2006_01_02 today;
               time.Format_2006_01_02 (time.AddDate today 0 0 1) ].
Proof.
  intros Hv. unfold inWindow, datesToCheck.
  rewrite !Exists_cons, Exists_nil, AddDate_back by done.
  rewrite !elem_of_cons, elem_of_nil. tauto.
Qed.

(** X6: the two reference days of a run are today and tomorrow, so
    [keepLastTwo] keeps exactly the days dated yesterday, today or tomorrow,
    which are three different dates; a state whose days have distinct dates
    is cut to at most three days. *)
Theorem keepLastTwo_three_days (today : time.Time) (st : State) :
  validTime today -> 1 <= time.Year today <= 9998 ->
  let window := [ time.Format_2006_01_02 (time.AddDate today 0 0 (-1));
                  time.Format_2006_01_02 today;
                  time.Format_2006_01_02 (time.AddDate today 0 0 1) ] in
  NoDup window
  ∧ Days (keepLastTwo st (datesToCheck today))
    = filter (fun d => Date d ∈ window) (Days st)
  ∧ (NoDup (Date <$> Days st) ->
     (length (Days (keepLastTwo st (datesToCheck today))) <= 3)%nat).
Proof.
  intros Hv Hy window.
  assert (Hfilter : Days (keepLastTwo st (datesToCheck today))
                    = filter (fun d => Date d ∈ window) (Days st)).
  { rewrite keepLastTwo_filter. apply list_filter_iff. intros d.
    by apply inWindow_datesToCheck. }
  split; [by apply today_tomorrow |]. split; [done |].
  intros Hnd. rewrite Hfilter.
  rewrite <- (length_fmap Date).
  change 3%nat with (length window).
  apply submseteq_length, NoDup_submseteq.
  - eapply sublist_NoDup; [exact Hnd |].
    apply fmap_sublist, sublist_filter.
  - intros x Hx. apply list_elem_of_fmap in Hx as (d & -> & Hd).
    by apply list_elem_of_filter in Hd as [Hd _].
Qed.

Lemma keepLastTwo_three_days_witness :
  (length (Days (keepLastTwo (mkState [hourOutage])
                   (datesToCheck (time.mkTime 2025 3 1 0 0)))) <= 3)%nat.
Proof.
  refine (proj2 (proj2 (keepLastTwo_three_days (time.mkTime 2025 3 1 0 0)
                          (mkState [hourOutage]) _ _)) _).
  - repeat split; by vm_compute.
  - cbn [time.Year]. lia.
  - cbn [Days fmap list_fmap]. apply NoDup_singleton.
Defined.

Lemma runOnce_unfold (env : Env) (today : time.Time) (htmlBody : list ascii)
    (fs : os.Files) :
  runOnce env today htmlBody fs
  = (keepLastTwo
       (processDays (envToken env) (envChatID env)
          (loadState fs (statePathOf env)).1
          (parsePage htmlBody (datesToCheck today)).1).1
       (datesToCheck today),
     (processDays (envToken env) (envChatID env)
        (loadState fs (statePathOf env)).1
        (parsePage htmlBody (datesToCheck today)).1).2).
Proof. unfold runOnce. by destruct (processDays _ _ _ _). Qed.

Lemma findDayIn_filter (P : list ascii -> Prop) `{!forall x, Decision (P x)}
    (days : list DayInfo) (date : list ascii) :
  P date ->
  findDayIn (filter (fun d => P (Date d)) days) date = findDayIn days date.
Proof.
  intros HP. induction days as [|d days IH]; [done |].
  destruct (decide (P (Date d))) as [Hd|Hd].
  - rewrite filter_cons_True by done. cbn [findDayIn]. by rewrite IH.
  - rewrite filter_cons_False by done. cbn [findDayIn].
    destruct (decide (Date d = date)) as [E|E]; [by subst | done].
Qed.

Lemma findDay_keepLastTwo (st : State) (refs : list time.Time)
    (date : list ascii) :
  inWindow refs date -> findDay (keepLastTwo st refs) date = findDay st date.
Proof.
  intros Hw. unfold findDay. rewrite keepLastTwo_filter.
  by apply (findDayIn_filter (inWindow refs)).
Qed.

Lemma keepLastTwo_idem (st : State) (refs : list time.Time) :
  keepLastTwo (keepLastTwo st refs) refs = keepLastTwo st refs.
Proof.
  apply State_eq. rewrite !keepLastTwo_filter.
  induction (Days st) as [|d days IH]; [done |].
  rewrite filter_cons.
  destruct (decide (inWindow refs (Date d))) as [Hd|Hd]; [| done].
  rewrite filter_cons, decide_True by done. by rewrite IH.
Qed.

Lemma keepLastTwo_NoDup (st : State) (refs : list time.Time) :
  NoDup (Date <$> Days st) -> NoDup (Date <$> Days (keepLastTwo st refs)).
Proof.
  intros Hnd. rewrite keepLastTwo_filter.
  eapply sublist_NoDup; [exact Hnd |]. apply fmap_sublist, sublist_filter.
Qed.

Lemma parsed_inWindow (body : list ascii) (dates : list time.Time)
    (day : DayInfo) :
  day ∈ (parsePage body dates).1 -> inWindow dates (Date day).
Proof.
  intros Hd. unfold inWindow. apply Exists_exists.
  assert (Hin : Date day ∈ time.Format_2006_01_02 <$> dates).
  { eapply elem_of_sublist; [| apply parsePage_dates].
    apply list_elem_of_fmap. by exists day. }
  apply list_elem_of_fmap in Hin as (r & -> & Hr).
  exists r. split; [done | by left].
Qed.

Lemma parsed_NoDup (body : list ascii) (today : time.Time) :
  validTime today -> 1 <= time.Year today <= 9998 ->
  NoDup (Date <$> (parsePage body (datesToCheck today)).1).
Proof.
  intros Hv Hy. eapply sublist_NoDup; [| apply parsePage_dates].
  pose proof (today_tomorrow today Hv Hy) as Hnd.
  apply NoDup_cons in Hnd as [_ Hnd]. exact Hnd.
Qed.

Lemma runOnce_settled (env : Env) (today : time.Time) (htmlBody : list ascii)
    (fs : os.Files) :
  validTime today -> 1 <= time.Year today <= 9998 ->
  Forall (Settled (runOnce env today htmlBody fs).1)
         (parsePage htmlBody (datesToCheck today)).1.
Proof.
  intros Hv Hy. rewrite runOnce_unfold. cbn [fst].
  pose proof (processDays_again (envToken env) (envChatID env)
                (loadState fs (statePathOf env)).1
                (parsePage htmlBody (datesToCheck today)).1
                (parsed_NoDup htmlBody today Hv Hy)) as Hs.
  rewrite Forall_forall in Hs. apply Forall_forall. intros day Hday.
  destruct (Hs day Hday) as (prev & Hf & Hsame).
  exists prev. split; [| done].
  rewrite findDay_keepLastTwo; [done |]. by eapply parsed_inWindow.
Qed.

(** X7: a run leaves a state that knows every day it parsed: the day has a
    record of its date from which it differs in no tracked group.  If the
    days of the state that was loaded have distinct dates, so have the days
    of the state that is saved, and they are at most three. *)
Theorem runOnce_state (env : Env) (today : time.Time) (htmlBody : list ascii)
    (fs : os.Files) :
  validTime today -> 1 <= time.Year today <= 9998 ->
  NoDup (Date <$> Days (loadState fs (statePathOf env)).1) ->
  Forall (Settled (runOnce env today htmlBody fs).1)
         (parsePage htmlBody (datesToCheck today)).1
  ∧ NoDup (Date <$> Days (runOnce env today htmlBody fs).1)
  ∧ (length (Days (runOnce env today htmlBody fs).1) <= 3)%nat.
Proof.
  intros Hv Hy Hnd. split; [by apply runOnce_settled |].
  rewrite runOnce_unfold. cbn [fst].
  assert (Hnd' : NoDup (Date <$> Days
            (processDays (envToken env) (envChatID env)
               (loadState fs (statePathOf env)).1
               (parsePage htmlBody (datesToCheck today)).1).1)).
  { unfold processDays. by apply processDays_NoDup. }
  split; [by apply keepLastTwo_NoDup |].
  pose proof (today_tomorrow today Hv Hy) as Hw.
  rewrite <- (length_fmap Date).
  change 3%nat with (length [ time.Format_2006_01_02 (time.AddDate today 0 0 (-1));
                              time.Format_2006_01_02 today;
                              time.Format_2006_01_02 (time.AddDate today 0 0 1) ]).
  apply submseteq_length, NoDup_submseteq; [by apply keepLastTwo_NoDup |].
  intros x Hx. apply list_elem_of_fmap in Hx as (d & -> & Hd).
  rewrite keepLastTwo_filter in Hd. apply list_elem_of_filter in Hd as [Hd _].
  by apply inWindow_datesToCheck.
Qed.

(** X8: when the state file holds the state that a run computed, and its
    strings are valid UTF-8, the next run on the same day and the same page
    posts nothing and leaves the content of the state file as it is. *)
Theorem main_second_run (env : Env) (today : time.Time)
    (htmlBody : list ascii) (fs fs1 fs2 : os.Files) (sent : list Request) :
  validTime today -> 1 <= time.Year today <= 9998 ->
  ValidState (runOnce env today htmlBody fs).1 ->
  fs1 !! statePathOf env
  = Some (os.Doc (marshalState (runOnce env today htmlBody fs).1)) ->
  main env today fs1 (inr htmlBody) fs2 sent ->
  sent = [] ∧ fs2 !! statePathOf env = fs1 !! statePathOf env.
Proof.
  intros Hv Hy Hvalid Hfile Hmain.
  set (st := (runOnce env today htmlBody fs).1) in *.
  assert (Hload : loadState fs1 (statePathOf env) = (st, None)).
  { unfold loadState, os.ReadFile. rewrite Hfile.
    by apply unmarshal_marshal_State. }
  assert (Hrun : runOnce env today htmlBody fs1 = (st, [])).
  { rewrite runOnce_unfold, Hload. cbn [fst].
    unfold processDays. rewrite processDays_settled.
    - cbn [fst snd]. f_equal. unfold st. rewrite runOnce_unfold. cbn [fst].
      apply keepLastTwo_idem.
    - cbn [fst]. by apply runOnce_settled. }
  inversion Hmain as [| body fs' e Hsave]; subst.
  rewrite Hrun in Hsave |- *. cbn [fst snd] in Hsave |- *.
  split; [done |].
  apply saveState_outcomes in Hsave. destruct e as [err|]; [done |].
  by rewrite Hsave, Hfile.
Qed.

Lemma main_second_run_witness :
  (runOnce sampleEnv sampleToday samplePage savedFiles).2 = []
  ∧ (<[statePathOf sampleEnv :=
         os.Doc (marshalState
                   (runOnce sampleEnv sampleToday samplePage savedFiles).1)]>
       (delete (statePathOf sampleEnv ++ lit ".tmp")
          (<[statePathOf sampleEnv ++ lit ".tmp" :=
               os.Doc (marshalState
                         (runOnce sampleEnv sampleToday samplePage
                            savedFiles).1)]> savedFiles)))
      !! statePathOf sampleEnv
    = savedFiles !! statePathOf sampleEnv.
Proof.
  apply (main_second_run sampleEnv sampleToday samplePage ∅ savedFiles).
  - repeat split; by vm_compute.
  - cbn [time.Year sampleToday]. lia.
  - replace (runOnce sampleEnv sampleToday samplePage ∅).1
      with (mkState
              [ mkDayInfo (lit "2025-12-12")
                  (<[groupWater := mkGroupInfo noOutage 0]>
                     {[ groupPower :=
                          mkGroupInfo
                            (lit "Електроенергії немає з 08:00 до 11:30")
                            210 ]}) ])
      by (vm_compute; reflexivity).
    constructor; [| constructor]. split; [reflexivity |].
    apply map_Forall_insert_2; [split; reflexivity |].
    apply map_Forall_singleton. split; reflexivity.
  - apply lookup_singleton_eq.
  - apply main_saved with (e := None). apply saveState_completes.
Defined.

Lemma runOnce_state_witness :
  (length (Days (runOnce sampleEnv sampleToday samplePage ∅).1) <= 3)%nat.
Proof.
  refine (proj2 (proj2 (runOnce_state sampleEnv sampleToday samplePage ∅
                          _ _ _))).
  - repeat split; by vm_compute.
  - cbn [time.Year sampleToday]. lia.
  - unfold loadState, os.ReadFile. rewrite lookup_empty. cbn [fst Days].
    apply NoDup_nil_2.
Defined.

Lemma processDay_state (token chatID token' chatID' : list ascii)
    (st : State) (day : DayInfo) :
  (processDay token chatID (st, []) day).1
  = (processDay token' chatID' (st, []) day).1.
Proof.
  unfold processDay. destruct (findDay st (Date day)) as [prev|]; [| done].
  by destruct (compareDay prev day) as [[] more].
Qed.

Lemma announcement_no_credentials (token chatID : list ascii) (st : State)
    (day : DayInfo) :
  token = [] ∨ chatID = [] -> announcement token chatID st day = [].
Proof.
  intros H. unfold announcement, processDay.
  assert (Hn : forall u m, notify token chatID day u m = []).
  { intros u m. unfold notify.
    destruct H as [-> | ->].
    - by rewrite bool_decide_eq_true_2.
    - rewrite (bool_decide_eq_true_2 ([] = [])) by done.
      by rewrite andb_false_r. }
  destruct (findDay st (Date day)) as [prev|]; [| by rewrite Hn].
  destruct (compareDay prev day) as [[] more]; [by rewrite Hn | done].
Qed.

Lemma processDays_credentials (token chatID token' chatID' : list ascii)
    (parsed : list DayInfo) :
  forall (st : State) (sent sent' : list Request),
    (foldl (processDay token chatID) (st, sent) parsed).1
    = (foldl (processDay token' chatID') (st, sent') parsed).1
    ∧ (token = [] ∨ chatID = [] ->
       (foldl (processDay token chatID) (st, sent) parsed).2 = sent).
Proof.
  induction parsed as [|day parsed IH]; intros st sent sent'; [done |].
  cbn [foldl].
  rewrite (processDay_sent token chatID), (processDay_sent token' chatID').
  rewrite (processDay_state token chatID token' chatID').
  destruct (IH (processDay token' chatID' (st, []) day).1
              (sent ++ announcement token chatID st day)
              (sent' ++ announcement token' chatID' st day)) as [IH1 IH2].
  split; [done |]. intros H. rewrite IH2 by done.
  by rewrite announcement_no_credentials, app_nil_r.
Qed.

(** X9: without a token or without a chat identifier a run posts nothing,
    and the state it saves is the state that a run with credentials saves:
    the days it parsed count as announced. *)
Theorem runOnce_without_credentials (env env' : Env) (today : time.Time)
    (htmlBody : list ascii) (fs : os.Files) :
  envToken env = [] ∨ envChatID env = [] ->
  statePathOf env' = statePathOf env ->
  runOnce env today htmlBody fs = ((runOnce env' today htmlBody fs).1, []).
Proof.
  intros Hc Hp. rewrite !runOnce_unfold, Hp. cbn [fst]. unfold processDays.
  destruct (processDays_credentials (envToken env) (envChatID env)
              (envToken env') (envChatID env')
              (parsePage htmlBody (datesToCheck today)).1
              (loadState fs (statePathOf env)).1 [] []) as [H1 H2].
  by rewrite H1, H2.
Qed.

Lemma runOnce_without_credentials_witness :
  runOnce (mkEnv [] [] (lit "-1001234567890")) sampleToday samplePage ∅
  = ((runOnce sampleEnv sampleToday samplePage ∅).1, []).
Proof.
  apply (runOnce_without_credentials (mkEnv [] [] (lit "-1001234567890"))
           sampleEnv sampleToday samplePage ∅).
  - left. reflexivity.
  - reflexivity.
Defined.

(** X10: the days of a run are handled independently: what is posted for a
    parsed day is what the loop posts for it against the state as it was
    loaded, whatever the other day did to the state; at most one message is
    posted for a day, so at most two in a run. *)
Theorem runOnce_posts_per_day (env : Env) (today : time.Time)
    (htmlBody : list ascii) (fs : os.Files) :
  validTime today -> 1 <= time.Year today <= 9998 ->
  (runOnce env today htmlBody fs).2
  = concat (announcement (envToken env) (envChatID env)
              (loadState fs (statePathOf env)).1
            <$> (parsePage htmlBody (datesToCheck today)).1)
  ∧ (length (runOnce env today htmlBody fs).2 <= 2)%nat.
Proof.
  intros Hv Hy.
  assert (E : (runOnce env today htmlBody fs).2
              = concat (announcement (envToken env) (envChatID env)
                          (loadState fs (statePathOf env)).1
                        <$> (parsePage htmlBody (datesToCheck today)).1)).
  { rewrite runOnce_unfold. cbn [snd]. unfold processDays.
    rewrite processDays_sent by (by apply parsed_NoDup). done. }
  split; [done |]. rewrite E.
  pose proof (sublist_length _ _ (parsePage_dates htmlBody (datesToCheck today)))
    as Hlen.
  rewrite !length_fmap in Hlen. cbn [datesToCheck length] in Hlen.
  revert Hlen. generalize (parsePage htmlBody (datesToCheck today)).1.
  intros parsed. 
  assert (Hb : (length (concat (announcement (envToken env) (envChatID env)
                          (loadState fs (statePathOf env)).1 <$> parsed))
                <= length parsed)%nat).
  { induction parsed as [|day parsed IH]; [done |].
    rewrite fmap_cons. cbn [concat]. rewrite length_app. cbn [length].
    pose proof (announcement_length (envToken env) (envChatID env)
                  (loadState fs (statePathOf env)).1 day). lia. }
  lia.
Qed.

Lemma runOnce_posts_per_day_witness :
  (length (runOnce sampleEnv sampleToday samplePage ∅).2 <= 2)%nat.
Proof.
  refine (proj2 (runOnce_posts_per_day sampleEnv sampleToday samplePage ∅
                   _ _)).
  - repeat split; by vm_compute.
  - cbn [time.Year sampleToday]. lia.
Defined.

(** ** A range whose start or end is not a time of day *)

Lemma Minutes_Sub_clockTime (m1 m2 m3 m4 : list ascii) :
  0 <= numberOf m1 -> 0 <= numberOf m2 -> 0 <= numberOf m3 ->
  0 <= numberOf m4 ->
  time.Minutes (time.Sub (clockTime m3 m4) (clockTime m1 m2))
  = minutesOf m3 m4 - minutesOf m1 m2.
Proof.
  intros H1 H2 H3 H4. unfold clockTime, minutesOf, clockMinutes.
  assert (Hday : time.daysFromCivil 1 1 1 = time.daysFromCivil 0 1 1 + 366)
    by (vm_compute; reflexivity).
  unfold time.Minutes, time.Sub, time.absMinutes.
  destruct (Z.ltb_spec (numberOf m1) 24), (Z.ltb_spec (numberOf m2) 60),
    (Z.ltb_spec (numberOf m3) 24), (Z.ltb_spec (numberOf m4) 60);
    cbn [andb time.zero time.Year time.Month time.Day time.Hour time.Minute];
    rewrite ?Hday;
    set (day := time.daysFromCivil 0 1 1);
    match goal with
    | |- context [(?a - ?b) * time.Minute_ns] =>
        match goal with
        | |- _ = ?r => replace (a - b) with r by lia
        end
    end;
    unfold time.minDuration, time.maxDuration, time.Minute_ns;
    change (2 ^ 63) with 9223372036854775808;
    (rewrite Z.min_r by lia); (rewrite Z.max_r by lia);
    by rewrite Z.quot_mul.
Qed.

(** X11: the minutes of a text with a range are, for any four pairs of
    digits, the difference of what [time.Parse] gives for the end and for
    the start, and a pair that is not a time of day counts as the zero time,
    527040 minutes after midnight: a range that ends at 24:00 and starts at
    20:00 yields 525840 minutes.  The result is never beyond 527040 either
    way. *)
Theorem outageMinutes_any_range :
  (forall text m1 m2 m3 m4 : list ascii,
      FirstRange text m1 m2 m3 m4 ->
      outageMinutes text = minutesOf m3 m4 - minutesOf m1 m2)
  ∧ (forall text : list ascii,
        FirstRange text (lit "20") (lit "00") (lit "24") (lit "00") ->
        outageMinutes text = 525840)
  ∧ (forall text : list ascii, -527040 <= outageMinutes text <= 527040).
Proof.
  assert (Hgen : forall text m1 m2 m3 m4 : list ascii,
             FirstRange text m1 m2 m3 m4 ->
             outageMinutes text = minutesOf m3 m4 - minutesOf m1 m2
             ∧ 0 <= minutesOf m1 m2 <= 527040
             ∧ 0 <= minutesOf m3 m4 <= 527040).
  { intros text m1 m2 m3 m4 HF.
    rewrite (outageMinutes_FirstRange _ _ _ _ _ HF).
    destruct HF as (before & s & _ & HR & _).
    destruct HR as (w1 & w2 & w3 & rest & _ & _ & _ & H1 & H2 & H3 & H4 & _).
    apply numberOf_range in H1, H2, H3, H4.
    split; [apply Minutes_Sub_clockTime; lia |].
    unfold minutesOf, clockMinutes.
    destruct (Z.ltb_spec (numberOf m1) 24), (Z.ltb_spec (numberOf m2) 60),
      (Z.ltb_spec (numberOf m3) 24), (Z.ltb_spec (numberOf m4) 60);
      cbn [andb]; lia. }
  split; [| split].
  - intros text m1 m2 m3 m4 HF. by destruct (Hgen _ _ _ _ _ HF).
  - intros text HF. by destruct (Hgen _ _ _ _ _ HF) as [-> _].
  - intros text. destruct (range_cases text) as [HN | (m1 & m2 & m3 & m4 & HF)].
    + rewrite outageMinutes_NoRange by done. lia.
    + destruct (Hgen _ _ _ _ _ HF) as (-> & ? & ?). lia.
Qed.

Lemma outageMinutes_any_range_witness :
  outageMinutes (lit "Електроенергії немає з 20:00 до 24:00") = 525840.
Proof.
  apply (proj1 (proj2 outageMinutes_any_range)).
  apply find_FirstRange. vm_compute. reflexivity.
Defined.

(** ** The day and month of a title *)

Lemma Parse_2006_01_02_Some (date : list ascii) (t : time.Time) :
  time.Parse_2006_01_02 date = Some t ->
  1 <= time.Month t <= 12 ∧ 1 <= time.Day t <= 31.
Proof.
  unfold time.Parse_2006_01_02. intros H.
  destruct (time.getyear date) as [[year v1]|]; [| done].
  cbn in H. destruct (time.expect _ v1) as [v2|]; [| done].
  cbn in H. destruct (time.getnum v2 true) as [[month v3]|]; [| done].
  cbn in H. destruct (time.expect _ v3) as [v4|]; [| done].
  cbn in H. destruct (time.getnum v4 true) as [[day v5]|]; [| done].
  cbn in H. destruct v5; [| done].
  destruct (_ && _) eqn:E; [| done]. injection H as <-.
  cbn [time.Month time.Day time.Year].
  rewrite !andb_true_iff, !Z.leb_le in E.
  pose proof (daysIn_le_31 month year). lia.
Qed.

(** X12: [toDM] always gives two digits, a period and two digits: a day from
    01 to 31 and a month from 01 to 12; for a string that is not a date
    [time.Parse] leaves the zero time, and the result is 01.01. *)
Theorem toDM_shape (date : list ascii) :
  (exists d m : Z, 1 <= d <= 31 ∧ 1 <= m <= 12
     ∧ toDM date = twoDigitsOf d ++ lit "." ++ twoDigitsOf m)
  ∧ (time.Parse_2006_01_02 date = None -> toDM date = lit "01.01").
Proof.
  unfold toDM. destruct (time.Parse_2006_01_02 date) as [t|] eqn:E.
  - split; [| done]. apply Parse_2006_01_02_Some in E as [Hm Hd].
    exists (time.Day t), (time.Month t). split; [done |]. split; [done |].
    unfold default, id. cbn [from_option]. unfold time.Format_02_01.
    by rewrite !appendInt_two by lia.
  - split; [| done]. exists 1, 1. repeat split; try lia.
Qed.

Lemma toDM_shape_witness : toDM (lit "12.12.2025") = lit "01.01".
Proof.
  apply (proj2 (toDM_shape (lit "12.12.2025"))). reflexivity.
Defined.

(** ** What the state file keeps of a state *)

Lemma runeWidth_coerced (c : ascii) (s : list ascii) (w : nat) :
  json.runeWidth (c :: s) = Some w ->
  json.runeWidth (c :: json.coerceFrom (w - 1) s) = Some w.
Proof.
  unfold json.runeWidth.
  repeat (case_match; try discriminate); intros [= <-]; subst;
    cbn [Nat.sub json.coerceFrom] in *; simplify_eq; try done;
    repeat match goal with
      | H : ?b = true, H' : ?b = false |- _ => rewrite H in H'; discriminate H'
      end.
Qed.

Lemma validFrom_coerceFrom (s : list ascii) :
  forall k : nat, json.validFrom k (json.coerceFrom k s) = true.
Proof.
  induction s as [|c s IH]; intros k; [done |].
  cbn [json.coerceFrom]. destruct k as [|k].
  - destruct (json.runeWidth (c :: s)) as [w|] eqn:E.
    + cbn [json.validFrom]. rewrite (runeWidth_coerced _ _ _ E). apply IH.
    + change (json.validFrom 0 (json.replacement ++ json.coerceFrom 0 s))
        with (json.validFrom 0 (json.coerceFrom 0 s)). apply IH.
  - cbn [json.validFrom]. apply IH.
Qed.

Lemma unmarshal_marshal_GroupInfo_coerced (g : GroupInfo) :
  unmarshalGroupInfo (marshalGroupInfo g) = (coerceGroupInfo g, false).
Proof.
  unfold unmarshalGroupInfo, marshalGroupInfo.
  rewrite lookup_insert_eq. cbn [unmarshalString].
  rewrite lookup_insert_ne by discriminate.
  by rewrite lookup_insert_eq.
Qed.

Lemma unmarshal_marshal_Groups_coerced (groups : gmap (list ascii) GroupInfo) :
  map_Forall (fun k (_ : GroupInfo) => json.ValidString k = true) groups ->
  unmarshalGroups (Some (marshalGroups groups))
  = (coerceGroupInfo <$> groups, false).
Proof.
  intros Hv.
  assert (Hm : marshalGroups groups = json.Object (marshalGroupInfo <$> groups)).
  { unfold marshalGroups. f_equal.
    rewrite <- (list_to_map_to_list (marshalGroupInfo <$> groups)).
    rewrite map_to_list_fmap. f_equal.
    apply list_fmap_ext. intros i [k g] Hi.
    apply list_elem_of_lookup_2, elem_of_map_to_list in Hi.
    pose proof (Hv k g Hi) as Hk. simpl in Hk |- *.
    by rewrite toValidUTF8_valid. }
  rewrite Hm. unfold unmarshalGroups.
  assert (Hdec : unmarshalGroupInfo <$> (marshalGroupInfo <$> groups)
                 = (fun g => (coerceGroupInfo g, false)) <$> groups).
  { rewrite <- map_fmap_compose. apply map_fmap_ext. intros k g Hk.
    simpl. apply unmarshal_marshal_GroupInfo_coerced. }
  rewrite Hdec. f_equal.
  - rewrite <- map_fmap_compose. by apply map_fmap_ext.
  - apply bool_decide_eq_false_2. intros (k & [g b] & Hk & Hb).
    rewrite lookup_fmap in Hk. destruct (groups !! k); simpl in *; [| done].
    injection Hk as <- <-. done.
Qed.

Lemma unmarshal_marshal_DayInfo_coerced (d : DayInfo) :
  map_Forall (fun k (_ : GroupInfo) => json.ValidString k = true) (Groups d) ->
  unmarshalDayInfo (marshalDayInfo d) = (coerceDayInfo d, false).
Proof.
  intros Hgroups. unfold unmarshalDayInfo, marshalDayInfo.
  rewrite lookup_insert_eq. cbn [unmarshalString].
  rewrite lookup_insert_ne by discriminate.
  by rewrite lookup_insert_eq, unmarshal_marshal_Groups_coerced.
Qed.

Lemma unmarshal_marshal_State_coerced (st : State) :
  ValidLabels st -> unmarshalState (marshalState st) = (coerceState st, None).
Proof.
  intros Hv. unfold unmarshalState, marshalState, coerceState.
  rewrite lookup_insert_eq. destruct st as [days].
  unfold ValidLabels in Hv. cbn [Days] in *.
  destruct days as [|d days]; [done |].
  unfold unmarshalDays.
  assert (E : unmarshalDayInfo <$> (marshalDayInfo <$> d :: days)
              = (fun x => (coerceDayInfo x, false)) <$> d :: days).
  { revert Hv. generalize (d :: days). intros l.
    induction 1 as [|x l Hx _ IH]; [done |].
    rewrite !fmap_cons, IH. by rewrite unmarshal_marshal_DayInfo_coerced. }
  rewrite E, <- list_fmap_compose.
  replace (existsb snd ((fun x : DayInfo => (coerceDayInfo x, false))
                          <$> d :: days)) with false.
  - done.
  - symmetry. generalize (d :: days). intros l. by induction l.
Qed.

Lemma coerceState_valid (st : State) :
  ValidLabels st -> ValidState (coerceState st).
Proof.
  unfold ValidLabels, ValidState, coerceState. cbn [Days].
  intros Hv. apply Forall_fmap. eapply Forall_impl; [exact Hv |].
  intros d Hd. split; cbn [Date Groups coerceDayInfo].
  - apply validFrom_coerceFrom.
  - intros k g Hk. apply lookup_fmap_Some in Hk as (g0 & <- & Hk).
    split; [exact (Hd k g0 Hk) | apply validFrom_coerceFrom].
Qed.

Lemma coerceState_id (st : State) :
  ValidState st -> coerceState st = st.
Proof.
  intros Hv. apply State_eq. unfold coerceState, ValidState in *.
  cbn [Days]. induction Hv as [|d l [Hd Hg] _ IH]; [done |].
  rewrite fmap_cons, IH. f_equal.
  unfold coerceDayInfo. rewrite toValidUTF8_valid by done.
  destruct d as [date groups]. cbn [Date Groups] in *. f_equal.
  rewrite <- (map_fmap_id groups) at 2. apply map_fmap_ext.
  intros k g Hk. destruct (Hg k g Hk) as [_ Ht].
  unfold coerceGroupInfo. rewrite toValidUTF8_valid by done.
  by destruct g.
Qed.

(** X13: for a state whose group labels are valid UTF-8, as the tracked
    labels are, a save that returns without error followed by a load reports
    no error and gives the state with every date and every text coerced to
    valid UTF-8: the same days in the same order with the same groups and
    minutes.  That state is valid UTF-8, so from then on saving and loading
    give it back as it is. *)
Theorem save_then_load_coerced (path : list ascii) (st : State)
    (fs fs' : os.Files) :
  ValidLabels st ->
  saveState path st fs fs' (os.Returned None) ->
  loadState fs' path = (coerceState st, None)
  ∧ ValidState (coerceState st)
  ∧ coerceState (coerceState st) = coerceState st.
Proof.
  intros Hv Hsave. apply saveState_outcomes in Hsave.
  split; [| split].
  - unfold loadState, os.ReadFile. rewrite Hsave.
    by apply unmarshal_marshal_State_coerced.
  - by apply coerceState_valid.
  - by apply coerceState_id, coerceState_valid.
Qed.

Lemma save_then_load_coerced_witness :
  exists fs', loadState fs' samplePath = (coerceState brokenState, None).
Proof.
  eexists.
  apply (save_then_load_coerced samplePath brokenState ∅).
  - unfold ValidLabels.
    replace (Days brokenState)
      with [ mkDayInfo (lit "2025-12-12")
               {[ groupPower := mkGroupInfo (lit "Немає " ++ [byte 255]) 0 ]} ]
      by (vm_compute; reflexivity).
    constructor; [| constructor]. cbn [Groups].
    apply map_Forall_singleton. reflexivity.
  - apply saveState_completes.
Defined.

(** ** Extraction on a page of the expected layout *)

(** A greedy star that can stop where the class ends, with success there,
    succeeds with that result: the longest run is tried first. *)
Lemma starGreedy_longest (p : ascii -> bool) (k : list ascii -> option regexp.Caps)
    (w rest : list ascii) (m : regexp.Caps) :
  Forall (fun c => p c = true) w -> stopsAt p rest -> k rest = Some m ->
  regexp.starGreedy p k (w ++ rest) = Some m.
Proof.
  intros Hw Hstop Hk. induction Hw as [|c w Hc _ IH].
  - cbn [app]. destruct rest as [|c rest]; [done |].
    cbn [stopsAt] in Hstop. cbn [regexp.starGreedy]. by rewrite Hstop.
  - cbn [app regexp.starGreedy]. by rewrite Hc, IH.
Qed.

Lemma starGreedy_Some_class (p : ascii -> bool)
    (k : list ascii -> option regexp.Caps) (s : list ascii) (m : regexp.Caps) :
  regexp.starGreedy p k s = Some m ->
  exists w s', Forall (fun c => p c = true) w ∧ s = w ++ s' ∧ k s' = Some m.
Proof.
  induction s as [|c s IH]; cbn [regexp.starGreedy].
  - intros H. by exists [], [].
  - destruct (p c) eqn:Hc.
    + destruct (regexp.starGreedy p k s) as [m'|] eqn:E.
      * intros [= <-]. destruct (IH eq_refl) as (w & s' & Hw & -> & Hk).
        exists (c :: w), s'. split; [by constructor | done].
      * intros H. by exists [], (c :: s).
    + intros H. by exists [], (c :: s).
Qed.

Lemma run_Plus_Some (k : list ascii -> regexp.Caps -> option regexp.Caps)
    (s : list ascii) (caps m : regexp.Caps) :
  regexp.run (regexp.Plus regexp.space) k s caps = Some m ->
  exists w s', Spaces w ∧ s = w ++ s' ∧ k s' caps = Some m.
Proof.
  unfold regexp.Plus. cbn [regexp.run]. destruct s as [|c s]; [done |].
  destruct (regexp.space c) eqn:Hc; [| done]. intros H.
  apply starGreedy_Some_class in H as (w & s' & Hw & -> & Hk).
  exists (c :: w), s'. split; [| done]. split; [done | by constructor].
Qed.

(** The lazy star stops at the first place where what follows matches. *)
Lemma starLazy_first (p : ascii -> bool) (k : list ascii -> option regexp.Caps)
    (w rest : list ascii) (m : regexp.Caps) :
  Forall (fun c => p c = true) w ->
  (forall w1 w2, w = w1 ++ w2 -> w2 ≠ [] -> k (w2 ++ rest) = None) ->
  k rest = Some m ->
  regexp.starLazy p k (w ++ rest) = Some m.
Proof.
  intros Hw. induction Hw as [|c w Hc _ IH]; intros Hnone Hk.
  - cbn [app]. destruct rest; cbn [regexp.starLazy]; by rewrite Hk.
  - pose proof (Hnone [] (c :: w) eq_refl ltac:(done)) as H0.
    cbn [app] in H0 |- *. cbn [regexp.starLazy]. rewrite H0, Hc.
    apply IH; [| done]. intros w1 w2 -> Hw2.
    by apply (Hnone (c :: w1) w2).
Qed.

Lemma run_Group r k (s : list ascii) (caps : regexp.Caps) :
  regexp.run (regexp.Group r) k s caps
  = regexp.run r
      (fun s' caps' => k s' (caps' ++ [take (length s - length s')%nat s]))
      s caps.
Proof. reflexivity. Qed.

Lemma run_LazyStar p k (s : list ascii) (caps : regexp.Caps) :
  regexp.run (regexp.LazyStar p) k s caps
  = regexp.starLazy p (fun s' => k s' caps) s.
Proof. reflexivity. Qed.

Lemma run_Star p k (s : list ascii) (caps : regexp.Caps) :
  regexp.run (regexp.Star p) k s caps
  = regexp.starGreedy p (fun s' => k s' caps) s.
Proof. reflexivity. Qed.

Lemma run_Alt r1 r2 k (s : list ascii) (caps : regexp.Caps) :
  regexp.run (regexp.Alt r1 r2) k s caps
  = match regexp.run r1 k s caps with
    | Some m => Some m
    | None => regexp.run r2 k s caps
    end.
Proof. reflexivity. Qed.

Ltac flatten_cat :=
  repeat change (regexp.run (regexp.Cat ?r1 ?r2) ?k)
    with (regexp.run r1 (regexp.run r2 k)).

Lemma run_digit_digit (k : list ascii -> regexp.Caps -> option regexp.Caps)
    (s : list ascii) (caps : regexp.Caps) :
  regexp.run (regexp.Class regexp.digit)
    (regexp.run (regexp.Class regexp.digit) k) s caps
  = match digits2 s with
    | Some (_, s') => k s' caps
    | None => None
    end.
Proof.
  destruct s as [|a [|b s]]; cbn [regexp.run digits2]; [done | |].
  - by destruct (regexp.digit a).
  - by destruct (regexp.digit a), (regexp.digit b).
Qed.

Lemma run_anyDate (k : list ascii -> regexp.Caps -> option regexp.Caps)
    (s : list ascii) (caps : regexp.Caps) :
  regexp.run anyDate k s caps
  = match digits2 s with
    | Some (_, s1) =>
        match time.expect (lit ".") s1 with
        | Some s2 =>
            match digits2 s2 with
            | Some (_, s3) =>
                match time.expect (lit ".") s3 with
                | Some s4 =>
                    match digits2 s4 with
                    | Some (_, s5) =>
                        match digits2 s5 with
                        | Some (_, s6) => k s6 caps
                        | None => None
                        end
                    | None => None
                    end
                | None => None
                end
            | None => None
            end
        | None => None
        end
    | None => None
    end.
Proof.
  unfold anyDate. cbn [regexp.Seq]. flatten_cat.
  rewrite run_digit_digit. destruct (digits2 s) as [[d1 s1]|]; [| done].
  rewrite run_Chr. change [("."%char)] with (lit ".").
  destruct (time.expect (lit ".") s1) as [s2|]; [| done].
  rewrite run_digit_digit.
  destruct (digits2 s2) as [[d2 s3]|]; [| done].
  rewrite run_Chr. change [("."%char)] with (lit ".").
  destruct (time.expect (lit ".") s3) as [s4|]; [| done].
  rewrite run_digit_digit.
  destruct (digits2 s4) as [[d3 s5]|]; [| done].
  by rewrite run_digit_digit.
Qed.

Lemma anyDate_Some (k : list ascii -> regexp.Caps -> option regexp.Caps)
    (s : list ascii) (caps m : regexp.Caps) :
  regexp.run anyDate k s caps = Some m ->
  exists t s', DateTitle t ∧ s = t ++ s' ∧ k s' caps = Some m.
Proof.
  rewrite run_anyDate.
  destruct (digits2 s) as [[d1 s1]|] eqn:E1; [| done].
  destruct (time.expect (lit ".") s1) as [s2|] eqn:E2; [| done].
  destruct (digits2 s2) as [[d2 s3]|] eqn:E3; [| done].
  destruct (time.expect (lit ".") s3) as [s4|] eqn:E4; [| done].
  destruct (digits2 s4) as [[d3 s5]|] eqn:E5; [| done].
  destruct (digits2 s5) as [[d4 s6]|] eqn:E6; [| done].
  intros Hk.
  apply digits2_Some in E1 as [H1 ->]. apply expect_Some in E2 as ->.
  apply digits2_Some in E3 as [H2 ->]. apply expect_Some in E4 as ->.
  apply digits2_Some in E5 as [H3 ->]. apply digits2_Some in E6 as [H4 ->].
  exists (d1 ++ lit "." ++ d2 ++ lit "." ++ d3 ++ d4), s6.
  split; [by exists d1, d2, d3, d4 |]. split; [| done].
  by rewrite <- !app_assoc.
Qed.

Lemma anyDate_app (k : list ascii -> regexp.Caps -> option regexp.Caps)
    (t s' : list ascii) (caps : regexp.Caps) :
  DateTitle t -> regexp.run anyDate k (t ++ s') caps = k s' caps.
Proof.
  intros (d1 & d2 & d3 & d4 & H1 & H2 & H3 & H4 & ->).
  rewrite run_anyDate, <- !app_assoc.
  rewrite digits2_app, expect_app, digits2_app, expect_app by done.
  by rewrite digits2_app, digits2_app by done.
Qed.

Lemma DateTitle_first (t : list ascii) :
  DateTitle t -> exists c t', t = c :: t' ∧ regexp.space c = false
                               ∧ regexp.digit c = true.
Proof.
  intros (d1 & d2 & d3 & d4 & (a & b & -> & Ha & Hb) & _ & _ & _ & ->).
  exists a, ([b] ++ lit "." ++ d2 ++ lit "." ++ d3 ++ d4).
  split; [done |]. split; [| done].
  destruct (regexp.space a) eqn:E; [| done].
  apply space_not_digit in E. congruence.
Qed.

(** The header of any date, read by the pattern. *)
Lemma nextHeader_Some (open close : list ascii)
    (k : list ascii -> regexp.Caps -> option regexp.Caps)
    (s : list ascii) (caps m : regexp.Caps) :
  regexp.run (nextHeader open close) k s caps = Some m ->
  AnyHeaderAt open close s.
Proof.
  unfold nextHeader. cbn [regexp.Seq]. rewrite run_Cat, run_Lit.
  destruct (time.expect (open ++ header) s) as [s1|] eqn:E1; [| done].
  apply expect_Some in E1 as ->. rewrite run_Cat. intros H.
  apply run_Plus_Some in H as (w & s2 & Hw & -> & H).
  rewrite run_Cat in H. apply anyDate_Some in H as (t & s3 & Ht & -> & H).
  rewrite run_Lit in H.
  destruct (time.expect close s3) as [s4|] eqn:E4; [| done].
  apply expect_Some in E4 as ->.
  exists t. split; [done |]. exists w, s4. split; [done |].
  by rewrite <- !app_assoc.
Qed.

Lemma nextHeader_app (open close : list ascii)
    (k : list ascii -> regexp.Caps -> option regexp.Caps)
    (w t rest : list ascii) (caps : regexp.Caps) :
  Spaces w -> DateTitle t ->
  regexp.run (nextHeader open close) k
    (open ++ header ++ w ++ t ++ close ++ rest) caps
  = k rest caps.
Proof.
  intros Hw Ht. unfold nextHeader. cbn [regexp.Seq].
  rewrite run_Cat, run_Lit.
  replace (open ++ header ++ w ++ t ++ close ++ rest)
    with ((open ++ header) ++ w ++ t ++ close ++ rest)
    by (by rewrite <- app_assoc).
  rewrite expect_app, run_Cat, run_Plus_space.
  - destruct (DateTitle_first t Ht) as (c & t' & Et & Hc & _).
    rewrite spaces1_app; [| done | by rewrite Et].
    by rewrite run_Cat, anyDate_app, run_Lit, expect_app.
  - intros c s' Hc. rewrite run_Cat, run_anyDate.
    destruct s' as [|b s']; cbn [digits2]; [done |].
    by rewrite (space_not_digit c Hc).
Qed.

Lemma AnyHeaderAt_matchHere (open close s : list ascii) :
  AnyHeaderAt open close s
  <-> regexp.matchHere (nextHeader open close) s = Some [].
Proof.
  split.
  - intros (t & Ht & w & rest & Hw & ->). unfold regexp.matchHere.
    by rewrite nextHeader_app.
  - apply nextHeader_Some.
Qed.

(** The header of the date that is looked for, read by the pattern. *)
Lemma sectionPattern_Some (open close title s : list ascii) (m : regexp.Caps) :
  regexp.matchHere (sectionPattern open close title) s = Some m ->
  HeaderAt open close title s.
Proof.
  unfold regexp.matchHere, sectionPattern. cbn [regexp.Seq].
  rewrite run_Cat, run_Lit.
  destruct (time.expect (open ++ header) s) as [s1|] eqn:E1; [| done].
  apply expect_Some in E1 as ->. rewrite run_Cat. intros H.
  apply run_Plus_Some in H as (w & s2 & Hw & -> & H).
  rewrite run_Cat, run_Lit in H.
  destruct (time.expect title s2) as [s3|] eqn:E3; [| done].
  apply expect_Some in E3 as ->. rewrite run_Cat, run_Lit in H.
  destruct (time.expect close s3) as [s4|] eqn:E4; [| done].
  apply expect_Some in E4 as ->.
  exists w, s4. split; [done |]. by rewrite <- !app_assoc.
Qed.

Lemma sectionPattern_app (open close title w content tail : list ascii) :
  Spaces w -> DateTitle title ->
  (forall c1 c2, content = c1 ++ c2 -> c2 ≠ [] ->
     ¬ AnyHeaderAt open close (c2 ++ tail)) ->
  tail = [] ∨ AnyHeaderAt open close tail ->
  regexp.matchHere (sectionPattern open close title)
    (open ++ header ++ w ++ title ++ close ++ content ++ tail)
  = Some [content].
Proof.
  intros Hw Ht Hcontent Htail.
  unfold regexp.matchHere, sectionPattern. cbn [regexp.Seq].
  rewrite run_Cat, run_Lit.
  replace (open ++ header ++ w ++ title ++ close ++ content ++ tail)
    with ((open ++ header) ++ w ++ title ++ close ++ content ++ tail)
    by (by rewrite <- app_assoc).
  destruct (DateTitle_first title Ht) as (c & t' & Et & Hc & _).
  rewrite expect_app, run_Cat, run_Plus_space.
  2:{ intros x s' Hx. rewrite run_Cat, Et. by apply Lit_after_space. }
  rewrite spaces1_app; [| done | by rewrite Et].
  rewrite run_Cat, run_Lit, expect_app, run_Cat, run_Lit, expect_app.
  rewrite run_Cat, run_Group, run_LazyStar.
  change (regexp.Cat (regexp.Lit (open ++ header))
            (regexp.Cat (regexp.Plus regexp.space)
               (regexp.Cat anyDate (regexp.Lit close))))
    with (nextHeader open close).
  apply starLazy_first.
  - apply Forall_forall. done.
  - intros c1 c2 -> Hc2. cbn beta. rewrite run_Alt.
    destruct (regexp.run (nextHeader open close) _ _ _) as [m|] eqn:E.
    + exfalso. apply (Hcontent c1 c2 eq_refl Hc2).
      by apply (nextHeader_Some _ _ _ _ _ _ E).
    + destruct c2; done.
  - assert (Hcap : take (length (content ++ tail) - length tail)
                     (content ++ tail) = content).
    { rewrite length_app.
      replace (length content + length tail - length tail)%nat
        with (length content) by lia.
      apply take_app_length. }
    cbn beta. rewrite Hcap, run_Alt. cbn [app].
    destruct Htail as [-> | (t & Ht' & w' & rest & Hw' & ->)].
    + replace (regexp.run (nextHeader open close)
                 (fun _ caps => Some caps) [] [content])
        with (@None regexp.Caps); [done |].
      symmetry. unfold nextHeader. cbn [regexp.Seq]. rewrite run_Cat, run_Lit.
      unfold time.expect, header. destruct open; reflexivity.
    + by rewrite nextHeader_app.
Qed.

Lemma find_section (open close title body content : list ascii) :
  DateTitle title -> SectionOf open close title body content ->
  regexp.FindStringSubmatch (sectionPattern open close title) body
  = Some [content].
Proof.
  intros Ht (pre & w & tail & Hw & -> & Hpre & Hcontent & Htail).
  apply FindStringSubmatch_Some.
  exists pre, (open ++ header ++ w ++ title ++ close ++ content ++ tail).
  split; [done |]. split; [by apply sectionPattern_app |].
  intros b1 b2 -> Hb2.
  destruct (regexp.matchHere _ _) as [m|] eqn:E; [| done].
  exfalso. apply (Hpre b1 b2 eq_refl Hb2).
  by apply (sectionPattern_Some _ _ _ _ _ E).
Qed.

Lemma find_no_section (open close title body : list ascii) :
  (forall before t, body = before ++ t -> ¬ HeaderAt open close title t) ->
  regexp.FindStringSubmatch (sectionPattern open close title) body = None.
Proof.
  intros H. apply FindStringSubmatch_None. intros before t ->.
  destruct (regexp.matchHere _ t) as [m|] eqn:E; [| done].
  exfalso. apply (H before t eq_refl).
  by apply (sectionPattern_Some _ _ _ _ _ E).
Qed.

(** X14: on a page where the header of the date stands in bold, the section
    that [extractSection] returns is the text after the first such header,
    up to the next bold header of any date, or up to the end of the page
    when none follows.  A page without bold header of the date is read the
    same way by the plain headers; and a page without any header of the date
    gives the empty section. *)
Theorem extractSection_layout (body title : list ascii) :
  DateTitle title ->
  (forall content,
      SectionOf (lit "<b>") (lit "</b>") title body content ->
      extractSection body title = content)
  ∧ (forall content,
        (forall before t, body = before ++ t ->
           ¬ HeaderAt (lit "<b>") (lit "</b>") title t) ->
        SectionOf [] [] title body content ->
        extractSection body title = content)
  ∧ ((forall before t, body = before ++ t -> ¬ HeaderAt [] [] title t) ->
     extractSection body title = []).
Proof.
  intros Ht. split; [| split].
  - intros content Hs. unfold extractSection.
    by rewrite (find_section _ _ _ _ _ Ht Hs).
  - intros content Hno Hs. unfold extractSection.
    rewrite (find_no_section _ _ _ _ Hno). cbn [submatch1].
    by rewrite (find_section _ _ _ _ _ Ht Hs).
  - intros Hno. unfold extractSection.
    rewrite find_no_section, find_no_section; [done | done |].
    intros before t -> (w & rest & Hw & ->).
    apply (Hno (before ++ lit "<b>")
             (header ++ w ++ title ++ lit "</b>" ++ rest)).
    + by rewrite <- app_assoc.
    + exists w, (lit "</b>" ++ rest). done.
Qed.

Lemma extractSection_layout_witness :
  extractSection samplePage (lit "12.12.2025")
  = lit "<p>Група 4.1. Електроенергія є.</p><p>Група 6.1. Електроенергії немає з 08:00 до 11:30.</p>".
Proof.
  apply (proj1 (extractSection_layout samplePage (lit "12.12.2025")
                  ltac:(exists (lit "12"), (lit "12"), (lit "20"), (lit "25");
                        repeat split; eexists _, _; repeat split))).
  exists [], (lit " "), []. split; [| split; [| split; [| split]]].
  - split; [done |]. by constructor.
  - reflexivity.
  - intros p1 p2 E Hp2. by destruct p1, p2.
  - intros c1 c2 E Hc2 H. apply AnyHeaderAt_matchHere in H.
    assert (Hnone : regexp.FindStringSubmatch (nextHeader (lit "<b>") (lit "</b>"))
                      (lit "<p>Група 4.1. Електроенергія є.</p><p>Група 6.1. Електроенергії немає з 08:00 до 11:30.</p>")
                    = None) by (vm_compute; reflexivity).
    rewrite FindStringSubmatch_None in Hnone.
    rewrite app_nil_r in H. rewrite (Hnone c1 c2 E) in H. discriminate H.
  - by left.
Defined.

(** ** The sentence of a group *)

Lemma TrimSpace_nonempty_entries :
  Forall (fun w : list ascii => w ≠ []) strings.spaceRunes
  ∧ Forall (fun w : list ascii => w ≠ []) (map reverse strings.spaceRunes).
Proof. split; by_computation. Qed.

Lemma leading_prefix (table : list (list ascii)) (s rest : list ascii) :
  strings.leading table (s ++ rest) = None -> strings.leading table s = None.
Proof.
  induction table as [|w table IH]; [done |]. cbn [strings.leading].
  destruct (strings.HasPrefix (s ++ rest) w) eqn:E; [done |].
  destruct (strings.HasPrefix s w) eqn:E'; [| done].
  apply HasPrefix_true in E' as (r & ->).
  rewrite <- app_assoc, HasPrefix_app in E. discriminate E.
Qed.

Lemma trimLeftN_fixed (n : nat) (table : list (list ascii)) (s : list ascii) :
  strings.leading table s = None -> strings.trimLeftN n table s = s.
Proof. intros H. destruct n; [done |]. cbn [strings.trimLeftN]. by rewrite H. Qed.

Lemma trimLeftN_suffix (table : list (list ascii)) (n : nat) :
  forall s : list ascii,
    Forall (fun w : list ascii => w ≠ []) table -> (length s <= n)%nat ->
    exists pre, s = pre ++ strings.trimLeftN n table s
                ∧ strings.leading table (strings.trimLeftN n table s) = None.
Proof.
  induction n as [|n IH]; intros s Ht Hn.
  - destruct s; [| simpl in Hn; lia]. exists []. split; [done |].
    cbn [strings.trimLeftN]. induction Ht as [|w table Hw _ IHt]; [done |].
    cbn [strings.leading]. destruct w; [done |]. apply IHt.
  - cbn [strings.trimLeftN].
    destruct (strings.leading table s) as [k|] eqn:E.
    + destruct (leading_Some _ _ _ E) as (w & Hw & -> & Hs).
      rewrite Forall_forall in Ht. pose proof (Ht w Hw) as Hne.
      destruct (IH (drop (length w) s)) as (pre & Hpre & Hl).
      * by apply Forall_forall.
      * rewrite length_drop. destruct w; [done |]. cbn [length]. lia.
      * exists (w ++ pre). split; [| done].
        rewrite <- app_assoc, <- Hpre. exact Hs.
    + exists []. by split.
Qed.

Lemma TrimSpace_trimmed (s : list ascii) :
  strings.leading strings.spaceRunes (strings.TrimSpace s) = None
  ∧ strings.leading (map reverse strings.spaceRunes)
      (reverse (strings.TrimSpace s)) = None.
Proof.
  destruct TrimSpace_nonempty_entries as [Ht Hr].
  unfold strings.TrimSpace, strings.trimRight, strings.trimLeft.
  destruct (trimLeftN_suffix strings.spaceRunes (length s) s Ht (le_n _))
    as (pre & _ & Hl).
  set (s1 := strings.trimLeftN (length s) strings.spaceRunes s) in *.
  destruct (trimLeftN_suffix (map reverse strings.spaceRunes)
              (length (reverse s1)) (reverse s1) Hr (le_n _))
    as (post & Hpost & Hl2).
  set (r := strings.trimLeftN (length (reverse s1))
              (map reverse strings.spaceRunes) (reverse s1)) in *.
  split; [| by rewrite reverse_involutive].
  assert (Hs1 : s1 = reverse r ++ reverse post).
  { apply (f_equal reverse) in Hpost.
    by rewrite reverse_involutive, reverse_app in Hpost. }
  rewrite Hs1 in Hl. by apply leading_prefix in Hl.
Qed.

(** [TrimSpace] applied twice is [TrimSpace]. *)
Lemma TrimSpace_idem (s : list ascii) :
  strings.TrimSpace (strings.TrimSpace s) = strings.TrimSpace s.
Proof.
  destruct (TrimSpace_trimmed s) as [Hl Hr].
  generalize dependent (strings.TrimSpace s). intros r Hl Hr.
  unfold strings.TrimSpace, strings.trimRight, strings.trimLeft.
  rewrite (trimLeftN_fixed _ _ r) by done.
  rewrite trimLeftN_fixed by done. apply reverse_involutive.
Qed.

Lemma normalizeText_TrimSpace (s : list ascii) :
  normalizeText (strings.TrimSpace s) = normalizeText s.
Proof. unfold normalizeText. by rewrite TrimSpace_idem. Qed.

Lemma run_Opt r k (s : list ascii) (caps : regexp.Caps) :
  regexp.run (regexp.Opt r) k s caps
  = match regexp.run r k s caps with
    | Some m => Some m
    | None => k s caps
    end.
Proof. reflexivity. Qed.

Lemma notDot_dot : regexp.notDot "." = false.
Proof. reflexivity. Qed.

Lemma space_dot : regexp.space "." = false.
Proof. reflexivity. Qed.

(** The group of the pattern, at a sentence closed by a period. *)
Lemma sentence_capture (sentence rest : list ascii) (caps : regexp.Caps) :
  Forall (fun c => regexp.notDot c = true) sentence ->
  regexp.run
    (regexp.Group (regexp.Cat (regexp.Star regexp.notDot) (regexp.Chr ".")))
    (fun _ caps => Some caps) (sentence ++ lit "." ++ rest) caps
  = Some (caps ++ [sentence ++ lit "."]).
Proof.
  intros Hs. rewrite run_Group, run_Cat, run_Star.
  apply starGreedy_longest; [done | apply notDot_dot |].
  rewrite run_Chr. change (lit "." ++ rest) with ([("."%char)] ++ rest).
  rewrite expect_app. do 3 f_equal.
  rewrite !length_app.
  replace (length sentence + (length [("."%char)] + length rest) - length rest)%nat
    with (length (sentence ++ [("."%char)]))
    by (rewrite length_app; lia).
  rewrite app_assoc. apply take_app_length.
Qed.

(** What follows the label, when the sentence is there. *)
Lemma groupPattern_sentence (group a ws sentence rest : list ascii) :
  Forall (fun c => regexp.notDot c = true) a ->
  Forall (fun c => regexp.space c = true) ws ->
  Forall (fun c => regexp.notDot c = true) sentence ->
  stopsAt regexp.space sentence ->
  regexp.matchHere (groupPattern group)
    (group ++ a ++ lit "." ++ ws ++ sentence ++ lit "." ++ rest)
  = Some [sentence ++ lit "."].
Proof.
  intros Ha Hws Hs Hstop. unfold regexp.matchHere, groupPattern.
  cbn [regexp.Seq]. rewrite run_Cat, run_Lit, expect_app.
  rewrite run_Cat, run_Star.
  apply starGreedy_longest; [done | apply notDot_dot |].
  rewrite run_Cat, run_Opt, run_Chr.
  change (lit "." ++ ws ++ sentence ++ lit "." ++ rest)
    with ([("."%char)] ++ ws ++ sentence ++ lit "." ++ rest).
  rewrite expect_app.
  assert (E : regexp.run
                (regexp.Cat (regexp.Star regexp.space)
                   (regexp.Group
                      (regexp.Cat (regexp.Star regexp.notDot) (regexp.Chr "."))))
                (fun _ caps => Some caps)
                (ws ++ sentence ++ lit "." ++ rest) []
              = Some [sentence ++ lit "."]).
  { rewrite run_Cat, run_Star. apply starGreedy_longest; [done | |].
    - destruct sentence; [apply space_dot | exact Hstop].
    - by rewrite sentence_capture. }
  by rewrite E.
Qed.

Lemma groupPattern_no_label (group s : list ascii) :
  strings.HasPrefix s group = false ->
  regexp.matchHere (groupPattern group) s = None.
Proof.
  intros H. unfold regexp.matchHere, groupPattern. cbn [regexp.Seq].
  rewrite run_Cat, run_Lit. unfold time.expect. by rewrite H.
Qed.

(** X15: in a section where the first occurrence of the label of a group is
    followed by a text without period, a period, white space and a sentence
    without period that is closed by a period, [extractGroup] returns that
    sentence with its period, trimmed; the group is recorded with the
    normalized sentence and its minutes. *)
Theorem extractGroup_layout (section group sentence : list ascii) :
  SentenceOf group section sentence ->
  extractGroup section group = strings.TrimSpace (sentence ++ lit ".")
  ∧ extractedGroup section group
    = Some (mkGroupInfo (normalizeText (sentence ++ lit "."))
              (outageMinutes (normalizeText (sentence ++ lit ".")))).
Proof.
  intros (pre & a & ws & rest & -> & Hpre & Ha & Hws & Hs & Hstop).
  assert (Hfind : regexp.FindStringSubmatch (groupPattern group)
                    (pre ++ group ++ a ++ lit "." ++ ws ++ sentence
                       ++ lit "." ++ rest)
                  = Some [sentence ++ lit "."]).
  { apply FindStringSubmatch_Some.
    exists pre, (group ++ a ++ lit "." ++ ws ++ sentence ++ lit "." ++ rest).
    split; [done |]. split; [by apply groupPattern_sentence |].
    intros b1 b2 E Hb2. apply groupPattern_no_label. by apply (Hpre b1 b2). }
  assert (Hex : extractGroup
                  (pre ++ group ++ a ++ lit "." ++ ws ++ sentence
                     ++ lit "." ++ rest) group
                = strings.TrimSpace (sentence ++ lit ".")).
  { unfold extractGroup. by rewrite Hfind. }
  split; [done |]. unfold extractedGroup. rewrite Hex.
  destruct (decide (strings.TrimSpace (sentence ++ lit ".") = [])) as [E|E].
  - by apply TrimSpace_dot_nonempty in E.
  - by rewrite normalizeText_TrimSpace.
Qed.

Lemma extractGroup_layout_witness :
  extractGroup (lit "Група 6.1. Електроенергії немає з 08:00 до 11:30.</p>")
    groupPower
  = strings.TrimSpace (lit "Електроенергії немає з 08:00 до 11:30" ++ lit ".").
Proof.
  apply (extractGroup_layout
           (lit "Група 6.1. Електроенергії немає з 08:00 до 11:30.</p>")
           groupPower (lit "Електроенергії немає з 08:00 до 11:30")).
  exists [], [], (lit " "), (lit "</p>").
  split; [reflexivity |]. split; [| split; [| split; [| split]]].
  - intros p1 p2 E Hp2. by destruct p1, p2.
  - constructor.
  - by repeat constructor.
  - by_computation.
  - reflexivity.
Defined.

(** What follows the label in a match has a period. *)
Lemma sentence_needs_dot (k : list ascii -> regexp.Caps -> option regexp.Caps)
    (s : list ascii) (caps m : regexp.Caps) :
  regexp.run
    (regexp.Cat (regexp.Star regexp.space)
       (regexp.Group (regexp.Cat (regexp.Star regexp.notDot) (regexp.Chr "."))))
    k s caps = Some m ->
  "."%char ∈ s.
Proof.
  rewrite run_Cat, run_Star. intros H.
  apply starGreedy_consumes in H as (w1 & s1 & -> & H).
  rewrite run_Group, run_Cat, run_Star in H.
  apply starGreedy_consumes in H as (w2 & s2 & -> & H).
  rewrite run_Chr in H.
  destruct (time.expect [("."%char)] s2) as [s3|] eqn:E; [| done].
  apply expect_Some in E as ->.
  rewrite !elem_of_app, ?elem_of_cons. auto.
Qed.

Lemma groupPattern_Some_dot (g t : list ascii) (m : regexp.Caps) :
  regexp.matchHere (groupPattern g) t = Some m ->
  exists y, t = g ++ y ∧ "."%char ∈ y.
Proof.
  unfold regexp.matchHere, groupPattern. cbn [regexp.Seq].
  rewrite run_Cat, run_Lit.
  destruct (time.expect g t) as [s1|] eqn:E; [| done].
  apply expect_Some in E as ->. intros H. exists s1. split; [done |].
  rewrite run_Cat, run_Star in H.
  apply starGreedy_consumes in H as (w1 & s2 & -> & H).
  rewrite run_Cat, run_Opt in H. rewrite elem_of_app. right.
  destruct (regexp.run (regexp.Chr ".") _ s2 []) as [m'|] eqn:E1.
  - rewrite run_Chr in E1.
    destruct (time.expect [("."%char)] s2) as [s3|] eqn:E; [| done].
    apply expect_Some in E as ->. apply list_elem_of_here.
  - by apply sentence_needs_dot in H.
Qed.

Lemma groupPattern2_Some_dot (g t : list ascii) (m : regexp.Caps) :
  regexp.matchHere (groupPattern2 g) t = Some m ->
  exists y, t = g ++ y ∧ "."%char ∈ y.
Proof.
  unfold regexp.matchHere, groupPattern2. cbn [regexp.Seq].
  rewrite run_Cat, run_Lit.
  destruct (time.expect g t) as [s1|] eqn:E; [| done].
  apply expect_Some in E as ->. intros H. exists s1. split; [done |].
  rewrite run_Cat, run_LazyStar in H.
  apply starLazy_consumes in H as (w1 & s2 & -> & H).
  rewrite run_Cat, run_Chr in H.
  destruct (time.expect [("."%char)] s2) as [s3|] eqn:E; [| done].
  apply expect_Some in E as ->. rewrite elem_of_app. right.
  apply list_elem_of_here.
Qed.

(** After the period that follows the label, the pattern can always take
    just that period. *)
Lemma period_alone (rest : list ascii) :
  regexp.run
    (regexp.Cat (regexp.Star regexp.space)
       (regexp.Group (regexp.Cat (regexp.Star regexp.notDot) (regexp.Chr "."))))
    (fun _ caps => Some caps) ("."%char :: rest) []
  = Some [lit "."].
Proof.
  rewrite run_Cat, run_Star. cbn [regexp.starGreedy]. rewrite space_dot.
  apply (sentence_capture [] rest []). constructor.
Qed.

Lemma groupPattern_matches (g y : list ascii) :
  "."%char ∈ y -> is_Some (regexp.matchHere (groupPattern g) (g ++ y)).
Proof.
  intros Hy. apply list_elem_of_split_l in Hy as (a & rest & -> & Ha).
  assert (Hnd : Forall (fun c => regexp.notDot c = true) a).
  { apply Forall_forall. intros c Hc. unfold regexp.notDot.
    rewrite bool_decide_eq_false_2; [done |]. by intros ->. }
  unfold regexp.matchHere, groupPattern. cbn [regexp.Seq].
  rewrite run_Cat, run_Lit, expect_app, run_Cat, run_Star.
  destruct (regexp.run (regexp.Opt (regexp.Chr "."))
              (regexp.run
                 (regexp.Cat (regexp.Star regexp.space)
                    (regexp.Group
                       (regexp.Cat (regexp.Star regexp.notDot) (regexp.Chr "."))))
                 (fun _ caps => Some caps)) ("."%char :: rest) [])
    as [m|] eqn:E.
  - exists m. apply starGreedy_longest; [done | apply notDot_dot |].
    by rewrite run_Cat.
  - rewrite run_Opt in E.
    destruct (regexp.run (regexp.Chr ".") _ _ _); [done |].
    by rewrite period_alone in E.
Qed.

Lemma find_groupPattern (section g : list ascii) :
  is_Some (regexp.FindStringSubmatch (groupPattern g) section)
  <-> exists pre y, section = pre ++ g ++ y ∧ "."%char ∈ y.
Proof.
  split.
  - intros [m Hm]. apply FindStringSubmatch_Some in Hm
      as (before & t & -> & Ht & _).
    apply groupPattern_Some_dot in Ht as (y & -> & Hy). by exists before, y.
  - intros (pre & y & -> & Hy).
    destruct (regexp.FindStringSubmatch (groupPattern g) (pre ++ g ++ y))
      as [m|] eqn:E; [done |].
    rewrite FindStringSubmatch_None in E.
    destruct (groupPattern_matches g y Hy) as [m Hm].
    by rewrite (E pre (g ++ y) eq_refl) in Hm.
Qed.

Lemma fallback_unused (section g : list ascii) :
  regexp.FindStringSubmatch (groupPattern g) section = None ->
  regexp.FindStringSubmatch (groupPattern2 g) section = None.
Proof.
  intros H1.
  destruct (regexp.FindStringSubmatch (groupPattern2 g) section)
    as [m|] eqn:E2; [| done].
  apply FindStringSubmatch_Some in E2 as (before & t & -> & Ht & _).
  apply groupPattern2_Some_dot in Ht as (y & -> & Hy).
  assert (Hs : is_Some (regexp.FindStringSubmatch (groupPattern g)
                          (before ++ g ++ y)))
    by (apply find_groupPattern; by exists before, y).
  rewrite H1 in Hs. by destruct Hs.
Qed.

Lemma extractGroup_first (section g : list ascii) :
  extractGroup section g
  = match submatch1 (regexp.FindStringSubmatch (groupPattern g) section) with
    | Some m1 => strings.TrimSpace m1
    | None => []
    end.
Proof.
  unfold extractGroup.
  destruct (regexp.FindStringSubmatch (groupPattern g) section)
    as [m|] eqn:E1.
  - destruct (find_matchHere _ _ _ E1) as (t & Ht).
    by apply groupPattern_capture in Ht as (w & ->).
  - by rewrite (fallback_unused _ _ E1).
Qed.

(** X16: [extractGroup] finds a text for a group exactly when the label
    occurs in the section with a period somewhere after it.  The second
    pattern never contributes: where the first pattern finds nothing, the
    second finds nothing either. *)
Theorem extractGroup_found_iff (section g : list ascii) :
  (extractGroup section g ≠ []
   <-> exists pre y, section = pre ++ g ++ y ∧ "."%char ∈ y)
  ∧ (regexp.FindStringSubmatch (groupPattern g) section = None ->
     regexp.FindStringSubmatch (groupPattern2 g) section = None)
  ∧ extractGroup section g
    = match submatch1 (regexp.FindStringSubmatch (groupPattern g) section) with
      | Some m1 => strings.TrimSpace m1
      | None => []
      end.
Proof.
  split; [| split; [apply fallback_unused | apply extractGroup_first]].
  rewrite <- find_groupPattern. split.
  - intros Hne.
    destruct (regexp.FindStringSubmatch (groupPattern g) section)
      as [m|] eqn:E1; [done |].
    exfalso. apply Hne. apply extractGroup_nil_iff. split; [done |].
    by apply fallback_unused.
  - intros [m Hm] Hnil. apply extractGroup_nil_iff in Hnil as [H1 _].
    by rewrite H1 in Hm.
Qed.

Lemma extractGroup_found_iff_witness :
  regexp.FindStringSubmatch (groupPattern2 groupPower)
    (lit "Група 6.1 Електроенергія є") = None.
Proof.
  apply (proj1 (proj2 (extractGroup_found_iff
                         (lit "Група 6.1 Електроенергія є") groupPower))).
  vm_compute. reflexivity.
Defined.

Lemma sentence_absent (rest : list ascii) (caps : regexp.Caps) :
  Forall (fun c => regexp.notDot c = true) rest ->
  regexp.run
    (regexp.Cat (regexp.Star regexp.space)
       (regexp.Group (regexp.Cat (regexp.Star regexp.notDot) (regexp.Chr "."))))
    (fun _ caps => Some caps) rest caps = None.
Proof.
  intros Hr.
  destruct (regexp.run _ _ rest caps) as [m|] eqn:E; [| done].
  apply sentence_needs_dot in E. rewrite Forall_forall in Hr.
  apply Hr in E. by rewrite notDot_dot in E.
Qed.

(** X17: a label whose first occurrence is followed by one period and no
    other gives the period alone: the group is found, and it is recorded
    with the empty text and no minutes. *)
Theorem extractGroup_single_period (section g pre a rest : list ascii) :
  section = pre ++ g ++ a ++ lit "." ++ rest ->
  (forall p1 p2, pre = p1 ++ p2 -> p2 ≠ [] ->
     strings.HasPrefix (p2 ++ g ++ a ++ lit "." ++ rest) g = false) ->
  Forall (fun c => regexp.notDot c = true) a ->
  Forall (fun c => regexp.notDot c = true) rest ->
  extractGroup section g = lit "."
  ∧ extractedGroup section g = Some (mkGroupInfo [] 0).
Proof.
  intros -> Hpre Ha Hrest.
  assert (Hhere : regexp.matchHere (groupPattern g)
                    (g ++ a ++ lit "." ++ rest) = Some [lit "."]).
  { unfold regexp.matchHere, groupPattern. cbn [regexp.Seq].
    rewrite run_Cat, run_Lit, expect_app, run_Cat, run_Star.
    apply starGreedy_longest; [done | apply notDot_dot |].
    rewrite run_Cat, run_Opt, run_Chr.
    change (lit "." ++ rest) with ([("."%char)] ++ rest).
    rewrite expect_app, sentence_absent by done.
    apply period_alone. }
  assert (Hfind : regexp.FindStringSubmatch (groupPattern g)
                    (pre ++ g ++ a ++ lit "." ++ rest) = Some [lit "."]).
  { apply FindStringSubmatch_Some.
    exists pre, (g ++ a ++ lit "." ++ rest).
    split; [done |]. split; [done |].
    intros b1 b2 E Hb2. apply groupPattern_no_label. by apply (Hpre b1 b2). }
  assert (Hex : extractGroup (pre ++ g ++ a ++ lit "." ++ rest) g = lit ".").
  { unfold extractGroup. rewrite Hfind. reflexivity. }
  split; [done |]. unfold extractedGroup. rewrite Hex. reflexivity.
Qed.

Lemma extractGroup_single_period_witness :
  extractedGroup (lit "Група 6.1. Електроенергія є") groupPower
  = Some (mkGroupInfo [] 0).
Proof.
  apply (extractGroup_single_period (lit "Група 6.1. Електроенергія є")
           groupPower [] [] (lit " Електроенергія є")).
  - reflexivity.
  - intros p1 p2 E Hp2. by destruct p1, p2.
  - constructor.
  - by_computation.
Defined.

(** ** The recorded text has no period *)

(** A text without period, or such a text closed by one. *)
Lemma closed_suffix (pre r : list ascii) :
  ClosedSentence (pre ++ r) -> ClosedSentence r.
Proof.
  intros (u & Hu & [E | E]).
  - exists r. split; [| by left]. subst u. rewrite not_elem_of_app in Hu.
    by destruct Hu.
  - destruct r as [|c r0 _] using rev_ind.
    + exists []. split; [apply not_elem_of_nil | by left].
    + rewrite app_assoc in E. apply app_inj_tail in E as [<- ->].
      exists r0. split; [| by right]. rewrite not_elem_of_app in Hu.
      by destruct Hu.
Qed.

Lemma closed_prefix (r post : list ascii) :
  ClosedSentence (r ++ post) -> ClosedSentence r.
Proof.
  intros (u & Hu & [E | E]).
  - exists r. split; [| by left]. subst u. rewrite not_elem_of_app in Hu.
    by destruct Hu.
  - destruct post as [|c post0 _] using rev_ind.
    + rewrite app_nil_r in E. subst r. exists u. split; [done | by right].
    + rewrite app_assoc in E. apply app_inj_tail in E as [<- ->].
      exists r. split; [| by left]. rewrite not_elem_of_app in Hu.
      by destruct Hu.
Qed.

Lemma TrimSpace_parts (s : list ascii) :
  exists pre post, s = pre ++ strings.TrimSpace s ++ post.
Proof.
  destruct TrimSpace_nonempty_entries as [Ht Hr].
  unfold strings.TrimSpace, strings.trimRight, strings.trimLeft.
  destruct (trimLeftN_suffix strings.spaceRunes (length s) s Ht (le_n _))
    as (pre & Hpre & _).
  set (s1 := strings.trimLeftN (length s) strings.spaceRunes s) in *.
  destruct (trimLeftN_suffix (map reverse strings.spaceRunes)
              (length (reverse s1)) (reverse s1) Hr (le_n _))
    as (post & Hpost & _).
  set (r := strings.trimLeftN (length (reverse s1))
              (map reverse strings.spaceRunes) (reverse s1)) in *.
  exists pre, (reverse post). rewrite <- reverse_app, <- Hpost.
  by rewrite reverse_involutive.
Qed.

Lemma closed_TrimSpace (s : list ascii) :
  ClosedSentence s -> ClosedSentence (strings.TrimSpace s).
Proof.
  intros H. destruct (TrimSpace_parts s) as (pre & post & E).
  rewrite E in H. by apply closed_suffix, closed_prefix in H.
Qed.

Lemma closed_TrimPrefix (s p : list ascii) :
  ClosedSentence s -> ClosedSentence (strings.TrimPrefix s p).
Proof.
  intros H. unfold strings.TrimPrefix.
  destruct (strings.HasPrefix s p); [| done].
  rewrite <- (take_drop (length p) s) in H. by apply closed_suffix in H.
Qed.

Lemma replaceFrom_no_period (old new u : list ascii) :
  "."%char ∉ new -> "."%char ∉ u ->
  forall k, "."%char ∉ strings.replaceFrom k old new u.
Proof.
  intros Hnew. induction u as [|c u IH]; intros Hu k.
  - apply not_elem_of_nil.
  - apply not_elem_of_cons in Hu as [Hc Hu]. cbn [strings.replaceFrom].
    destruct k as [|k]; [| by apply IH].
    destruct (strings.HasPrefix (c :: u) old).
    + rewrite not_elem_of_app. split; [done | by apply IH].
    + apply not_elem_of_cons. split; [done | by apply IH].
Qed.

Lemma replaceFrom_closed (old new u : list ascii) :
  "."%char ∉ new -> "."%char ∉ u ->
  forall k, ClosedSentence (strings.replaceFrom k old new (u ++ lit ".")).
Proof.
  intros Hnew. induction u as [|c u IH]; intros Hu k.
  - cbn [app lit list_ascii_of_string strings.replaceFrom].
    destruct k as [|k].
    + destruct (strings.HasPrefix _ old).
      * exists (new ++ []). split; [| by left].
        rewrite app_nil_r. done.
      * exists []. split; [apply not_elem_of_nil | by right].
    + exists []. split; [apply not_elem_of_nil | by left].
  - apply not_elem_of_cons in Hu as [Hc Hu].
    cbn [app strings.replaceFrom].
    destruct k as [|k]; [| by apply IH].
    destruct (strings.HasPrefix _ old).
    + destruct (IH Hu (length old - 1)%nat) as (v & Hv & [E | E]); rewrite E.
      * exists (new ++ v). split; [| by left].
        rewrite not_elem_of_app. done.
      * exists (new ++ v). split; [| right; by rewrite app_assoc].
        rewrite not_elem_of_app. done.
    + destruct (IH Hu 0%nat) as (v & Hv & [E | E]); rewrite E.
      * exists (c :: v). split; [| by left]. by apply not_elem_of_cons.
      * exists (c :: v). split; [| by right]. by apply not_elem_of_cons.
Qed.

Lemma closed_ReplaceAll (s old new : list ascii) :
  "."%char ∉ new -> ClosedSentence s ->
  ClosedSentence (strings.ReplaceAll s old new).
Proof.
  intros Hnew (u & Hu & [-> | ->]); unfold strings.ReplaceAll.
  - exists (strings.replaceFrom 0 old new u). split; [| by left].
    by apply replaceFrom_no_period.
  - by apply replaceFrom_closed.
Qed.

Lemma closed_TrimSuffix (s : list ascii) :
  ClosedSentence s -> "."%char ∉ strings.TrimSuffix s (lit ".").
Proof.
  intros (u & Hu & [-> | ->]); unfold strings.TrimSuffix, strings.HasSuffix.
  - destruct (strings.HasPrefix _ _); [| done].
    intros H. apply Hu. eapply elem_of_sublist; [exact H |].
    apply sublist_take.
  - rewrite reverse_app. cbn. rewrite bool_decide_eq_true_2 by done.
    cbn. rewrite length_app. cbn [length].
    replace (length u + 1 - 1)%nat with (length u) by lia.
    by rewrite take_app_length.
Qed.

Lemma normalizeText_no_period (s : list ascii) :
  ClosedSentence s -> "."%char ∉ normalizeText s.
Proof.
  intros H. unfold normalizeText.
  destruct (strings.Contains _ powerIsPresent); [by_computation |].
  apply closed_TrimSuffix.
  apply closed_ReplaceAll; [by_computation |].
  apply closed_ReplaceAll; [by_computation |].
  by apply closed_TrimSpace, closed_TrimPrefix, closed_TrimSpace.
Qed.

(** What the group of the first pattern captures. *)
Lemma groupPattern_sentence_shape (g s : list ascii) (m : regexp.Caps) :
  regexp.matchHere (groupPattern g) s = Some m ->
  exists w, m = [w ++ lit "."] ∧ "."%char ∉ w.
Proof.
  unfold regexp.matchHere, groupPattern. cbn [regexp.Seq].
  rewrite run_Cat. intros H.
  apply run_consumes in H as (w1 & s1 & _ & H); [| apply groupFree_Lit].
  rewrite run_Cat in H.
  apply run_consumes in H as (w2 & s2 & _ & H); [| done].
  rewrite run_Cat in H.
  apply run_consumes in H as (w3 & s3 & _ & H); [| done].
  rewrite run_Cat in H.
  apply run_consumes in H as (w4 & s4 & _ & H); [| done].
  rewrite run_Group, run_Cat, run_Star in H.
  apply starGreedy_Some_class in H as (w & s5 & Hw & -> & H).
  rewrite run_Chr in H.
  destruct (time.expect [("."%char)] s5) as [s6|] eqn:E; [| done].
  apply expect_Some in E as ->. injection H as <-.
  exists w. split.
  - change ([] ++ ?x) with x. do 2 f_equal.
    replace (length (w ++ "."%char :: s6) - length s6)%nat
      with (length (w ++ lit "."))%nat
      by (rewrite !length_app; simpl; lia).
    change (w ++ "."%char :: s6) with (w ++ lit "." ++ s6).
    rewrite app_assoc. apply take_app_length.
  - intros Hin. rewrite Forall_forall in Hw. apply Hw in Hin.
    by rewrite notDot_dot in Hin.
Qed.

(** X18: the text recorded for a group never contains a period: the group
    of the pattern stops at the first period after it starts, and
    [normalizeText] removes that period. *)
Theorem extractedGroup_no_period (section g : list ascii) (x : GroupInfo) :
  extractedGroup section g = Some x -> "."%char ∉ Text x.
Proof.
  unfold extractedGroup.
  destruct (decide (extractGroup section g = [])) as [E|E]; [done |].
  intros [= <-]. cbn [Text]. revert E. rewrite extractGroup_first.
  destruct (regexp.FindStringSubmatch (groupPattern g) section)
    as [m|] eqn:E1; [| done].
  destruct (find_matchHere _ _ _ E1) as (t & Ht).
  apply groupPattern_sentence_shape in Ht as (w & -> & Hw).
  cbn [submatch1]. intros _. rewrite normalizeText_TrimSpace.
  apply normalizeText_no_period. exists w. split; [done | by right].
Qed.

Lemma extractedGroup_no_period_witness :
  "."%char ∉ lit "Електроенергії немає з 08".
Proof.
  apply (extractedGroup_no_period
           (lit "Група 6.1. Електроенергії немає з 08.00 до 11.30.")
           groupPower
           (mkGroupInfo (lit "Електроенергії немає з 08") 0)).
  vm_compute. reflexivity.
Defined.

(** ** A page of the expected layout, end to end *)

Lemma twoDigitsOf_TwoDigits (n : Z) : 0 <= n <= 99 -> TwoDigits (twoDigitsOf n).
Proof.
  intros Hn. unfold twoDigitsOf. eexists _, _. split; [reflexivity |].
  split.
  - apply (digit_roundtrip (n / 10)). divlia.
  - apply (digit_roundtrip (n mod 10)). divlia.
Qed.

Lemma Format_DateTitle (d : time.Time) :
  validDate d -> DateTitle (time.Format_02_01_2006 d).
Proof.
  intros (Hy & Hm & Hd).
  pose proof (daysIn_le_31 (time.Month d) (time.Year d)) as H31.
  unfold time.Format_02_01_2006.
  rewrite !appendInt_two, appendInt_four by lia.
  exists (twoDigitsOf (time.Day d)), (twoDigitsOf (time.Month d)),
    [time.digitChar (time.Year d / 1000);
     time.digitChar (time.Year d / 100 mod 10)],
    [time.digitChar (time.Year d / 10 mod 10);
     time.digitChar (time.Year d mod 10)].
  split; [apply twoDigitsOf_TwoDigits; lia |].
  split; [apply twoDigitsOf_TwoDigits; lia |].
  split; [| split; [| done]].
  - eexists _, _. split; [reflexivity |]. split.
    + apply (digit_roundtrip (time.Year d / 1000)). divlia.
    + apply (digit_roundtrip (time.Year d / 100 mod 10)). divlia.
  - eexists _, _. split; [reflexivity |]. split.
    + apply (digit_roundtrip (time.Year d / 10 mod 10)). divlia.
    + apply (digit_roundtrip (time.Year d mod 10)). divlia.
Qed.

Lemma labelFree_spec (g pre tail : list ascii) :
  labelFree g pre tail = true ->
  forall p1 p2, pre = p1 ++ p2 -> p2 ≠ [] ->
                strings.HasPrefix (p2 ++ tail) g = false.
Proof.
  induction pre as [|c pre IH]; intros H p1 p2 E Hp2.
  - by destruct p1, p2.
  - cbn [labelFree] in H. apply andb_true_iff in H as [H1 H2].
    destruct p1 as [|x p1].
    + cbn [app] in E. subst p2. by apply negb_true_iff in H1.
    + injection E as -> E. by apply (IH H2 p1 p2).
Qed.

Lemma extractedGroup_sentence (section g sentence : list ascii) :
  SentenceOf g section sentence ->
  extractGroup section g ≠ []
  ∧ extractedGroup section g = Some (recordOf sentence).
Proof.
  intros (pre & a & ws & rest & -> & Hpre & Ha & Hws & Hs & Hstop).
  assert (Hfind : regexp.FindStringSubmatch (groupPattern g)
                    (pre ++ g ++ a ++ lit "." ++ ws ++ sentence
                       ++ lit "." ++ rest)
                  = Some [sentence ++ lit "."]).
  { apply FindStringSubmatch_Some.
    exists pre, (g ++ a ++ lit "." ++ ws ++ sentence ++ lit "." ++ rest).
    split; [done |]. split; [by apply groupPattern_sentence |].
    intros b1 b2 E Hb2. apply groupPattern_no_label. by apply (Hpre b1 b2). }
  assert (Hex : extractGroup
                  (pre ++ g ++ a ++ lit "." ++ ws ++ sentence
                     ++ lit "." ++ rest) g
                = strings.TrimSpace (sentence ++ lit ".")).
  { unfold extractGroup. by rewrite Hfind. }
  rewrite Hex. split; [apply TrimSpace_dot_nonempty |].
  unfold extractedGroup. rewrite Hex.
  destruct (decide (strings.TrimSpace (sentence ++ lit ".") = [])) as [E|E].
  - by apply TrimSpace_dot_nonempty in E.
  - unfold recordOf. by rewrite normalizeText_TrimSpace.
Qed.

(** X19: a page of the expected layout is parsed into the expected record.
    When the section of the date stands after its bold header and, in it,
    the label of each tracked group is followed by its sentence, [parsePage]
    returns for that date one record, dated in the form of the state, with the
    normalized sentence and its minutes for each of the two groups. *)
Theorem parsePage_layout (body content sPower sWater : list ascii)
    (d : time.Time) :
  validDate d ->
  SectionOf (lit "<b>") (lit "</b>") (time.Format_02_01_2006 d) body content ->
  SentenceOf groupPower content sPower ->
  SentenceOf groupWater content sWater ->
  parsePage body [d]
  = ([ mkDayInfo (time.Format_2006_01_02 d)
         (<[groupWater := recordOf sWater]>
            {[ groupPower := recordOf sPower ]}) ],
     None).
Proof.
  intros Hd Hsec Hp Hw.
  pose proof (Format_DateTitle d Hd) as Ht.
  assert (Hsection : extractSection body (time.Format_02_01_2006 d) = content).
  { unfold extractSection. by rewrite (find_section _ _ _ _ _ Ht Hsec). }
  destruct (extractedGroup_sentence _ _ _ Hp) as [Hp1 Hp2].
  destruct (extractedGroup_sentence _ _ _ Hw) as [Hw1 Hw2].
  assert (Hgroups : parseGroups content
                    = <[groupWater := recordOf sWater]>
                        {[ groupPower := recordOf sPower ]}).
  { unfold parseGroups, trackedGroups. cbn [foldl]. unfold parseGroup.
    rewrite (bool_decide_eq_false_2 _ Hp1), (bool_decide_eq_false_2 _ Hw1).
    unfold extractedGroup in Hp2, Hw2.
    destruct (decide (extractGroup content groupPower = [])); [done |].
    destruct (decide (extractGroup content groupWater = [])); [done |].
    injection Hp2 as Hp2. injection Hw2 as Hw2.
    by rewrite Hp2, Hw2, insert_empty. }
  unfold parsePage. cbn [foldl]. unfold parseDate. rewrite Hsection, Hgroups.
  assert (Hne : content ≠ []).
  { intros ->. destruct Hp as (pre & a & ws & rest & E & _).
    destruct pre; [| done]. unfold groupPower in E. done. }
  rewrite (bool_decide_eq_false_2 _ Hne).
  rewrite bool_decide_eq_true_2; [done |].
  rewrite map_size_insert, map_size_singleton.
  destruct (_ !! _); unfold id; lia.
Qed.

Lemma parsePage_layout_witness :
  parsePage samplePage [time.mkTime 2025 12 12 0 0]
  = ([ mkDayInfo (lit "2025-12-12")
         (<[groupWater := recordOf (lit "Електроенергія є")]>
            {[ groupPower :=
                 recordOf (lit "Електроенергії немає з 08:00 до 11:30") ]}) ],
     None).
Proof.
  apply (parsePage_layout samplePage
           (lit "<p>Група 4.1. Електроенергія є.</p><p>Група 6.1. Електроенергії немає з 08:00 до 11:30.</p>")
           (lit "Електроенергії немає з 08:00 до 11:30")
           (lit "Електроенергія є")
           (time.mkTime 2025 12 12 0 0)).
  - repeat split; by vm_compute.
  - exists [], (lit " "), []. split; [| split; [| split; [| split]]].
    + split; [done |]. by constructor.
    + reflexivity.
    + intros p1 p2 E Hp2. by destruct p1, p2.
    + intros c1 c2 E Hc2 H. apply AnyHeaderAt_matchHere in H.
      assert (Hnone : regexp.FindStringSubmatch
                        (nextHeader (lit "<b>") (lit "</b>"))
                        (lit "<p>Група 4.1. Електроенергія є.</p><p>Група 6.1. Електроенергії немає з 08:00 до 11:30.</p>")
                      = None) by (vm_compute; reflexivity).
      rewrite FindStringSubmatch_None in Hnone.
      rewrite app_nil_r in H. rewrite (Hnone c1 c2 E) in H. discriminate H.
    + by left.
  - exists (lit "<p>Група 4.1. Електроенергія є.</p><p>"), [], (lit " "),
      (lit "</p>").
    split; [reflexivity |]. split; [| split; [| split; [| split]]].
    + apply labelFree_spec. vm_compute. reflexivity.
    + constructor.
    + by repeat constructor.
    + by_computation.
    + reflexivity.
  - exists (lit "<p>"), [], (lit " "),
      (lit "</p><p>Група 6.1. Електроенергії немає з 08:00 до 11:30.</p>").
    split; [reflexivity |]. split; [| split; [| split; [| split]]].
    + apply labelFree_spec. vm_compute. reflexivity.
    + constructor.
    + by repeat constructor.
    + by_computation.
    + reflexivity.
Defined.

(** ** The first run *)




(** ** The day of a run *)

Lemma Truncate_day (now : Z) :
  Truncate now (24 * 3600) = now / 86400 * 86400.
Proof.
  unfold Truncate, zeroUnix. Z.to_euclidean_division_equations; lia.
Qed.

Lemma civilFromDays_year (n : Z) :
  0 <= n < 2900000 ->
  1 <= (time.civilFromDays n).1.1 <= 9998.
Proof.
  intros Hn. unfold time.civilFromDays. cbn [fst].
  set (z := n + 719468). set (era := z / 146097).
  set (doe := z - era * 146097).
  assert (Hdoe : 0 <= doe < 146097)
    by (subst doe era; Z.to_euclidean_division_equations; lia).
  pose proof (yoe_bounds doe Hdoe) as Hy. cbn zeta in Hy.
  set (yoe := (doe - doe / 1460 + doe / 36524 - doe / 146096) / 365) in *.
  destruct Hy as (Hyoe & Hdoy & _). clearbody yoe.
  assert (Hera : 4 <= era <= 24)
    by (subst era z; Z.to_euclidean_division_equations; lia).
  assert (Hlate : era = 24 -> yoe <= 310).
  { intros E. subst doe era z. Z.to_euclidean_division_equations; lia. }
  destruct (_ <=? 2); lia.
Qed.

(** X21: [today] of [main] is the date that the clock shows in UTC, at the
    time of day that the location has at midnight UTC.  In a location ahead
    of UTC, as Kyiv is, the local date is one day after [today] from local
    midnight until UTC reaches midnight: a run in those hours checks
    yesterday and today, not today and tomorrow. *)
Theorem todayOf_utc_date (loc : Location) (now : Z) :
  0 <= now < 86400 * 2900000 ->
  0 <= loc (Truncate now (24 * 3600)) < 86400 ->
  0 <= loc now < 86400 ->
  dayNumber (todayOf loc now) = now / 86400
  ∧ validTime (todayOf loc now)
  ∧ 1 <= time.Year (todayOf loc now) <= 9998
  ∧ dayNumber (In loc now)
    = dayNumber (todayOf loc now)
      + (if now mod 86400 + loc now <? 86400 then 0 else 1).
Proof.
  intros Hnow Hoff Hoff'. unfold todayOf, In.
  rewrite Truncate_day in *.
  set (q := now / 86400) in *. set (off := loc (q * 86400)) in *.
  assert (Hq : 0 <= q < 2900000)
    by (subst q; Z.to_euclidean_division_equations; lia).
  replace ((q * 86400 + off) / 86400) with q
    by (Z.to_euclidean_division_equations; lia).
  pose proof (civilFromDays_spec q) as Hs.
  pose proof (civilFromDays_year q Hq) as Hyear.
  destruct (time.civilFromDays q) as [[y m] d]. cbn [fst] in Hyear.
  destruct Hs as (Hn & Hm & Hd).
  unfold dayNumber, validTime, validDate.
  cbn [time.Year time.Month time.Day time.Hour time.Minute].
  split; [done |]. split.
  { repeat split; try lia; Z.to_euclidean_division_equations; lia. }
  split; [done |].
  set (n' := (now + loc now) / 86400).
  pose proof (civilFromDays_spec n') as Hs'.
  destruct (time.civilFromDays n') as [[y' m'] d'].
  destruct Hs' as (Hn' & _ & _).
  cbn [time.Year time.Month time.Day]. rewrite Hn, Hn'. subst n' q.
  destruct (Z.ltb_spec (now mod 86400 + loc now) 86400);
    Z.to_euclidean_division_equations; lia.
Qed.

Lemma todayOf_utc_date_witness :
  dayNumber (In (fun _ => 7200) 1765494000)
  = dayNumber (todayOf (fun _ => 7200) 1765494000)
    + (if 1765494000 mod 86400 + 7200 <? 86400 then 0 else 1).
Proof.
  refine (proj2 (proj2 (proj2 (todayOf_utc_date (fun _ => 7200) 1765494000
                                 _ _ _)))); cbn beta; lia.
Defined.
